(** * Waypoint decomposition and segmented execution (lacam.py,
      comprehensive_test.py): a shallow embedding and its properties.

    The Python sources are embedded as Rocq functions.  Integers are [Z],
    text is [string] (characters are code points below 256), lists are
    [list], Python exceptions are the [Raise] results of [res], and the
    effects of the orchestrator (console lines, files, solver runs) are
    recorded in an explicit log threaded through a small monad.  Clock
    readings are rationals: floating-point rounding is not modelled, and
    no property below depends on it. *)

From Stdlib Require Import ZArith List String Ascii Bool Lia QArith.
From Stdlib Require Import Decimal DecimalString DecimalPos.
Import ListNotations.

Local Open Scope list_scope.
Local Open Scope string_scope.
Local Open Scope Z_scope.

(* ================================================================== *)
(** ** Python primitives used by the sources *)
(* ================================================================== *)

Module Py.

(** The exceptions the modelled code can raise. *)
Inductive exn : Type :=
| ValueError
| IndexError
| KeyError
| ZeroDivisionError
| TypeError.

(** A computation that returns or raises. *)
Inductive res (A : Type) : Type :=
| Ok (a : A)
| Raise (e : exn).
Arguments Ok {A} a.
Arguments Raise {A} e.

Definition bind {A B} (r : res A) (k : A -> res B) : res B :=
  match r with
  | Ok a => k a
  | Raise e => Raise e
  end.

Definition TAB : ascii := "009"%char.
Definition LF : ascii := "010"%char.
Definition CR : ascii := "013"%char.

(** [str.isspace] on one character, for code points below 256. *)
Definition is_space (c : ascii) : bool :=
  let n := N_of_ascii c in
  ((9 <=? n) && (n <=? 13) || (28 <=? n) && (n <=? 32)
   || (n =? 133) || (n =? 160))%N.

Fixpoint lstrip (s : string) : string :=
  match s with
  | EmptyString => EmptyString
  | String c r => if is_space c then lstrip r else s
  end.

Fixpoint rstrip (s : string) : string :=
  match s with
  | EmptyString => EmptyString
  | String c r =>
      match rstrip r with
      | EmptyString => if is_space c then EmptyString else String c EmptyString
      | r' => String c r'
      end
  end.

(** [s.strip()] *)
Definition strip (s : string) : string := rstrip (lstrip s).

(** [s.split(sep)] for a one-character separator: empty fields are kept
    and the result is never empty. *)
Fixpoint split (sep : ascii) (s : string) : list string :=
  match s with
  | EmptyString => [EmptyString]
  | String c r =>
      if Ascii.eqb c sep then EmptyString :: split sep r
      else match split sep r with
           | [] => [String c EmptyString]
           | f :: fs => String c f :: fs
           end
  end.

(** [s.startswith(p)] *)
Definition startswith (s p : string) : bool := String.prefix p s.

(** Text-mode reading with universal newlines: CR LF and a lone CR are
    read as LF. *)
Fixpoint universal_newlines (s : string) : string :=
  match s with
  | EmptyString => EmptyString
  | String c r =>
      if Ascii.eqb c CR then
        match r with
        | String c' r' =>
            if Ascii.eqb c' LF then String LF (universal_newlines r')
            else String LF (universal_newlines r)
        | EmptyString => String LF EmptyString
        end
      else String c (universal_newlines r)
  end.

(** Lines of a text, each keeping its terminating LF. *)
Fixpoint keep_lines (s : string) : list string :=
  match s with
  | EmptyString => []
  | String c r =>
      if Ascii.eqb c LF then String c EmptyString :: keep_lines r
      else match keep_lines r with
           | [] => [String c EmptyString]
           | l :: ls => String c l :: ls
           end
  end.

(** [f.readlines()], and the lines of [for line in f], on a file opened
    with [open(path, 'r')]. *)
Definition readlines (content : string) : list string :=
  keep_lines (universal_newlines content).

(** [str(n)] for an integer. *)
Definition str (n : Z) : string := NilZero.string_of_int (Z.to_int n).

Definition is_digit (c : ascii) : bool :=
  let n := N_of_ascii c in ((48 <=? n) && (n <=? 57))%N.

Definition digit_val (c : ascii) : Z := Z.of_N (N_of_ascii c) - 48.

(** The digits of an integer literal: decimal digits, single underscores
    allowed between two digits.  [after_digit] tells whether the previous
    character was a digit. *)
Fixpoint int_digits (acc : Z) (after_digit : bool) (s : string) : option Z :=
  match s with
  | EmptyString => if after_digit then Some acc else None
  | String c r =>
      if is_digit c then int_digits (10 * acc + digit_val c) true r
      else if Ascii.eqb c "_" && after_digit then int_digits acc false r
      else None
  end.

(** [int(s)]: surrounding white space is dropped, one sign is allowed.
    (The interpreter's limit on the number of digits is not modelled.) *)
Definition int (s : string) : res Z :=
  let t := strip s in
  let r :=
    match t with
    | String "-" d => option_map Z.opp (int_digits 0 false d)
    | String "+" d => int_digits 0 false d
    | _ => int_digits 0 false t
    end in
  match r with
  | Some z => Ok z
  | None => Raise ValueError
  end.

(** [l[i]], with negative indices counted from the end. *)
Definition getitem {A} (l : list A) (i : Z) : res A :=
  let n := Z.of_nat (List.length l) in
  let j := if i <? 0 then i + n else i in
  if (j <? 0) || (n <=? j) then Raise IndexError
  else match nth_error l (Z.to_nat j) with
       | Some x => Ok x
       | None => Raise IndexError
       end.

(** [l[:stop]] *)
Definition slice_to {A} (l : list A) (stop : Z) : list A :=
  let n := Z.of_nat (List.length l) in
  let k := if stop <? 0 then Z.max 0 (stop + n) else Z.min stop n in
  firstn (Z.to_nat k) l.

(** [l[start:]] for a non-negative literal [start]. *)
Definition slice_from {A} (l : list A) (start : nat) : list A :=
  skipn start l.

(** [s[:stop]] on a string, for a non-negative literal [stop]. *)
Definition str_slice_to (s : string) (stop : nat) : string :=
  String.substring 0 stop s.

(** [range(n)] *)
Definition range (n : Z) : list Z :=
  map Z.of_nat (seq 0 (Z.to_nat n)).

(** [max(xs)] over a non-empty iterable of integers. *)
Definition max (xs : list Z) : res Z :=
  match xs with
  | [] => Raise ValueError
  | x :: r => Ok (fold_left Z.max r x)
  end.

(** [a // b] *)
Definition floordiv (a b : Z) : res Z :=
  if b =? 0 then Raise ZeroDivisionError else Ok (a / b).

(** [format(s, '<w')]: pad with spaces on the right up to width [w]. *)
Fixpoint spaces (n : nat) : string :=
  match n with
  | O => EmptyString
  | S m => String " " (spaces m)
  end.

Definition ljust (w : nat) (s : string) : string :=
  s ++ spaces (w - String.length s).

(** A value returned by [json.load]: [None], a truth value, an [int], a
    [float], a text, a list, or a dictionary (given by its items; a key
    occurs once).  Floats are rationals: NaN and the infinities are not
    modelled. *)
#[warnings="-register-all"]
Inductive json : Type :=
| JNull
| JBool (b : bool)
| JInteger (z : Z)
| JFloat (q : Q)
| JString (s : string)
| JArray (items : list json)
| JObject (members : list (string * json)).

(** [v[key]] for a text [key]: only a dictionary can be asked, and only
    for a key it has. *)
Definition subscript (v : json) (key : string) : res json :=
  match v with
  | JObject members =>
      match find (fun kv => String.eqb (fst kv) key) members with
      | Some kv => Ok (snd kv)
      | None => Raise KeyError
      end
  | _ => Raise TypeError
  end.

(** What [format(v, spec)] formats for a numeric [spec] ([','], ['.0f'],
    ['.1f']): an [int] (a truth value is one) or a [float]; a text makes
    it raise [ValueError], anything else [TypeError]. *)
Inductive number : Type :=
| NInt (z : Z)
| NFloat (q : Q).

Definition number_of (v : json) : res number :=
  match v with
  | JInteger z => Ok (NInt z)
  | JFloat q => Ok (NFloat q)
  | JBool b => Ok (NInt (if b then 1 else 0))
  | JString _ => Raise ValueError
  | JNull | JArray _ | JObject _ => Raise TypeError
  end.

(** The value a fixed-point format prints: an [int] is turned into a
    [float] first. *)
Definition as_float (n : number) : Q :=
  match n with
  | NInt z => inject_Z z
  | NFloat q => q
  end.

End Py.

Notation "x <- c1 ;; c2" := (Py.bind c1 (fun x => c2))
  (at level 61, c1 at next level, right associativity).


(* ================================================================== *)
(** ** lacam.py: scenario parsing and segment construction *)
(* ================================================================== *)

Module Lacam.
Import Py.

Definition pos : Type := Z * Z.

(** The dictionary built for every agent by [parse_waypoint_scenario]. *)
Record agent : Type := mkAgent {
  start : pos;
  goal : pos;
  waypoints : list pos;
  K : Z;
  bucket_id : Z
}.

(** [int(parts[i])] *)
Definition int_field (parts : list string) (i : Z) : res Z :=
  p <- getitem parts i ;; int p.

(** The inner loop [for j in range(K)] that fills [waypoints]. *)
Fixpoint collect_waypoints (waypoint_parts : list string) (js : list Z)
    (acc : list pos) : res (list pos) :=
  match js with
  | [] => Ok acc
  | j :: js' =>
      if j * 2 + 1 <? Z.of_nat (List.length waypoint_parts) then
        wp_row <- int_field waypoint_parts (j * 2) ;;
        wp_col <- int_field waypoint_parts (j * 2 + 1) ;;
        collect_waypoints waypoint_parts js' (acc ++ [(wp_row, wp_col)])%list
      else collect_waypoints waypoint_parts js' acc
  end.

(** What one pass through the body of the [while] loop does with the
    line it looks at. *)
Inductive line_outcome : Type :=
| Skipped                 (* blank line or fewer than 10 fields: i += 1; continue *)
| Appended (a : agent)    (* agents.append(...); i += 1 *)
| Warned (k : Z).         (* the warning is printed; continue, i unchanged *)

Definition parse_line (raw : string) : res line_outcome :=
  let line := strip raw in
  if String.eqb line EmptyString then Ok Skipped
  else
    let parts := split TAB line in
    if Z.of_nat (List.length parts) <? 10 then Ok Skipped
    else
      s_row <- int_field parts 4 ;;
      s_col <- int_field parts 5 ;;
      g_row <- int_field parts 6 ;;
      g_col <- int_field parts 7 ;;
      k <- int_field parts 9 ;;
      if 10 + k * 2 <=? Z.of_nat (List.length parts) then
        wps <- collect_waypoints (slice_from parts 10) (range k) [] ;;
        b <- int_field parts 0 ;;
        Ok (Appended (mkAgent (s_row, s_col) (g_row, g_col) wps k b))
      else Ok (Warned k).

Definition warning (k : Z) : string :=
  "Warning: Not enough waypoint data for agent with " ++ str k ++ " waypoints".

(** The [while i < len(lines)] loop.  [fuel] bounds the number of passes
    through the loop body; [None] means the bound was reached with the
    loop still running.  The result carries the lines printed. *)
Fixpoint parse_loop (fuel : nat) (lines : list string) (i : nat)
    (agents : list agent) (out : list string)
    : option (res (list agent) * list string) :=
  match fuel with
  | O => None
  | S fuel' =>
      match nth_error lines i with
      | None => Some (Ok agents, out)
      | Some raw =>
          match parse_line raw with
          | Raise e => Some (Raise e, out)
          | Ok Skipped => parse_loop fuel' lines (S i) agents out
          | Ok (Appended a) =>
              parse_loop fuel' lines (S i) (agents ++ [a])%list out
          | Ok (Warned k) =>
              parse_loop fuel' lines i agents (out ++ [warning k])%list
          end
      end
  end.

Definition start_idx (lines : list string) : nat :=
  match lines with
  | l0 :: _ => if startswith (strip l0) "version" then 1%nat else 0%nat
  | [] => 0%nat
  end.

(** [parse_waypoint_scenario], on the content of the file at [scen_path]. *)
Definition parse_waypoint_scenario (fuel : nat) (content : string)
    : option (res (list agent) * list string) :=
  let lines := readlines content in
  parse_loop fuel lines (start_idx lines) [] [].

(** Start and goal of one agent in segment [segment_idx]: the
    [if]/[elif]/[else] of [create_segment_scenario]. *)
Definition segment_endpoints (a : agent) (segment_idx : Z) : res (pos * pos) :=
  if segment_idx =? 0 then
    g <- match waypoints a with
         | [] => Ok (goal a)
         | _ :: _ => getitem (waypoints a) 0
         end ;;
    Ok (start a, g)
  else if segment_idx <=? Z.of_nat (List.length (waypoints a)) then
    s <- getitem (waypoints a) (segment_idx - 1) ;;
    g <- (if segment_idx =? Z.of_nat (List.length (waypoints a))
          then Ok (goal a)
          else getitem (waypoints a) segment_idx) ;;
    Ok (s, g)
  else Ok (goal a, goal a).

Definition tab : string := String TAB EmptyString.
Definition nl : string := String LF EmptyString.

(** The line written for one agent. *)
Definition scenario_line (bucket : Z) (map_filename : string)
    (map_width map_height : Z) (s g : pos) : string :=
  let opt_len := Z.abs (fst s - fst g) + Z.abs (snd s - snd g) in
  str bucket ++ tab ++ map_filename ++ tab ++ str map_width ++ tab
    ++ str map_height ++ tab ++ str (fst s) ++ tab ++ str (snd s) ++ tab
    ++ str (fst g) ++ tab ++ str (snd g) ++ tab ++ str opt_len ++ nl.

Definition header : string := "version 1" ++ nl.

(** The [for i, agent in enumerate(agents)] loop, writing after [written]. *)
Fixpoint write_agents (agents : list agent) (segment_idx : Z)
    (map_filename : string) (map_width map_height : Z) (written : string)
    : res string :=
  match agents with
  | [] => Ok written
  | a :: rest =>
      sg <- segment_endpoints a segment_idx ;;
      write_agents rest segment_idx map_filename map_width map_height
        (written ++ scenario_line (bucket_id a) map_filename map_width
                      map_height (fst sg) (snd sg))
  end.

(** [create_segment_scenario]: the content of the temporary scenario
    file whose name the function returns. *)
Definition create_segment_scenario (agents : list agent) (segment_idx : Z)
    (map_filename : string) (map_width map_height : Z) : res string :=
  write_agents agents segment_idx map_filename map_width map_height header.


(* ---------------------------------------------------------------- *)
(** *** The process environment and the effect monad *)

(** How [subprocess.run] ended. *)
Inductive process : Type :=
| Completed (returncode : Z) (stdout stderr : string)
| TimeoutExpired.

(** One run of the solver as [run_lacam_segment] sees it: how the call
    ended, the seconds it took, and the content of the output file
    afterwards ([None] when the file cannot be opened). *)
Record solver_run : Type := {
  proc : process;
  elapsed : Q;
  artifact : option string
}.

(** The command line of one solver run; [c_scen] is the content of the
    scenario file whose path is passed as [--scen]. *)
Record solver_cmd : Type := {
  c_exe : string;
  c_map : string;
  c_scen : string;
  c_num : Z;
  c_seed : Z;
  c_time_limit : Z
}.

(** Everything outside the program: the solver (its n-th run in this
    process, on the given command), the name of the map file
    ([pathlib.Path(args.map).name]) and what [get_map_dimensions] reads
    from it. *)
Record environment : Type := {
  solver : nat -> solver_cmd -> solver_run;
  map_filename : string;
  map_dimensions : Z * Z
}.

(** The parsed command line. *)
Record arguments : Type := {
  a_exe : string;
  a_map : string;
  a_scen : string;
  a_num : option Z;
  a_multi_scale : bool;
  a_seed : Z;
  a_timeout : Z;
  a_out : string
}.

Record segment_result : Type := {
  segment_id : Z;
  cost : Z;
  makespan : Z;
  runtime_ms : Q;
  solved : bool
}.

(** The summary dictionary returned by [run_experiment] (time stamps and
    the floating-point ratios of [performance_metrics] are left out). *)
Record summary : Type := {
  num_agents : Z;
  max_waypoints : Z;
  total_segments : Z;
  per_segment_timeout : Z;
  total_cost : Z;
  total_runtime_ms : Q;
  max_makespan : Z;
  num_segments : Z;
  all_segments_solved : bool;
  segment_results : list segment_result
}.

(** Lines printed on the console. *)
Inductive message : Type :=
| Text (s : string)
| StartingExperiment (agent_count : Z)
| FoundAgents (n max_wp total_timeout per_segment segments : Z)
| SegmentBanner (segment_idx : Z)
| SolverFailed (returncode : Z) (stdout stderr : string) (cmd : solver_cmd)
| SolverTimedOut (timeout : Z)
| SegmentFailed (segment_idx : Z)
| SavedPlan (segment_idx : Z)
| SegmentLine (segment_idx : Z) (runtime : Q) (c : Z)
| ExecutionError (e : exn)
| GlobalSummary (total_runtime : Q) (c : Z)
| SummarySaved (name : string)
| CompletedExperiment (agent_count : Z) (s : summary)
| SweepTable (rows : list (Z * summary)).

Inductive payload : Type :=
| ExperimentSummary (s : summary)
| SweepSummary (rows : list (Z * summary)).

(** What the program does to the outside world. *)
Inductive event : Type :=
| Console (m : message)
| TempFile                          (* a NamedTemporaryFile, registered in temp_files *)
| RunSolver (c : solver_cmd) (limit : Z)
| CopyPlan (out_dir : string) (segment_idx : Z)
| Cleanup                           (* cleanup_temp_files() *)
| WriteFile (dir name : string) (p : payload).

(** How a piece of the program ends: it returns, [sys.exit(code)] is
    under way, or an exception is. *)
Inductive outcome (A : Type) : Type :=
| Return (a : A)
| Exit (code : Z)
| Uncaught (e : exn).
Arguments Return {A} a.
Arguments Exit {A} code.
Arguments Uncaught {A} e.

(** A computation takes the number of solver runs made so far and gives
    its outcome, the events it caused, and the new number of runs. *)
Definition M (A : Type) : Type := nat -> outcome A * list event * nat.

Definition ret {A} (a : A) : M A := fun n => (Return a, [], n).

Definition bindM {A B} (m : M A) (k : A -> M B) : M B := fun n =>
  match m n with
  | (Return a, ev, n') =>
      match k a n' with
      | (o, ev', n'') => (o, (ev ++ ev')%list, n'')
      end
  | (Exit c, ev, n') => (Exit c, ev, n')
  | (Uncaught e, ev, n') => (Uncaught e, ev, n')
  end.

Definition emit (e : event) : M unit := fun n => (Return tt, [e], n).
Definition sys_exit {A} (code : Z) : M A := fun n => (Exit code, [], n).
Definition lift {A} (r : res A) : M A := fun n =>
  match r with
  | Ok a => (Return a, [], n)
  | Raise e => (Uncaught e, [], n)
  end.

(** [subprocess.run(cmd, capture_output=True, text=True, timeout=limit)] *)
Definition subprocess_run (env : environment) (cmd : solver_cmd) (limit : Z)
    : M solver_run :=
  fun n => (Return (solver env n cmd), [RunSolver cmd limit], S n).

(** [for x in xs: acc = body(acc, x)] *)
Fixpoint for_each {A S : Type} (xs : list A) (body : S -> A -> M S) (acc : S)
    : M S :=
  match xs with
  | [] => ret acc
  | x :: rest => bindM (body acc x) (for_each rest body)
  end.


Local Notation "x <~ c1 ;; c2" := (bindM c1 (fun x => c2))
  (at level 61, c1 at next level, right associativity).
Local Notation "c1 ;;; c2" := (bindM c1 (fun _ => c2))
  (at level 61, right associativity).

(* ---------------------------------------------------------------- *)
(** *** run_lacam_segment *)

(** [int(line.split('=')[1].strip())] *)
Definition value_after_equals (line : string) : res Z :=
  p <- getitem (split "=" line) 1 ;; int (strip p).

(** The scan [for line in f: if line.startswith('soc='): ...; break]. *)
Fixpoint scan_cost (lines : list string) : res Z :=
  match lines with
  | [] => Ok 0
  | line :: rest =>
      if startswith line "soc=" then value_after_equals line
      else scan_cost rest
  end.

(** [cost = 0], then the scan inside [try: ... except: pass]. *)
Definition read_cost (art : option string) : Z :=
  match art with
  | None => 0
  | Some content =>
      match scan_cost (readlines content) with
      | Ok c => c
      | Raise _ => 0
      end
  end.

(** The third component of the result is the name of the output file; it
    is represented by what the file holds. *)
Definition run_lacam_segment (env : environment) (exe map_path scen : string)
    (n_agents seed timeout : Z) : M (option Z * Q * option (option string)) :=
  emit TempFile ;;;
  let cmd := {| c_exe := exe; c_map := map_path; c_scen := scen;
                c_num := n_agents; c_seed := seed; c_time_limit := timeout |} in
  r <~ subprocess_run env cmd (timeout + 10) ;;
  match proc r with
  | Completed returncode out err =>
      if negb (returncode =? 0) then
        emit (Console (SolverFailed returncode out err cmd)) ;;;
        ret (None, elapsed r, None)
      else ret (Some (read_cost (artifact r)), elapsed r, Some (artifact r))
  | TimeoutExpired =>
      emit (Console (SolverTimedOut timeout)) ;;;
      ret (None, inject_Z timeout, None)
  end.

(* ---------------------------------------------------------------- *)
(** *** run_experiment *)

(** [max(len(agent['waypoints']) for agent in agents) + 1] *)
Definition count_segments (agents : list agent) : res Z :=
  m <- Py.max (List.map (fun a => Z.of_nat (List.length (waypoints a))) agents) ;;
  Ok (m + 1).

(** [args.timeout // num_segments], raised to 1 when below. *)
Definition segment_timeout (total_timeout n_segments : Z) : res Z :=
  q <- floordiv total_timeout n_segments ;;
  Ok (if q <? 1 then 1 else q).

(** The scan of the saved plan for [makespan=] and [solved=]; an
    exception ends it and keeps what was read before. *)
Fixpoint scan_metrics (lines : list string) (mk : Z) (sv : bool) : Z * bool :=
  match lines with
  | [] => (mk, sv)
  | line :: rest =>
      if startswith line "makespan=" then
        match value_after_equals line with
        | Ok v => scan_metrics rest v sv
        | Raise _ => (mk, sv)
        end
      else if startswith line "solved=" then
        match value_after_equals line with
        | Ok v => scan_metrics rest mk (v =? 1)
        | Raise _ => (mk, sv)
        end
      else scan_metrics rest mk sv
  end.

(** The running totals of the segment loop. *)
Record totals : Type := {
  t_runtime : Q;
  t_cost : Z;
  t_results : list segment_result
}.

(** The body of [for segment_idx in range(num_segments)].  File operations
    are taken to succeed, the solver executable to start, and the output
    directory to hold no plan of an earlier run. *)
Definition run_segment (env : environment) (agents : list agent)
    (args : arguments) (out_dir : string) (seg_timeout : Z)
    (acc : totals) (segment_idx : Z) : M totals :=
  emit (Console (SegmentBanner segment_idx)) ;;;
  emit TempFile ;;;
  temp_scen <~ lift (create_segment_scenario agents segment_idx
                       (map_filename env) (fst (map_dimensions env))
                       (snd (map_dimensions env))) ;;
  r <~ run_lacam_segment env (a_exe args) (a_map args) temp_scen
         (Z.of_nat (List.length agents)) (a_seed args) seg_timeout ;;
  match r with
  | (None, _, _) =>
      emit (Console (SegmentFailed segment_idx)) ;;;
      emit Cleanup ;;;
      sys_exit 1
  | (Some c, runtime, plan_file) =>
      segment_out <~ match plan_file with
                     | Some (Some content) =>
                         emit (CopyPlan out_dir segment_idx) ;;;
                         emit (Console (SavedPlan segment_idx)) ;;;
                         ret (Some content)
                     | _ => ret None
                     end ;;
      let ms := match segment_out with
                | Some content => scan_metrics (readlines content) 0 false
                | None => (0, false)
                end in
      emit (Console (SegmentLine segment_idx runtime c)) ;;;
      ret {| t_runtime := (t_runtime acc + runtime)%Q;
             t_cost := t_cost acc + c;
             t_results := (t_results acc ++
               [{| segment_id := segment_idx; cost := c; makespan := fst ms;
                   runtime_ms := (runtime * 1000)%Q; solved := snd ms |}])%list |}
  end.

(** [try: ... except Exception: ...; sys.exit(1) finally: cleanup]:
    [sys.exit] is not an [Exception], so it passes through the handler;
    the [finally] clause runs on every way out. *)
Definition guarded {A} (body : M A) : M A := fun n =>
  match body n with
  | (Return a, ev, n') => (Return a, (ev ++ [Cleanup])%list, n')
  | (Exit c, ev, n') => (Exit c, (ev ++ [Cleanup])%list, n')
  | (Uncaught e, ev, n') =>
      (Exit 1, (ev ++ [Console (ExecutionError e); Cleanup; Cleanup])%list, n')
  end.

Definition summarize (agents : list agent) (args : arguments)
    (max_wp n_segments seg_timeout : Z) (t : totals) : summary :=
  {| num_agents := Z.of_nat (List.length agents);
     max_waypoints := max_wp;
     total_segments := n_segments;
     per_segment_timeout := seg_timeout;
     total_cost := t_cost t;
     total_runtime_ms := (t_runtime t * 1000)%Q;
     max_makespan := match List.map makespan (t_results t) with
                     | [] => 0
                     | m :: ms => fold_left Z.max ms m
                     end;
     num_segments := Z.of_nat (List.length (t_results t));
     all_segments_solved := forallb solved (t_results t);
     segment_results := t_results t |}.

Definition run_experiment (env : environment) (agents : list agent)
    (args : arguments) (out_dir : string) : M summary :=
  n_segments <~ lift (count_segments agents) ;;
  let max_wp := n_segments - 1 in
  seg_timeout <~ lift (segment_timeout (a_timeout args) n_segments) ;;
  emit (Console (FoundAgents (Z.of_nat (List.length agents)) max_wp
                 (a_timeout args) seg_timeout n_segments)) ;;;
  t <~ guarded (for_each (range n_segments)
                  (run_segment env agents args out_dir seg_timeout)
                  {| t_runtime := 0%Q; t_cost := 0; t_results := [] |}) ;;
  emit (Console (GlobalSummary (t_runtime t) (t_cost t))) ;;;
  let s := summarize agents args max_wp n_segments seg_timeout t in
  emit (WriteFile out_dir "waypoint_summary.json" (ExperimentSummary s)) ;;;
  emit (Console (SummarySaved "waypoint_summary.json")) ;;;
  emit (WriteFile out_dir "waypoint_summary.txt" (ExperimentSummary s)) ;;;
  emit (Console (SummarySaved "waypoint_summary.txt")) ;;;
  ret s.

(* ---------------------------------------------------------------- *)
(** *** main: the loop over agent counts *)

Definition agent_counts (args : arguments) (agents : list agent) : list Z :=
  if a_multi_scale args then [100; 200; 300; 400; 500]
  else [match a_num args with
        | Some n => n
        | None => Z.of_nat (List.length agents)
        end].

(** [agents[:agent_count]] *)
Definition current_agents (agents : list agent) (agent_count : Z) : list agent :=
  slice_to agents agent_count.

Definition current_out_dir (args : arguments) (agent_count : Z) : string :=
  if a_multi_scale args
  then a_out args ++ "/exp_" ++ str agent_count ++ "_agents"
  else a_out args.

(** The body of [for agent_count in agent_counts]. *)
Definition run_scale_point (env : environment) (agents : list agent)
    (args : arguments) (all_results : list (Z * summary)) (agent_count : Z)
    : M (list (Z * summary)) :=
  emit (Console (StartingExperiment agent_count)) ;;;
  result <~ run_experiment env (current_agents agents agent_count) args
              (current_out_dir args agent_count) ;;
  emit (Console (CompletedExperiment agent_count result)) ;;;
  ret (all_results ++ [(agent_count, result)])%list.

Definition generate_multi_scale_summary (all_results : list (Z * summary))
    (out_dir : string) : M unit :=
  emit (WriteFile out_dir "multi_scale_summary.json" (SweepSummary all_results)) ;;;
  emit (Console (SummarySaved "multi_scale_summary.json")) ;;;
  emit (WriteFile out_dir "multi_scale_summary.txt" (SweepSummary all_results)) ;;;
  emit (Console (SummarySaved "multi_scale_summary.txt")).

(** [main] from the loop over agent counts on. *)
Definition sweep (env : environment) (agents : list agent) (args : arguments)
    : M unit :=
  all_results <~ for_each (Lacam.agent_counts args agents)
                   (run_scale_point env agents args) [] ;;
  (if a_multi_scale args then
     generate_multi_scale_summary all_results (a_out args) ;;;
     emit (Console (SweepTable all_results))
   else ret tt) ;;;
  emit Cleanup.

(** [main]: the scenario is parsed, then the sweep runs.  [None] when the
    parser is still running after [fuel] passes of its loop. *)
Definition main (fuel : nat) (env : environment) (args : arguments)
    (scen_content : string) : option (M unit) :=
  match parse_waypoint_scenario fuel scen_content with
  | None => None
  | Some (Raise e, out) =>
      Some (for_each out (fun _ l => emit (Console (Text l))) tt ;;;
            emit (Console (Text "Error parsing scenario file")) ;;;
            sys_exit 1)
  | Some (Ok agents, out) =>
      Some (for_each out (fun _ l => emit (Console (Text l))) tt ;;;
            match agents with
            | [] => emit (Console (Text "Error: No agents found in scenario file")) ;;;
                    sys_exit 1
            | _ :: _ => sweep env agents args
            end)
  end.

End Lacam.

(* ================================================================== *)
(** ** comprehensive_test.py: the matrix of experiments and its report *)
(* ================================================================== *)

Module Comprehensive.
Import Py.

Record map_config : Type := { scen_dir : string; map_file : string }.
Record wp_config : Type := { wp_waypoints : Z; wp_suffix : string }.

Definition agent_counts : list Z := [100; 200; 300; 400; 500].

Definition waypoint_configs : list wp_config :=
  [ {| wp_waypoints := 2; wp_suffix := "1" |};
    {| wp_waypoints := 4; wp_suffix := "2" |};
    {| wp_waypoints := 8; wp_suffix := "3" |} ].

Definition maps : list map_config :=
  [ {| scen_dir := "ost003d"; map_file := "ost003d" |};
    {| scen_dir := "maze-128-128-10"; map_file := "maze-128-128-10" |};
    {| scen_dir := "warehouse-20-40-10"; map_file := "warehouse-20-40-10-2-1" |} ].

(** The dictionary returned by [run_single_experiment]; an absent key is
    [None].  [r_data] is what [json.load] returned for the summary file. *)
Record cell_result : Type := {
  r_map : string;
  r_waypoints : Z;
  r_agent_count : Z;
  r_status : string;
  r_wall_time : Q;
  r_data : option json;
  r_error : option string;
  r_stdout : option string
}.

(** How the [try] block of [run_single_experiment] went: the child
    process ended (with what [json.load] returned for the summary file it
    left, if there is one), the five minutes ran out, or another exception
    [e] was raised, as by a summary file that cannot be read or is no
    JSON ([msg] is [str(e)]). *)
Inductive attempt : Type :=
| Ended (returncode : Z) (stdout stderr : string)
    (summary_file : option json) (wall : Q)
| TimedOut
| Excepted (msg : string) (wall : Q).

Definition run_single_experiment (m : map_config) (w : wp_config)
    (agent_count : Z) (t : attempt) : cell_result :=
  let cell status wall data error out :=
    {| r_map := map_file m; r_waypoints := wp_waypoints w;
       r_agent_count := agent_count; r_status := status;
       r_wall_time := wall; r_data := data; r_error := error;
       r_stdout := out |} in
  match t with
  | Ended returncode out err summary_file wall =>
      if returncode =? 0 then
        match summary_file with
        | Some d => cell "success" wall (Some d) None None
        | None => cell "no_summary" wall None (Some "Summary file not found") None
        end
      else cell "failed" wall None (Some err) (Some out)
  | TimedOut =>
      cell "timeout" 300%Q None (Some "Experiment timed out after 5 minutes") None
  | Excepted msg wall => cell "error" wall None (Some msg) None
  end.

(** Lines printed on the console while the matrix runs. *)
Inductive console_line : Type :=
| Running (map_name : string) (waypoints agent_count : Z)
| CellSucceeded (c : number) (runtime : number)
| CellFailed (status : string)
| ErrorText (first_100 : string)
| StdoutText (first_100 : string).

(** [result.get(key)] used as a condition: the key is there and its text
    is not empty. *)
Definition truthy (v : option string) : option string :=
  match v with
  | Some t => if String.eqb t EmptyString then None else Some t
  | None => None
  end.

(** [result['data']] *)
Definition result_data (r : cell_result) : res json :=
  match r_data r with
  | Some d => Ok d
  | None => Raise KeyError
  end.

(** [data[group][key]] *)
Definition entry (data : json) (group key : string) : res json :=
  g <- subscript data group ;; subscript g key.

(** The block that prints the immediate result of a cell.  For a
    successful cell the cost and the runtime are looked up in the loaded
    summary and then formatted, in this order; none of this is inside a
    [try]. *)
Definition immediate_result (r : cell_result) : res (list console_line) :=
  if String.eqb (r_status r) "success" then
    data <- result_data r ;;
    c <- entry data "global_results" "total_cost" ;;
    runtime <- entry data "global_results" "total_runtime_ms" ;;
    c_n <- number_of c ;;
    runtime_n <- number_of runtime ;;
    Ok [CellSucceeded c_n runtime_n]
  else
    Ok ([CellFailed (r_status r)]
        ++ match truthy (r_error r) with
           | Some e => [ErrorText (str_slice_to e 100)]
           | None => []
           end
        ++ match truthy (r_stdout r) with
           | Some o => [StdoutText (str_slice_to o 100)]
           | None => []
           end)%list.

(** The three nested loops of [run_all_experiments]; [world k] is how the
    k-th experiment goes.  The result is [self.all_results] with the lines
    printed, and the exception that ended the loops, if one did: the
    record of a cell is appended before its immediate result is printed. *)
Fixpoint run_cells (cells : list (map_config * wp_config * Z))
    (world : nat -> attempt) (k : nat)
    : list cell_result * list console_line * option exn :=
  match cells with
  | [] => ([], [], None)
  | (m, w, n) :: rest =>
      let result := run_single_experiment m w n (world k) in
      match immediate_result result with
      | Raise e => ([result], [Running (map_file m) (wp_waypoints w) n], Some e)
      | Ok shown =>
          let later := run_cells rest world (S k) in
          (result :: fst (fst later),
           (Running (map_file m) (wp_waypoints w) n :: shown
            ++ snd (fst later))%list,
           snd later)
      end
  end.

Definition all_cells : list (map_config * wp_config * Z) :=
  flat_map (fun m =>
    flat_map (fun w => List.map (fun n => (m, w, n)) agent_counts)
      waypoint_configs) maps.

Definition run_all_experiments (world : nat -> attempt)
    : list cell_result * list console_line * option exn :=
  run_cells all_cells world 0.

Section Report.

(** Python's number formats [':.0f'], [':.1f'] and [':,'] (the last on an
    [int] and on a [float]), which the rows of successful cells use. *)
Variable fmt_f0 fmt_f1 : Q -> string.
Variable fmt_thousands : Z -> string.
Variable fmt_thousands_float : Q -> string.

(** [f"{cost:,}"] *)
Definition thousands (n : number) : string :=
  match n with
  | NInt z => fmt_thousands z
  | NFloat q => fmt_thousands_float q
  end.

(** One row of the table under RESULTS SUMMARY.  For a successful cell
    the runtime is looked up and formatted, the cost and the cost per
    agent are looked up, the latter is formatted, then the cost, in this
    order; none of this is inside a [try]. *)
Definition table_row (r : cell_result) : res string :=
  let map_name := str_slice_to (r_map r) 19 in
  let status := str_slice_to (r_status r) 9 in
  cells <- (if String.eqb (r_status r) "success" then
              data <- result_data r ;;
              runtime <- entry data "global_results" "total_runtime_ms" ;;
              runtime_n <- number_of runtime ;;
              c <- entry data "global_results" "total_cost" ;;
              per_agent <- entry data "performance_metrics" "avg_cost_per_agent" ;;
              per_agent_n <- number_of per_agent ;;
              c_n <- number_of c ;;
              Ok (fmt_f0 (as_float runtime_n) ++ "ms", thousands c_n,
                  fmt_f1 (as_float per_agent_n))
            else Ok ("N/A", "N/A", "N/A")) ;;
  let '(runtime, cost_str, cost_per_agent) := cells in
  Ok (ljust 20 map_name ++ " " ++ ljust 3 (str (r_waypoints r)) ++ " "
      ++ ljust 7 (str (r_agent_count r)) ++ " " ++ ljust 10 status ++ " "
      ++ ljust 10 runtime ++ " " ++ ljust 12 cost_str ++ " "
      ++ ljust 12 cost_per_agent ++ String LF EmptyString).

(** The loop [for result in self.all_results] that writes the rows: the
    rows written, and the exception that ended the loop, if one did. *)
Fixpoint table_rows (results : list cell_result) : list string * option exn :=
  match results with
  | [] => ([], None)
  | r :: rest =>
      match table_row r with
      | Raise e => ([], Some e)
      | Ok row => (row :: fst (table_rows rest), snd (table_rows rest))
      end
  end.

(** The two files of [generate_comprehensive_report]: the raw results
    dumped to comprehensive_report.json, and the rows of the table of
    comprehensive_summary.txt (its headings are left out, and so are the
    per-map averages, which read entries the rows have formatted
    before). *)
Record report : Type := {
  report_json : list cell_result;
  summary_rows : list string
}.

(** [generate_comprehensive_report]: what is in the two files when the
    function ends, and the exception that ended it, if one did.  The raw
    results are dumped first; the success rate divides by the number of
    results before the first row is written. *)
Definition generate_comprehensive_report (all_results : list cell_result)
    : report * option exn :=
  if (List.length all_results =? 0)%nat
  then ({| report_json := all_results; summary_rows := [] |},
        Some ZeroDivisionError)
  else ({| report_json := all_results;
           summary_rows := fst (table_rows all_results) |},
        snd (table_rows all_results)).

End Report.

End Comprehensive.

(* ================================================================== *)
(** ** lacam.py: the map file and the temporary files *)
(* ================================================================== *)

Module LacamFiles.
Import Py Lacam.

(** [s.split()]: the words of [s] between runs of white space. *)
Fixpoint split_ws (s : string) : list string :=
  match s with
  | EmptyString => []
  | String c r =>
      if is_space c then split_ws r
      else match r with
           | EmptyString => [String c EmptyString]
           | String c' _ =>
               if is_space c' then String c EmptyString :: split_ws r
               else match split_ws r with
                    | w :: ws => String c w :: ws
                    | [] => [String c EmptyString]
                    end
           end
  end.

(** [int(line.split()[1])] *)
Definition second_word (line : string) : res Z :=
  w <- getitem (split_ws line) 1 ;; int w.

(** The loop [for line in lines] of [get_map_dimensions], from the values
    of [height] and [width] so far. *)
Fixpoint scan_dimensions (lines : list string) (height width : option Z)
    : res (option Z * option Z) :=
  match lines with
  | [] => Ok (height, width)
  | raw :: rest =>
      let line := strip raw in
      if startswith line "height" then
        h <- second_word line ;; scan_dimensions rest (Some h) width
      else if startswith line "width" then
        w <- second_word line ;; scan_dimensions rest height (Some w)
      else scan_dimensions rest height width
  end.

(** What made [get_map_dimensions] fall back: the file could not be
    opened, or an exception was raised while its lines were read. *)
Inductive read_failure : Type :=
| CannotOpen
| Raised (e : exn).

(** The line [get_map_dimensions] prints when it falls back. *)
Inductive map_message : Type :=
| CouldNotParse
| ErrorReading (f : read_failure).

(** [get_map_dimensions], on the content of the map file ([None] when the
    file cannot be opened): the pair returned and the lines printed. *)
Definition get_map_dimensions (content : option string)
    : (Z * Z) * list map_message :=
  match content with
  | None => ((128, 128), [ErrorReading CannotOpen])
  | Some text =>
      match scan_dimensions (readlines text) None None with
      | Ok (Some height, Some width) => ((width, height), [])
      | Ok _ => ((128, 128), [CouldNotParse])
      | Raise e => ((128, 128), [ErrorReading (Raised e)])
      end
  end.

(** [cleanup_temp_files]: [present] tells which files exist, [protected]
    which of them [os.unlink] fails on; the result tells which files exist
    afterwards.  An exception of [os.unlink] is swallowed by the bare
    [except]. *)
Fixpoint cleanup_temp_files (temp_files : list string)
    (present protected : string -> bool) : string -> bool :=
  match temp_files with
  | [] => present
  | f :: rest =>
      cleanup_temp_files rest
        (if present f && negb (protected f)
         then fun p => if String.eqb p f then false else present p
         else present)
        protected
  end.

End LacamFiles.

(* ================================================================== *)
(** ** comprehensive_test.py: prerequisites and the run as a whole *)
(* ================================================================== *)

Module ComprehensiveRun.
Import Py Comprehensive.

(** A path below [base_dir], by the parts joined with [/]. *)
Definition path : Type := list string.

Definition maps_dir : path := ["scripts"; "map"].
Definition scenarios_dir : path := ["scripts"; "scen"].
Definition lacam_script : path := ["lacam.py"].
Definition exe_path : path := ["build"; "main"].

Definition map_path (m : map_config) : path :=
  (maps_dir ++ [(map_file m ++ ".map")%string])%list.

Definition scenario_dir_path (m : map_config) : path :=
  (scenarios_dir ++ [scen_dir m])%list.

Definition scenario_path (m : map_config) (w : wp_config) : path :=
  (scenario_dir_path m
   ++ [(map_file m ++ "-random-" ++ wp_suffix w ++ ".scen")%string])%list.

(** [if not p.exists(): missing_files.append(str(p))] *)
Definition unless_exists (exists_ : path -> bool) (p : path) : list path :=
  if exists_ p then [] else [p].

(** The list [missing_files] built by [check_prerequisites]; the scenario
    files of a map are looked at only when its scenario directory exists. *)
Definition missing_files (exists_ : path -> bool) : list path :=
  (unless_exists exists_ lacam_script
   ++ unless_exists exists_ exe_path
   ++ flat_map (fun m => unless_exists exists_ (map_path m)) maps
   ++ flat_map (fun m =>
        if negb (exists_ (scenario_dir_path m)) then [scenario_dir_path m]
        else flat_map (fun w => unless_exists exists_ (scenario_path m w))
               waypoint_configs) maps)%list.

(** [check_prerequisites]: its result and the paths it prints. *)
Definition check_prerequisites (exists_ : path -> bool) : bool * list path :=
  match missing_files exists_ with
  | [] => (true, [])
  | p :: ps => (false, p :: ps)
  end.

Section Run.

Variable fmt_f0 fmt_f1 : Q -> string.
Variable fmt_thousands : Z -> string.
Variable fmt_thousands_float : Q -> string.

(** How [run] ends: it returns [False] after listing the missing paths;
    an exception of the matrix or of the report gets out of it, with the
    records collected, the lines printed and what the report files hold
    ([None] when the report was not begun); or it returns [True] after the
    matrix and the report. *)
Inductive run_outcome : Type :=
| Refused (missing : list path)
| Aborted (e : exn) (results : list cell_result)
    (console : list console_line) (rep : option report)
| Finished (results : list cell_result) (console : list console_line)
    (rep : report).

(** [run].  [ensure_directories] is taken to succeed. *)
Definition run (exists_ : path -> bool) (world : nat -> attempt)
    : run_outcome :=
  match check_prerequisites exists_ with
  | (false, missing) => Refused missing
  | (true, _) =>
      match run_all_experiments world with
      | (results, console, Some e) => Aborted e results console None
      | (results, console, None) =>
          match generate_comprehensive_report fmt_f0 fmt_f1 fmt_thousands
                  fmt_thousands_float results with
          | (rep, Some e) => Aborted e results console (Some rep)
          | (rep, None) => Finished results console rep
          end
      end
  end.

(** [main]: the exit status of the process.  [sys.exit(1)] follows a
    [False] of [run]; an exception that gets out of [run] is caught
    nowhere, and the interpreter ends with status 1 as well. *)
Definition main (exists_ : path -> bool) (world : nat -> attempt) : Z :=
  match run exists_ world with
  | Finished _ _ _ => 0
  | Refused _ | Aborted _ _ _ _ => 1
  end.

End Run.

End ComprehensiveRun.


(* ================================================================== *)
(** ** Vocabulary of the properties *)
(* ================================================================== *)

Import Py Lacam Comprehensive.

(** The number of waypoints of an agent: the length of its waypoint list,
    which is the quantity [create_segment_scenario] and [run_experiment]
    look at. *)
Definition waypoint_count (a : agent) : Z :=
  Z.of_nat (List.length (waypoints a)).

(** The three cases of the segment rule, as the specification words them,
    for an agent with [k] waypoints. *)
Definition three_case_rule (a : agent) (segment_index : Z) (sg : pos * pos)
    : Prop :=
  let k := waypoint_count a in
  let s := fst sg in
  let g := snd sg in
  (segment_index = 0 ->
     s = start a /\ g = hd (goal a) (waypoints a)) /\
  (1 <= segment_index <= k ->
     nth_error (waypoints a) (Z.to_nat (segment_index - 1)) = Some s /\
     (segment_index < k ->
        nth_error (waypoints a) (Z.to_nat segment_index) = Some g) /\
     (segment_index = k -> g = goal a)) /\
  (k < segment_index -> s = goal a /\ g = goal a).

(** The lines of a segment scenario for given pairs of endpoints. *)
Fixpoint agent_lines (agents : list agent) (eps : list (pos * pos))
    (map_name : string) (w h : Z) : list string :=
  match agents, eps with
  | a :: agents', sg :: eps' =>
      scenario_line (bucket_id a) map_name w h (fst sg) (snd sg)
        :: agent_lines agents' eps' map_name w h
  | _, _ => []
  end.

(** A line of the form [soc=<int>] as the scan recognises it: it starts
    with [soc=] and the text after that sign (up to a further one) reads as
    the integer [c]. *)
Definition soc_line (line : string) (c : Z) : Prop :=
  startswith line "soc=" = true /\ value_after_equals line = Ok c.

(** The events of one kind in a log. *)
Definition project {A : Type} (f : event -> option A) (ev : list event) : list A :=
  flat_map (fun e => match f e with Some a => [a] | None => [] end) ev.

(** The solver commands run, the report files written, and the scale
    points started, in order. *)
Definition solver_cmds : list event -> list solver_cmd :=
  project (fun e => match e with RunSolver c _ => Some c | _ => None end).

Definition written : list event -> list (string * string) :=
  project (fun e => match e with WriteFile d name _ => Some (d, name) | _ => None end).

Definition experiments_started : list event -> list Z :=
  project (fun e => match e with
                    | Console (StartingExperiment c) => Some c
                    | _ => None
                    end).

(** Whether a solver run makes [run_lacam_segment] return a cost. *)
Definition returns_cost (r : solver_run) : bool :=
  match proc r with
  | Completed returncode _ _ => returncode =? 0
  | TimeoutExpired => false
  end.

(** The scenario of segment [i] and the command that runs it. *)
Definition scenario_text (env : environment) (agents : list agent) (i : Z) : string :=
  match create_segment_scenario agents i (map_filename env)
          (fst (map_dimensions env)) (snd (map_dimensions env)) with
  | Ok text => text
  | Raise _ => EmptyString
  end.

Definition segment_cmd (env : environment) (agents : list agent)
    (args : arguments) (seg_timeout : Z) (i : nat) : solver_cmd :=
  {| c_exe := a_exe args; c_map := a_map args;
     c_scen := scenario_text env agents (Z.of_nat i);
     c_num := Z.of_nat (List.length agents); c_seed := a_seed args;
     c_time_limit := seg_timeout |}.

(** The files one experiment may write. *)
Definition is_summary_file (f : string * string) : Prop :=
  snd f = "waypoint_summary.json" \/ snd f = "waypoint_summary.txt".

(** The reading of the sweep under which scale points are isolated from
    one another: every requested agent count has its experiment started. *)
Definition every_count_is_run (env : environment) (agents : list agent)
    (args : arguments) (n0 : nat) : Prop :=
  forall c, In c (Lacam.agent_counts args agents) ->
            In c (experiments_started (snd (fst (sweep env agents args n0)))).

(** The row of a cell that did not succeed: the map name and the status cut
    to 19 and 9 characters, and N/A in the three metric columns. *)
Definition failed_row (r : cell_result) : string :=
  ljust 20 (str_slice_to (r_map r) 19) ++ " " ++ ljust 3 (str (r_waypoints r))
  ++ " " ++ ljust 7 (str (r_agent_count r)) ++ " "
  ++ ljust 10 (str_slice_to (r_status r) 9) ++ " " ++ ljust 10 "N/A" ++ " "
  ++ ljust 12 "N/A" ++ " " ++ ljust 12 "N/A" ++ String LF EmptyString.

(** A text of a record as the console shows it: nothing for an empty text,
    otherwise its first 100 characters. *)
Definition shown_text (line : string -> console_line) (text : string)
    : list console_line :=
  if String.eqb text EmptyString then [] else [line (str_slice_to text 100)].

(** A looked-up value that a numeric format accepts. *)
Definition numeric (v : res json) : bool :=
  match v with
  | Ok (JInteger _) | Ok (JFloat _) | Ok (JBool _) => true
  | _ => false
  end.

(** A summary in which the matrix runner finds what it reads: numbers for
    the total cost and the total runtime under [global_results] and for the
    cost per agent under [performance_metrics]. *)
Definition summary_readable (d : json) : bool :=
  numeric (entry d "global_results" "total_cost")
  && numeric (entry d "global_results" "total_runtime_ms")
  && numeric (entry d "performance_metrics" "avg_cost_per_agent").

(** An experiment whose child process, when it exits with 0 and leaves a
    summary, leaves a readable one. *)
Definition readable (t : attempt) : bool :=
  match t with
  | Ended returncode _ _ (Some d) _ =>
      negb (returncode =? 0) || summary_readable d
  | _ => true
  end.

(** The record of the [k]-th cell of the matrix. *)
Definition record_at (world : nat -> attempt) (k : nat) : option cell_result :=
  match nth_error all_cells k with
  | Some (m, w, n) => Some (run_single_experiment m w n (world k))
  | None => None
  end.

(** [needle in hay] *)
Fixpoint occurs (needle hay : string) : bool :=
  String.prefix needle hay
  || match hay with
     | EmptyString => false
     | String _ rest => occurs needle rest
     end.

(** Every character of [s] satisfies [p]. *)
Fixpoint all_chars (p : ascii -> bool) (s : string) : bool :=
  match s with
  | EmptyString => true
  | String c r => p c && all_chars p r
  end.

Definition not_char (x c : ascii) : bool := negb (Ascii.eqb c x).

(** Neither a tab nor a line break. *)
Definition plain (c : ascii) : bool :=
  not_char TAB c && not_char LF c && not_char CR c.

(** A character of a printed integer. *)
Definition numeral (c : ascii) : bool := is_digit c || Ascii.eqb c "-".

(** A name that fits in one field of a scenario line. *)
Definition single_field (s : string) : Prop := all_chars plain s = true.

(** The fields of the line written for one agent, and the line without
    its line break. *)
Definition line_fields (bucket : Z) (map_name : string) (w h : Z) (s g : pos)
    : list string :=
  [str bucket; map_name; str w; str h; str (fst s); str (snd s);
   str (fst g); str (snd g);
   str (Z.abs (fst s - fst g) + Z.abs (snd s - snd g))].

Definition line_body (bucket : Z) (map_name : string) (w h : Z) (s g : pos)
    : string :=
  str bucket ++ tab ++ map_name ++ tab ++ str w ++ tab ++ str h ++ tab
  ++ str (fst s) ++ tab ++ str (snd s) ++ tab ++ str (fst g) ++ tab
  ++ str (snd g) ++ tab ++ str (Z.abs (fst s - fst g) + Z.abs (snd s - snd g)).

(* ================================================================== *)
(** ** Sample inputs *)
(* ================================================================== *)

(** Two agents: the first with one waypoint, the second with none. *)
Definition agent_A : agent := mkAgent (1, 2) (3, 4) [(5, 6)] 1 0.
Definition agent_B : agent := mkAgent (7, 7) (9, 9) [] 0 1.

(** A scenario file whose first agent line declares one waypoint and
    supplies none, followed by a well-formed line. *)
Definition short_waypoint_line : string :=
  "0" ++ tab ++ "m.map" ++ tab ++ "8" ++ tab ++ "8" ++ tab ++ "1" ++ tab ++ "2"
  ++ tab ++ "3" ++ tab ++ "4" ++ tab ++ "4" ++ tab ++ "1" ++ nl.

Definition short_waypoint_file : string :=
  header ++ short_waypoint_line
  ++ "1" ++ tab ++ "m.map" ++ tab ++ "8" ++ tab ++ "8" ++ tab ++ "5" ++ tab ++ "5"
  ++ tab ++ "6" ++ tab ++ "6" ++ tab ++ "2" ++ tab ++ "0" ++ nl.

(** A solver that fails with code 1 on its first run, times out on its
    second, and afterwards exits with 0 leaving a plan without cost line. *)
Definition moody_solver (n : nat) (_ : solver_cmd) : solver_run :=
  match n with
  | O => {| proc := Completed 1 "out" "err"; elapsed := 2; artifact := None |}
  | S O => {| proc := TimeoutExpired; elapsed := 40; artifact := None |}
  | _ => {| proc := Completed 0 EmptyString EmptyString; elapsed := 3;
            artifact := Some ("makespan=3" ++ nl) |}
  end.

Definition moody_env : environment :=
  {| solver := moody_solver; map_filename := "m.map"; map_dimensions := (8, 8) |}.

(** The command line of a single experiment, and its multi-scale variant. *)
Definition single_args : arguments :=
  {| a_exe := "lacam"; a_map := "m.map"; a_scen := "s.scen"; a_num := None;
     a_multi_scale := false; a_seed := 42; a_timeout := 100; a_out := "out" |}.

Definition multi_args : arguments :=
  {| a_exe := "lacam"; a_map := "m.map"; a_scen := "s.scen"; a_num := None;
     a_multi_scale := true; a_seed := 42; a_timeout := 100; a_out := "out" |}.

(** A matrix in which every child process exits with code 1. *)
Definition failing_world (_ : nat) : attempt := Ended 1 "stdout text" "stderr text" None 2.

Definition no_format_q (_ : Q) : string := EmptyString.
Definition no_format_z (_ : Z) : string := EmptyString.

(** A summary as [run_experiment] writes it, cut down to what the matrix
    runner reads, and a summary that is an empty dictionary. *)
Definition good_summary : json :=
  JObject [("global_results",
            JObject [("total_cost", JInteger 1234);
                     ("total_runtime_ms", JFloat 56)]);
           ("performance_metrics",
            JObject [("avg_cost_per_agent", JFloat 12)])].

Definition bare_summary : json := JObject [].

(** A matrix whose first five children exit with code 1, run out of time,
    exit with 0 without a summary, cannot be started, and exit with 0
    leaving a good summary; the others exit with code 1. *)
Definition mixed_world (k : nat) : attempt :=
  match k with
  | 0%nat => Ended 1 "stdout text" "stderr text" None 2
  | 1%nat => TimedOut
  | 2%nat => Ended 0 EmptyString EmptyString None 1
  | 3%nat => Excepted "cannot start" 1
  | 4%nat => Ended 0 EmptyString EmptyString (Some good_summary) 5
  | _ => Ended 1 "stdout text" "stderr text" None 2
  end.

(** A matrix whose second child exits with 0 and leaves an empty
    dictionary as its summary; the others exit with code 1. *)
Definition keyless_world (k : nat) : attempt :=
  match k with
  | 1%nat => Ended 0 EmptyString EmptyString (Some bare_summary) 1
  | _ => Ended 1 "stdout text" "stderr text" None 2
  end.

(** The first cell of the matrix, and the row the table shows for it when
    its child process exits with 0 and leaves no summary. *)
Definition first_cell : attempt -> cell_result :=
  run_single_experiment {| scen_dir := "ost003d"; map_file := "ost003d" |}
    {| wp_waypoints := 2; wp_suffix := "1" |} 100.

(** The second cell of the matrix. *)
Definition second_cell : attempt -> cell_result :=
  run_single_experiment {| scen_dir := "ost003d"; map_file := "ost003d" |}
    {| wp_waypoints := 2; wp_suffix := "1" |} 200.

Definition no_summary_row : string :=
  "ost003d              2   100     no_summar  N/A        N/A          N/A         "
  ++ nl.

(** A map file name with a tab in it, and one with a line break. *)
Definition tabbed_map_name : string := "a" ++ tab ++ "b".
Definition broken_map_name : string := "a" ++ nl ++ "b".

(* ================================================================== *)
(** ** Vocabulary of the further properties *)
(* ================================================================== *)

Import LacamFiles ComprehensiveRun.

(** The agents of the lines that [parse_line] turns into an agent, in
    order. *)
Definition agents_of_lines (lines : list string) : list agent :=
  flat_map (fun raw => match parse_line raw with
                       | Ok (Appended a) => [a]
                       | _ => []
                       end) lines.

(** A line the parser passes over or reads an agent from. *)
Definition line_passes (raw : string) : Prop :=
  parse_line raw = Ok Skipped \/ exists a, parse_line raw = Ok (Appended a).

(** The text of an agent line of a waypoint scenario: the ten leading
    fields and two fields per waypoint, joined by tabs.  [name], [w], [h]
    and [opt] stand for the fields the parser does not look at (map name,
    width, height, optimal length). *)
Definition waypoint_fields (wps : list pos) : list string :=
  flat_map (fun p => [str (fst p); str (snd p)]) wps.

Definition agent_fields (name w h opt : string) (a : agent) : list string :=
  ([str (bucket_id a); name; w; h; str (fst (start a)); str (snd (start a));
    str (fst (goal a)); str (snd (goal a)); opt; str (K a)]
   ++ waypoint_fields (waypoints a))%list.

Definition waypoint_line (name w h opt : string) (a : agent) : string :=
  String.concat tab (agent_fields name w h opt a) ++ nl.

Definition waypoint_file (name w h opt : string) (agents : list agent) : string :=
  header ++ String.concat EmptyString (List.map (waypoint_line name w h opt) agents).

(** The way of an agent: its start, its waypoints in order, its goal. *)
Definition route (a : agent) : list pos :=
  (start a :: waypoints a ++ [goal a])%list.

(** The record the segment loop keeps of segment [i] when the solver run
    of the segment is [r]. *)
Definition segment_record (i : nat) (r : solver_run) : segment_result :=
  let ms := match artifact r with
            | Some content => scan_metrics (readlines content) 0 false
            | None => (0, false)
            end in
  {| segment_id := Z.of_nat i; cost := read_cost (artifact r);
     makespan := fst ms; runtime_ms := (elapsed r * 1000)%Q; solved := snd ms |}.

(** The sum of the costs of a list of segment records. *)
Definition sum_costs (rs : list segment_result) : Z :=
  fold_right Z.add 0 (List.map cost rs).

(** The value of a sequence of decimal digits read after [acc]. *)
Fixpoint digits_value (acc : Z) (d : uint) : Z :=
  match d with
  | Nil => acc
  | D0 l => digits_value (10 * acc + 0) l
  | D1 l => digits_value (10 * acc + 1) l
  | D2 l => digits_value (10 * acc + 2) l
  | D3 l => digits_value (10 * acc + 3) l
  | D4 l => digits_value (10 * acc + 4) l
  | D5 l => digits_value (10 * acc + 5) l
  | D6 l => digits_value (10 * acc + 6) l
  | D7 l => digits_value (10 * acc + 7) l
  | D8 l => digits_value (10 * acc + 8) l
  | D9 l => digits_value (10 * acc + 9) l
  end.

(** A text that ends with a character that is no white space. *)
Definition ends_unspaced (s : string) : Prop :=
  exists a c, s = a ++ String c EmptyString /\ is_space c = false.

(** The text of a file with the given lines. *)
Definition text_of_rows (rows : list string) : string :=
  String.concat EmptyString (List.map (fun r => r ++ nl) rows).

(** A line of a map file that is one line of text and gives neither the
    height nor the width. *)
Definition other_row (row : string) : bool :=
  all_chars (not_char LF) row && all_chars (not_char CR) row
  && negb (startswith (strip row) "height")
  && negb (startswith (strip row) "width").

(** A line the loop of [get_map_dimensions] takes for a height or a
    width. *)
Definition dimension_line (raw : string) : bool :=
  startswith (strip raw) "height" || startswith (strip raw) "width".

(** Every path [check_prerequisites] may ask for. *)
Definition required_paths : list path :=
  ([lacam_script; exe_path]
   ++ List.map map_path maps
   ++ List.map scenario_dir_path maps
   ++ flat_map (fun m => List.map (scenario_path m) waypoint_configs) maps)%list.

(* ================================================================== *)
(** ** Further sample inputs *)
(* ================================================================== *)

(** A scenario file with one well-formed agent line, and one whose agent
    line has a start row that is no integer. *)
Definition one_agent_file : string :=
  header ++ "1" ++ tab ++ "m.map" ++ tab ++ "8" ++ tab ++ "8" ++ tab ++ "5"
  ++ tab ++ "5" ++ tab ++ "6" ++ tab ++ "6" ++ tab ++ "2" ++ tab ++ "0" ++ nl.

Definition bad_number_file : string :=
  header ++ "1" ++ tab ++ "m.map" ++ tab ++ "8" ++ tab ++ "8" ++ tab ++ "x"
  ++ tab ++ "5" ++ tab ++ "6" ++ tab ++ "6" ++ tab ++ "2" ++ tab ++ "0" ++ nl.

(** A map file in the usual layout, and one whose height line lacks its
    number. *)
Definition small_map : string :=
  text_of_rows (["type octile"] ++ ["height " ++ str 2] ++ []
                ++ ["width " ++ str 3] ++ ["map"; "..@"; "@.."]).

Definition headless_map : string :=
  text_of_rows ["type octile"; "height"; "width 3"; "map"; "..@"].

(** A disk that holds everything, and one that lacks the solver. *)
Definition full_disk (_ : path) : bool := true.

Definition disk_without_solver (p : path) : bool :=
  match p with
  | [a; b] => negb (String.eqb a "build" && String.eqb b "main")
  | _ => true
  end.

(** Three temporary files of which the second exists and is protected and
    the third exists and is not. *)
Definition sample_temp_files : list string := ["a.scen"; "b.yaml"; "c.yaml"].
Definition sample_present (f : string) : bool :=
  String.eqb f "b.yaml" || String.eqb f "c.yaml" || String.eqb f "keep.txt".
Definition sample_protected (f : string) : bool := String.eqb f "b.yaml".

(** An agent whose line declares a negative number of waypoints. *)
Definition agent_N : agent := mkAgent (2, 2) (4, 4) [] (-2) 3.

(** A solver that always exits with 0 and leaves a plan with its cost,
    its makespan and the word that it solved the instance. *)
Definition steady_solver (_ : nat) (_ : solver_cmd) : solver_run :=
  {| proc := Completed 0 EmptyString EmptyString; elapsed := 3;
     artifact := Some ("soc=4" ++ nl ++ "makespan=3" ++ nl ++ "solved=1" ++ nl) |}.

Definition steady_env : environment :=
  {| solver := steady_solver; map_filename := "m.map"; map_dimensions := (8, 8) |}.

(* ================================================================== *)
(** ** Properties *)
(* ================================================================== *)

(** *** Python primitives *)

Lemma append_empty_r (s : string) : s ++ EmptyString = s.
Proof. induction s as [|c s IH]; simpl; congruence. Qed.

Lemma append_assoc (a b c : string) : (a ++ b) ++ c = a ++ (b ++ c).
Proof. induction a as [|x a IH]; simpl; congruence. Qed.

Lemma concat_cons (l : string) (ls : list string) :
  String.concat EmptyString (l :: ls) = l ++ String.concat EmptyString ls.
Proof.
  destruct ls as [|l' ls]; [|reflexivity].
  simpl. now rewrite append_empty_r.
Qed.

Lemma getitem_nth {A} (l : list A) (i : Z) :
  0 <= i < Z.of_nat (List.length l) ->
  exists x, getitem l i = Ok x /\ nth_error l (Z.to_nat i) = Some x.
Proof.
  intros Hi. unfold getitem.
  destruct (i <? 0) eqn:Hneg; [apply Z.ltb_lt in Hneg; lia|].
  replace ((i <? 0) || (Z.of_nat (List.length l) <=? i)) with false.
  2:{ symmetry. apply orb_false_iff. split; [exact Hneg | apply Z.leb_gt; lia]. }
  destruct (nth_error l (Z.to_nat i)) as [x|] eqn:Hn.
  - exists x. split; reflexivity.
  - apply nth_error_None in Hn. lia.
Qed.

Lemma fold_max_ge (xs : list Z) (x : Z) : x <= fold_left Z.max xs x.
Proof.
  revert x. induction xs as [|y ys IH]; intros x; simpl; [lia|].
  specialize (IH (Z.max x y)). lia.
Qed.

Lemma fold_max_upper (xs : list Z) (x y : Z) :
  In y xs -> y <= fold_left Z.max xs x.
Proof.
  revert x. induction xs as [|z zs IH]; intros x Hin; simpl in *; [contradiction|].
  destruct Hin as [-> | Hin].
  - pose proof (fold_max_ge zs (Z.max x y)). lia.
  - apply IH, Hin.
Qed.

Lemma fold_max_attained (xs : list Z) (x : Z) :
  fold_left Z.max xs x = x \/ In (fold_left Z.max xs x) xs.
Proof.
  revert x. induction xs as [|z zs IH]; intros x; simpl; [left; reflexivity|].
  destruct (IH (Z.max x z)) as [E | Hin].
  - rewrite E. destruct (Z.max_spec x z) as [[_ ->] | [_ ->]]; auto.
  - right. right. exact Hin.
Qed.

Lemma segment_timeout_value (total n : Z) :
  n <> 0 -> segment_timeout total n = Ok (Z.max 1 (total / n)).
Proof.
  intros Hn. unfold segment_timeout, floordiv.
  destruct (n =? 0) eqn:E; [apply Z.eqb_eq in E; contradiction|].
  simpl. f_equal.
  destruct (total / n <? 1) eqn:Hq.
  - apply Z.ltb_lt in Hq. lia.
  - apply Z.ltb_ge in Hq. lia.
Qed.

(** *** The segment rule *)

Lemma segment_endpoints_rule (a : agent) (i : Z) :
  0 <= i ->
  exists sg, segment_endpoints a i = Ok sg /\ three_case_rule a i sg.
Proof.
  intros Hi. unfold segment_endpoints, three_case_rule, waypoint_count.
  destruct (i =? 0) eqn:E0.
  - apply Z.eqb_eq in E0. subst i.
    destruct (waypoints a) as [|w ws] eqn:Hw.
    + exists (start a, goal a). simpl. repeat split; try lia; tauto.
    + exists (start a, w). simpl. repeat split; try lia; tauto.
  - apply Z.eqb_neq in E0.
    destruct (i <=? Z.of_nat (List.length (waypoints a))) eqn:Ele.
    + apply Z.leb_le in Ele.
      destruct (getitem_nth (waypoints a) (i - 1)) as [s [Hs Hns]]; [lia|].
      rewrite Hs. simpl.
      destruct (i =? Z.of_nat (List.length (waypoints a))) eqn:Eeq.
      * apply Z.eqb_eq in Eeq. exists (s, goal a). simpl.
        repeat split; try lia; auto.
      * apply Z.eqb_neq in Eeq.
        destruct (getitem_nth (waypoints a) i) as [g [Hg Hng]]; [lia|].
        rewrite Hg. exists (s, g). simpl.
        repeat split; try lia; auto.
    + apply Z.leb_gt in Ele. exists (goal a, goal a). simpl.
      repeat split; try lia.
Qed.

Lemma write_agents_lines (agents : list agent) (i : Z) (m : string) (w h : Z)
    (written : string) :
  0 <= i ->
  exists eps,
    Forall2 (fun a sg => three_case_rule a i sg) agents eps /\
    write_agents agents i m w h written
    = Ok (written ++ String.concat EmptyString (agent_lines agents eps m w h)).
Proof.
  intros Hi. revert written.
  induction agents as [|a rest IH]; intros written.
  - exists []. split; [constructor|].
    cbn [write_agents agent_lines String.concat].
    now rewrite append_empty_r.
  - destruct (segment_endpoints_rule a i Hi) as [sg [Hsg Hrule]].
    destruct (IH (written ++ scenario_line (bucket_id a) m w h (fst sg) (snd sg)))
      as [eps [Hall Heq]].
    exists (sg :: eps). split; [constructor; assumption|].
    cbn [write_agents agent_lines]. rewrite Hsg.
    cbn [bind]. rewrite Heq, concat_cons, append_assoc. reflexivity.
Qed.

(** C1.  For every list of agents and every segment index from 0 on,
    [create_segment_scenario] succeeds and writes the header followed by one
    line per agent, in order, whose start and goal obey the three-case rule:
    in segment 0 the start is the agent's own start and the goal its first
    waypoint (its own goal when it has none); in segment [i] with
    [1 <= i <= k] the start is waypoint [i-1] and the goal is waypoint [i]
    when [i < k] and the agent's own goal when [i = k]; and past [k] start
    and goal are both the agent's own goal. *)
Theorem create_segment_scenario_three_cases
    (agents : list agent) (segment_idx : Z) (m : string) (w h : Z) :
  0 <= segment_idx ->
  exists eps,
    Forall2 (fun a sg => three_case_rule a segment_idx sg) agents eps /\
    create_segment_scenario agents segment_idx m w h
    = Ok (header ++ String.concat EmptyString (agent_lines agents eps m w h)).
Proof.
  intros Hi. unfold create_segment_scenario.
  apply write_agents_lines, Hi.
Qed.

Lemma create_segment_scenario_three_cases_witness :
  0 <= 1 /\
  exists eps,
    Forall2 (fun a sg => three_case_rule a 1 sg) [agent_A; agent_B] eps /\
    create_segment_scenario [agent_A; agent_B] 1 "m.map" 8 8
    = Ok (header ++ String.concat EmptyString (agent_lines [agent_A; agent_B] eps "m.map" 8 8)).
Proof.
  split; [lia|].
  apply (create_segment_scenario_three_cases [agent_A; agent_B] 1 "m.map" 8 8).
  lia.
Defined.

(** *** Number of segments and the time allotted to each *)

(** C6.  For positive [total_timeout] and [num_segments] the time allotted
    to each segment is [max(1, total_timeout // num_segments)], with floor
    division. *)
Theorem segment_timeout_is_max_of_one_and_quotient (total_timeout n_segments : Z) :
  0 < total_timeout -> 0 < n_segments ->
  segment_timeout total_timeout n_segments
  = Ok (Z.max 1 (total_timeout / n_segments)).
Proof.
  intros _ Hn. apply segment_timeout_value. lia.
Qed.

Lemma segment_timeout_is_max_of_one_and_quotient_witness :
  0 < 100 /\ 0 < 3 /\ segment_timeout 100 3 = Ok (Z.max 1 (100 / 3)).
Proof.
  split; [lia|]. split; [lia|].
  apply (segment_timeout_is_max_of_one_and_quotient 100 3); lia.
Defined.

(** *** Truncation to an agent count *)

(** C9.  For an agent count [N] between 0 and the number of parsed agents,
    the experiment of that scale point runs on exactly the first [N] agents
    of the parsed list, in file order: [agents[:N]] has [N] elements, the
    full list is that prefix followed by the agents left out, and the body
    of the loop over agent counts hands this prefix to [run_experiment]. *)
Theorem scale_point_runs_on_prefix (env : environment) (agents : list agent)
    (args : arguments) (all_results : list (Z * summary)) (N : Z) :
  0 <= N <= Z.of_nat (List.length agents) ->
  current_agents agents N = firstn (Z.to_nat N) agents /\
  Z.of_nat (List.length (current_agents agents N)) = N /\
  agents = (current_agents agents N ++ skipn (Z.to_nat N) agents)%list /\
  run_scale_point env agents args all_results N
  = bindM (emit (Console (StartingExperiment N))) (fun _ =>
    bindM (run_experiment env (firstn (Z.to_nat N) agents) args
             (current_out_dir args N)) (fun result =>
    bindM (emit (Console (CompletedExperiment N result))) (fun _ =>
    ret (all_results ++ [(N, result)])%list))).
Proof.
  intros [H0 Hn].
  assert (E : current_agents agents N = firstn (Z.to_nat N) agents).
  { unfold current_agents, slice_to.
    destruct (N <? 0) eqn:Hneg; [apply Z.ltb_lt in Hneg; lia|].
    now rewrite Z.min_l by lia. }
  split; [exact E|]. split.
  - rewrite E, length_firstn. lia.
  - split.
    + rewrite E. symmetry. apply firstn_skipn.
    + unfold run_scale_point. rewrite E. reflexivity.
Qed.

Lemma scale_point_runs_on_prefix_witness :
  0 <= 1 <= Z.of_nat (List.length [agent_A; agent_B]) /\
  current_agents [agent_A; agent_B] 1 = [agent_A].
Proof.
  split; [simpl; lia|].
  refine (proj1 (scale_point_runs_on_prefix moody_env [agent_A; agent_B]
                   single_args [] 1 _)).
  simpl; lia.
Defined.

(** *** The parser *)

Lemma range_spec (n j : Z) : In j (range n) -> 0 <= j < n.
Proof.
  unfold range. intros Hin. apply in_map_iff in Hin.
  destruct Hin as [k [<- Hk]]. apply in_seq in Hk. lia.
Qed.

Lemma range_length (n : Z) : List.length (range n) = Z.to_nat n.
Proof. unfold range. now rewrite length_map, length_seq. Qed.

Lemma collect_waypoints_length (wp : list string) (js : list Z) :
  (forall j, In j js -> j * 2 + 1 < Z.of_nat (List.length wp)) ->
  forall acc l,
    collect_waypoints wp js acc = Ok l ->
    List.length l = (List.length acc + List.length js)%nat.
Proof.
  induction js as [|j js IH]; intros Hjs acc l Hl.
  - simpl in Hl. injection Hl as <-. simpl. lia.
  - cbn [collect_waypoints] in Hl.
    assert (Hj : (j * 2 + 1 <? Z.of_nat (List.length wp)) = true).
    { apply Z.ltb_lt, Hjs. left. reflexivity. }
    rewrite Hj in Hl.
    destruct (int_field wp (j * 2)) as [r|e]; [|discriminate].
    destruct (int_field wp (j * 2 + 1)) as [c|e]; [|discriminate].
    cbn [bind] in Hl. apply IH in Hl.
    + rewrite Hl, length_app. simpl. lia.
    + intros j' Hin. apply Hjs. right. exact Hin.
Qed.

(** An agent read from a line that declares a non-negative number of
    waypoints has exactly that many: its [K] is its waypoint count. *)
Lemma parse_line_waypoint_count (raw : string) (a : agent) :
  parse_line raw = Ok (Appended a) -> 0 <= K a -> K a = waypoint_count a.
Proof.
  unfold parse_line.
  destruct (String.eqb (strip raw) EmptyString); [discriminate|].
  set (parts := split TAB (strip raw)).
  destruct (Z.of_nat (List.length parts) <? 10); [discriminate|].
  destruct (int_field parts 4) as [sr|]; [|discriminate].
  destruct (int_field parts 5) as [sc|]; [|discriminate].
  destruct (int_field parts 6) as [gr|]; [|discriminate].
  destruct (int_field parts 7) as [gc|]; [|discriminate].
  destruct (int_field parts 9) as [k|]; [|discriminate].
  cbn [bind].
  destruct (10 + k * 2 <=? Z.of_nat (List.length parts)) eqn:Hlen; [|discriminate].
  apply Z.leb_le in Hlen.
  destruct (collect_waypoints (slice_from parts 10) (range k) []) as [wps|] eqn:Hw;
    [|discriminate].
  destruct (int_field parts 0) as [b|]; [|discriminate].
  cbn [bind]. intros H. injection H as <-. cbn [K]. intros Hk.
  unfold waypoint_count. cbn [waypoints].
  apply collect_waypoints_length in Hw.
  - rewrite Hw, range_length. simpl. lia.
  - intros j Hin. apply range_spec in Hin.
    unfold slice_from. rewrite length_skipn. lia.
Qed.

Lemma parse_loop_keeps (P : agent -> Prop) (lines : list string) :
  (forall raw a, In raw lines -> parse_line raw = Ok (Appended a) -> P a) ->
  forall fuel i agents out result out',
    Forall P agents ->
    parse_loop fuel lines i agents out = Some (Ok result, out') ->
    Forall P result.
Proof.
  intros Hline. induction fuel as [|fuel IH]; intros i agents out result out' Hags Hrun.
  - discriminate.
  - cbn [parse_loop] in Hrun.
    destruct (nth_error lines i) as [raw|] eqn:Hnth.
    + destruct (parse_line raw) as [[|a|k]|e] eqn:Hp.
      * eapply IH; eauto.
      * eapply IH; [|exact Hrun].
        apply Forall_app. split; [exact Hags|].
        constructor; [|constructor].
        eapply Hline; [eapply nth_error_In; exact Hnth | exact Hp].
      * eapply IH; eauto.
      * discriminate.
    + injection Hrun as <- _. exact Hags.
Qed.

(** Every agent the parser returns whose declared [K] is not negative has
    [K] waypoints. *)
Lemma parsed_agents_waypoint_count (fuel : nat) (content : string)
    (agents : list agent) (out : list string) :
  parse_waypoint_scenario fuel content = Some (Ok agents, out) ->
  Forall (fun a => 0 <= K a -> K a = waypoint_count a) agents.
Proof.
  unfold parse_waypoint_scenario. intros H.
  eapply parse_loop_keeps; [|constructor|exact H].
  intros raw a _ Hp. exact (parse_line_waypoint_count raw a Hp).
Qed.

(** Once the loop looks at a line that declares more waypoints than it
    supplies, it looks at that line for ever: [i] is not advanced before
    [continue]. *)
Lemma parse_loop_stuck (lines : list string) (i : nat) (raw : string) (k : Z) :
  nth_error lines i = Some raw ->
  parse_line raw = Ok (Warned k) ->
  forall fuel agents out, parse_loop fuel lines i agents out = None.
Proof.
  intros Hnth Hp. induction fuel as [|fuel IH]; intros agents out.
  - reflexivity.
  - cbn [parse_loop]. rewrite Hnth, Hp. apply IH.
Qed.

(** Lines that are all skipped are passed one by one. *)
Lemma parse_loop_skips (lines : list string) :
  forall fuel i agents out,
    (forall j raw, (i <= j)%nat -> nth_error lines j = Some raw ->
                   parse_line raw = Ok Skipped) ->
    (List.length lines - i < fuel)%nat ->
    parse_loop fuel lines i agents out = Some (Ok agents, out).
Proof.
  induction fuel as [|fuel IH]; intros i agents out Hskip Hfuel; [lia|].
  cbn [parse_loop].
  destruct (nth_error lines i) as [raw|] eqn:Hnth; [|reflexivity].
  rewrite (Hskip i raw (Nat.le_refl i) Hnth).
  apply IH.
  - intros j raw' Hj. apply Hskip. lia.
  - assert (i < List.length lines)%nat by (apply nth_error_Some; congruence). lia.
Qed.

(** C4 (the code departs from it).  On a file whose second line declares
    one waypoint and supplies no waypoint field, the loop of
    [parse_waypoint_scenario] reaches that line, takes the warning branch,
    and is still running after any number of passes: the function does not
    return, so the well-formed line after it is never read. *)
Theorem parse_waypoint_scenario_hangs_on_short_line :
  nth_error (readlines short_waypoint_file) 1 = Some short_waypoint_line /\
  parse_line short_waypoint_line = Ok (Warned 1) /\
  forall fuel, parse_waypoint_scenario fuel short_waypoint_file = None.
Proof.
  split; [reflexivity|]. split; [reflexivity|].
  intros fuel. unfold parse_waypoint_scenario.
  apply (parse_loop_stuck (readlines short_waypoint_file) 1
           short_waypoint_line 1); reflexivity.
Qed.

(** *** The solver call *)

Lemma scan_cost_without_soc (lines : list string) :
  (forall line c, In line lines -> ~ soc_line line c) ->
  scan_cost lines = Ok 0 \/ exists e, scan_cost lines = Raise e.
Proof.
  induction lines as [|line rest IH]; intros Hno.
  - left. reflexivity.
  - cbn [scan_cost].
    destruct (startswith line "soc=") eqn:Hs.
    + destruct (value_after_equals line) as [c|e] eqn:Hv.
      * exfalso. apply (Hno line c); [left; reflexivity | split; assumption].
      * right. exists e. reflexivity.
    + apply IH. intros l c Hin. apply Hno. right. exact Hin.
Qed.

Lemma read_cost_without_soc (art : option string) :
  (forall content line c,
      art = Some content -> In line (readlines content) -> ~ soc_line line c) ->
  read_cost art = 0.
Proof.
  intros Hno. destruct art as [content|]; [|reflexivity].
  unfold read_cost.
  destruct (scan_cost_without_soc (readlines content)) as [-> | [e ->]];
    try reflexivity.
  intros line c. apply (Hno content line c). reflexivity.
Qed.

(** C7.  The return contract of [run_lacam_segment], for the solver run
    [r] the call makes: when the child exits with a code other than 0 the
    result is [(None, runtime, None)] and the failure is printed with the
    captured output; when [subprocess.run] reports a timeout the result is
    [(None, timeout, None)]; and when the child exits with 0 and the output
    file holds no line of the form [soc=<int>] (or cannot be read) the cost
    returned is 0, with the runtime and the output file, not an error.  In
    each case the solver is run once, with [timeout + 10] seconds. *)
Theorem run_lacam_segment_contract (env : environment) (exe map_path scen : string)
    (n_agents seed timeout : Z) (n : nat) :
  let cmd := {| c_exe := exe; c_map := map_path; c_scen := scen;
                c_num := n_agents; c_seed := seed; c_time_limit := timeout |} in
  let r := solver env n cmd in
  let call := run_lacam_segment env exe map_path scen n_agents seed timeout n in
  (forall returncode out err,
      proc r = Completed returncode out err -> returncode <> 0 ->
      call = (Return (None, elapsed r, None),
              [TempFile; RunSolver cmd (timeout + 10);
               Console (SolverFailed returncode out err cmd)], S n)) /\
  (proc r = TimeoutExpired ->
      call = (Return (None, inject_Z timeout, None),
              [TempFile; RunSolver cmd (timeout + 10);
               Console (SolverTimedOut timeout)], S n)) /\
  (forall out err,
      proc r = Completed 0 out err ->
      (forall content line c,
          artifact r = Some content -> In line (readlines content) ->
          ~ soc_line line c) ->
      call = (Return (Some 0, elapsed r, Some (artifact r)),
              [TempFile; RunSolver cmd (timeout + 10)], S n)).
Proof.
  intros cmd r call.
  unfold call, run_lacam_segment, bindM, emit, subprocess_run, ret.
  fold cmd. fold r. cbn [app].
  split; [|split].
  - intros returncode out err Hp Hrc. rewrite Hp.
    destruct (returncode =? 0) eqn:E; [apply Z.eqb_eq in E; contradiction|].
    reflexivity.
  - intros Hp. rewrite Hp. reflexivity.
  - intros out err Hp Hno. rewrite Hp. cbn.
    rewrite (read_cost_without_soc (artifact r) Hno). reflexivity.
Qed.

Lemma run_lacam_segment_contract_witness :
  fst (fst (run_lacam_segment moody_env "lacam" "m.map" header 1 42 30 0%nat))
    = Return (None, 2%Q, None) /\
  fst (fst (run_lacam_segment moody_env "lacam" "m.map" header 1 42 30 1%nat))
    = Return (None, inject_Z 30, None) /\
  fst (fst (run_lacam_segment moody_env "lacam" "m.map" header 1 42 30 2%nat))
    = Return (Some 0, 3%Q, Some (Some ("makespan=3" ++ nl))).
Proof.
  split; [|split].
  - rewrite (proj1 (run_lacam_segment_contract moody_env "lacam" "m.map" header
                      1 42 30 0%nat) 1 "out" "err" eq_refl).
    + reflexivity.
    + discriminate.
  - rewrite (proj1 (proj2 (run_lacam_segment_contract moody_env "lacam" "m.map"
                             header 1 42 30 1%nat)) eq_refl).
    reflexivity.
  - rewrite (proj2 (proj2 (run_lacam_segment_contract moody_env "lacam" "m.map"
                             header 1 42 30 2%nat)) EmptyString EmptyString eq_refl).
    + reflexivity.
    + intros content line c Hc Hin [Hs _].
      injection Hc as <-. simpl in Hin.
      destruct Hin as [<- | []]. discriminate Hs.
Defined.

(** *** The segment loop of an experiment *)

Lemma project_app {A} (f : event -> option A) (e1 e2 : list event) :
  project f (e1 ++ e2)%list = (project f e1 ++ project f e2)%list.
Proof. unfold project. apply flat_map_app. Qed.

Lemma scenario_text_ok (env : environment) (agents : list agent) (i : Z) :
  0 <= i ->
  create_segment_scenario agents i (map_filename env)
    (fst (map_dimensions env)) (snd (map_dimensions env))
  = Ok (scenario_text env agents i).
Proof.
  intros Hi. unfold scenario_text, create_segment_scenario.
  destruct (write_agents_lines agents i (map_filename env)
              (fst (map_dimensions env)) (snd (map_dimensions env)) header Hi)
    as [eps [_ ->]].
  reflexivity.
Qed.

(** One pass through the body of the segment loop: the solver is run once
    on the scenario of the segment, nothing is written to a report file, no
    scale point is started, and the pass either adds one segment result or
    ends in [sys.exit(1)], according to the solver run. *)
Lemma run_segment_pass (env : environment) (agents : list agent)
    (args : arguments) (out_dir : string) (seg_timeout : Z) (acc : totals)
    (i n : nat) :
  let cmd := segment_cmd env agents args seg_timeout i in
  exists ev,
    solver_cmds ev = [cmd] /\ written ev = [] /\ experiments_started ev = [] /\
    if returns_cost (solver env n cmd)
    then exists acc',
           run_segment env agents args out_dir seg_timeout acc (Z.of_nat i) n
           = (Return acc', ev, S n) /\
           List.length (t_results acc') = S (List.length (t_results acc))
    else run_segment env agents args out_dir seg_timeout acc (Z.of_nat i) n
         = (Exit 1, ev, S n).
Proof.
  intros cmd. subst cmd.
  unfold run_segment, run_lacam_segment, segment_cmd.
  rewrite (scenario_text_ok env agents (Z.of_nat i)) by lia.
  unfold returns_cost, subprocess_run, bindM, emit, lift, ret.
  cbv beta zeta.
  match goal with
  | |- context [solver env n ?c] => generalize (solver env n c); intros r
  end.
  destruct (proc r) as [rc so se|].
  - destruct (rc =? 0) eqn:E; cbn [negb].
    + destruct (artifact r) as [content|].
      * eexists. split; [|split; [|split]].
        4:{ eexists. split; [reflexivity|].
            cbn [t_results]. rewrite length_app. simpl. lia. }
        all: reflexivity.
      * eexists. split; [|split; [|split]].
        4:{ eexists. split; [reflexivity|].
            cbn [t_results]. rewrite length_app. simpl. lia. }
        all: reflexivity.
    + eexists. split; [|split; [|split]]. 4: reflexivity. all: reflexivity.
  - eexists. split; [|split; [|split]]. 4: reflexivity. all: reflexivity.
Qed.

Section SegmentLoop.

Variable env : environment.
Variable agents : list agent.
Variable args : arguments.
Variable out_dir : string.
Variable seg_timeout : Z.
Variable n0 : nat.

Let cmd_at : nat -> solver_cmd := segment_cmd env agents args seg_timeout.
Let ok (j : nat) : bool := returns_cost (solver env (n0 + j) (cmd_at j)).
Let loop (a len : nat) (acc : totals) : outcome totals * list event * nat :=
  for_each (List.map Z.of_nat (seq a len))
    (run_segment env agents args out_dir seg_timeout) acc (n0 + a)%nat.

(** When every solver run returns a cost the loop runs all its segments. *)
Lemma segment_loop_completes (len : nat) :
  forall a acc,
    (forall j, (a <= j < a + len)%nat -> ok j = true) ->
    exists acc' ev,
      loop a len acc = (Return acc', ev, (n0 + a + len)%nat) /\
      solver_cmds ev = List.map cmd_at (seq a len) /\
      written ev = [] /\ experiments_started ev = [] /\
      List.length (t_results acc') = (List.length (t_results acc) + len)%nat.
Proof.
  induction len as [|len IH]; intros a acc Hok.
  - exists acc, []. unfold loop. cbn [seq List.map for_each]. unfold ret.
    split; [f_equal; lia|]. repeat split; try reflexivity. simpl; lia.
  - unfold loop. cbn [seq List.map for_each]. unfold bindM.
    destruct (run_segment_pass env agents args out_dir seg_timeout acc a (n0 + a))
      as [ev1 [Hc1 [Hw1 [Hs1 Hstep]]]].
    fold cmd_at in Hstep, Hc1. fold (ok a) in Hstep.
    rewrite (Hok a) in Hstep by lia.
    destruct Hstep as [acc1 [Hrun Hlen1]]. rewrite Hrun.
    destruct (IH (S a) acc1) as [acc' [ev2 [Hloop [Hc2 [Hw2 [Hs2 Hlen2]]]]]].
    { intros j Hj. apply Hok. lia. }
    unfold loop in Hloop.
    replace (n0 + S a)%nat with (S (n0 + a)) in Hloop by lia.
    rewrite Hloop. exists acc', (ev1 ++ ev2)%list.
    split; [f_equal; lia|].
    unfold solver_cmds, written, experiments_started in *.
    rewrite !project_app, Hc1, Hc2, Hw1, Hw2, Hs1, Hs2.
    repeat split; try reflexivity. lia.
Qed.

(** The loop ends at the first solver run that returns no cost: the
    segments before it have been run once each, in order, and none after. *)
Lemma segment_loop_stops (len : nat) :
  forall a acc k,
    (k < len)%nat ->
    (forall j, (a <= j < a + k)%nat -> ok j = true) ->
    ok (a + k) = false ->
    exists ev,
      loop a len acc = (Exit 1, ev, (n0 + a + S k)%nat) /\
      solver_cmds ev = List.map cmd_at (seq a (S k)) /\
      written ev = [] /\ experiments_started ev = [].
Proof.
  induction len as [|len IH]; intros a acc k Hk Hok Hfail; [lia|].
  unfold loop. cbn [seq List.map for_each]. unfold bindM.
  destruct (run_segment_pass env agents args out_dir seg_timeout acc a (n0 + a))
    as [ev1 [Hc1 [Hw1 [Hs1 Hstep]]]].
  fold cmd_at in Hstep, Hc1. fold (ok a) in Hstep.
  destruct k as [|k].
  - replace (a + 0)%nat with a in Hfail by lia.
    rewrite Hfail in Hstep. rewrite Hstep.
    exists ev1. split; [f_equal; lia|]. repeat split; assumption.
  - rewrite (Hok a) in Hstep by lia.
    destruct Hstep as [acc1 [Hrun _]]. rewrite Hrun.
    destruct (IH (S a) acc1 k) as [ev2 [Hloop [Hc2 [Hw2 Hs2]]]].
    { lia. }
    { intros j Hj. apply Hok. lia. }
    { replace (S a + k)%nat with (a + S k)%nat by lia. exact Hfail. }
    unfold loop in Hloop.
    replace (n0 + S a)%nat with (S (n0 + a)) in Hloop by lia.
    rewrite Hloop. exists (ev1 ++ ev2)%list.
    split; [f_equal; lia|].
    unfold solver_cmds, written, experiments_started in *.
    rewrite !project_app, Hc1, Hc2, Hw1, Hw2, Hs1, Hs2.
    repeat split; reflexivity.
Qed.

End SegmentLoop.

(** Either every one of the first [n] runs returns a cost or there is a
    first one that does not. *)
Lemma all_or_first_failure (ok : nat -> bool) (n : nat) :
  (forall j, (j < n)%nat -> ok j = true) \/
  (exists k, (k < n)%nat /\ ok k = false /\ forall j, (j < k)%nat -> ok j = true).
Proof.
  induction n as [|n [Hall | [k [Hk [Hf Hbefore]]]]].
  - left. intros j Hj. lia.
  - destruct (ok n) eqn:E.
    + left. intros j Hj. destruct (Nat.eq_dec j n) as [-> | Hne]; [exact E|].
      apply Hall. lia.
    + right. exists n. repeat split; [lia | exact E | exact Hall].
  - right. exists k. repeat split; [lia | exact Hf | exact Hbefore].
Qed.

(** *** Running one experiment *)

Lemma bindM_lift_ok {A B} (a : A) (k : A -> M B) (n : nat) :
  bindM (lift (Ok a)) k n = k a n.
Proof. unfold bindM, lift. destruct (k a n) as [[o ev] n']. reflexivity. Qed.

Lemma bindM_emit {B} (e : event) (k : unit -> M B) (n : nat) :
  bindM (emit e) k n = (fst (fst (k tt n)), e :: snd (fst (k tt n)), snd (k tt n)).
Proof. unfold bindM, emit. destruct (k tt n) as [[o ev] n']. reflexivity. Qed.

Lemma bindM_return {A B} (m : M A) (k : A -> M B) (n n' : nat) (a : A)
    (ev : list event) :
  m n = (Return a, ev, n') ->
  bindM m k n
  = (fst (fst (k a n')), (ev ++ snd (fst (k a n')))%list, snd (k a n')).
Proof.
  intros H. unfold bindM. rewrite H. destruct (k a n') as [[o ev'] n''].
  reflexivity.
Qed.

Lemma bindM_exit {A B} (m : M A) (k : A -> M B) (n n' : nat) (c : Z)
    (ev : list event) :
  m n = (Exit c, ev, n') -> bindM m k n = (Exit c, ev, n').
Proof. intros H. unfold bindM. rewrite H. reflexivity. Qed.

Lemma count_segments_positive (agents : list agent) (n : Z) :
  count_segments agents = Ok n -> 1 <= n.
Proof.
  unfold count_segments. destruct agents as [|a rest]; [discriminate|].
  cbn [List.map Py.max bind]. intros H. injection H as <-.
  pose proof (fold_max_ge
                (List.map (fun a => Z.of_nat (List.length (waypoints a))) rest)
                (Z.of_nat (List.length (waypoints a)))).
  lia.
Qed.

Section Experiment.

Variable env : environment.
Variable agents : list agent.
Variable args : arguments.
Variable out_dir : string.
Variable n0 : nat.
Variable n_segments : Z.
Hypothesis Hcount : count_segments agents = Ok n_segments.

Let seg_timeout : Z := Z.max 1 (a_timeout args / n_segments).
Let cmd_at : nat -> solver_cmd := segment_cmd env agents args seg_timeout.
Let ok (j : nat) : bool := returns_cost (solver env (n0 + j) (cmd_at j)).

(** With a cost from every segment the experiment returns its summary
    after writing the two summary files. *)
Lemma run_experiment_completes :
  (forall j, (j < Z.to_nat n_segments)%nat -> ok j = true) ->
  exists s ev,
    run_experiment env agents args out_dir n0
    = (Return s, ev, (n0 + Z.to_nat n_segments)%nat) /\
    solver_cmds ev = List.map cmd_at (seq 0 (Z.to_nat n_segments)) /\
    written ev = [(out_dir, "waypoint_summary.json");
                  (out_dir, "waypoint_summary.txt")] /\
    experiments_started ev = [] /\
    num_segments s = n_segments /\ total_segments s = n_segments.
Proof.
  intros Hok. pose proof (count_segments_positive agents n_segments Hcount) as Hpos.
  destruct (segment_loop_completes env agents args out_dir seg_timeout n0
              (Z.to_nat n_segments) 0
              {| t_runtime := 0%Q; t_cost := 0; t_results := [] |})
    as [acc [ev [Hloop [Hc [Hw [Hs Hlen]]]]]].
  { intros j Hj. apply Hok. lia. }
  replace (n0 + 0)%nat with n0 in Hloop by lia.
  unfold run_experiment. rewrite Hcount, bindM_lift_ok.
  rewrite segment_timeout_value by lia. rewrite bindM_lift_ok, bindM_emit.
  fold seg_timeout.
  erewrite bindM_return.
  2:{ unfold guarded, range. rewrite Hloop. reflexivity. }
  rewrite !bindM_emit. unfold ret. cbn [fst snd].
  eexists. eexists. split; [reflexivity|].
  unfold solver_cmds, written, experiments_started in *.
  change (?e :: (?l ++ ?r)%list) with ([e] ++ (l ++ r))%list.
  rewrite !project_app, Hc, Hw, Hs.
  cbn [project flat_map app]. rewrite ?app_nil_r.
  repeat split; try reflexivity.
  cbn [summarize num_segments]. rewrite Hlen. simpl. lia.
Qed.

(** At the first segment without a cost the experiment ends in
    [sys.exit(1)]: nothing is written to a summary file and no further
    solver run is made. *)
Lemma run_experiment_stops (k : nat) :
  (k < Z.to_nat n_segments)%nat ->
  (forall j, (j < k)%nat -> ok j = true) ->
  ok k = false ->
  exists ev,
    run_experiment env agents args out_dir n0 = (Exit 1, ev, (n0 + S k)%nat) /\
    solver_cmds ev = List.map cmd_at (seq 0 (S k)) /\
    written ev = [] /\ experiments_started ev = [].
Proof.
  intros Hk Hok Hfail.
  pose proof (count_segments_positive agents n_segments Hcount) as Hpos.
  destruct (segment_loop_stops env agents args out_dir seg_timeout n0
              (Z.to_nat n_segments) 0
              {| t_runtime := 0%Q; t_cost := 0; t_results := [] |} k Hk)
    as [ev [Hloop [Hc [Hw Hs]]]].
  { intros j Hj. apply Hok. lia. }
  { exact Hfail. }
  replace (n0 + 0)%nat with n0 in Hloop by lia.
  unfold run_experiment. rewrite Hcount, bindM_lift_ok.
  rewrite segment_timeout_value by lia. rewrite bindM_lift_ok, bindM_emit.
  fold seg_timeout.
  erewrite bindM_exit.
  2:{ unfold guarded, range. rewrite Hloop. reflexivity. }
  cbn [fst snd].
  eexists. split; [reflexivity|].
  unfold solver_cmds, written, experiments_started in *.
  change (?e :: (?l ++ ?r)%list) with ([e] ++ (l ++ r))%list.
  rewrite !project_app, Hc, Hw, Hs.
  cbn [project flat_map app]. rewrite ?app_nil_r.
  repeat split; reflexivity.
Qed.

End Experiment.

(** C2.  Within one experiment, at the first segment whose solver run
    returns no cost (exit code other than 0, or timeout) [run_experiment]
    ends in [sys.exit(1)]: the segments up to that one have been handed to
    the solver once each, in order, none after it and none twice; no
    summary file is written and no summary is returned.  A summary file is
    written only when every segment returned a cost, and then both files
    are written and the summary is returned. *)
Theorem run_experiment_fails_fast (env : environment) (agents : list agent)
    (args : arguments) (out_dir : string) (n0 : nat) (n_segments : Z) :
  count_segments agents = Ok n_segments ->
  let seg_timeout := Z.max 1 (a_timeout args / n_segments) in
  let cmd_at := segment_cmd env agents args seg_timeout in
  let ok := fun j : nat => returns_cost (solver env (n0 + j) (cmd_at j)) in
  let run := run_experiment env agents args out_dir n0 in
  (forall k,
      (k < Z.to_nat n_segments)%nat -> ok k = false ->
      (forall j, (j < k)%nat -> ok j = true) ->
      fst (fst run) = Exit 1 /\
      written (snd (fst run)) = [] /\
      solver_cmds (snd (fst run)) = List.map cmd_at (seq 0 (S k)) /\
      snd run = (n0 + S k)%nat) /\
  (written (snd (fst run)) <> [] ->
   forall j, (j < Z.to_nat n_segments)%nat -> ok j = true) /\
  ((forall j, (j < Z.to_nat n_segments)%nat -> ok j = true) ->
   (exists s, fst (fst run) = Return s) /\
   written (snd (fst run)) = [(out_dir, "waypoint_summary.json");
                              (out_dir, "waypoint_summary.txt")] /\
   solver_cmds (snd (fst run)) = List.map cmd_at (seq 0 (Z.to_nat n_segments))).
Proof.
  intros Hcount seg_timeout cmd_at ok run.
  assert (Hstop : forall k,
      (k < Z.to_nat n_segments)%nat -> ok k = false ->
      (forall j, (j < k)%nat -> ok j = true) ->
      fst (fst run) = Exit 1 /\
      written (snd (fst run)) = [] /\
      solver_cmds (snd (fst run)) = List.map cmd_at (seq 0 (S k)) /\
      snd run = (n0 + S k)%nat).
  { intros k Hk Hfail Hbefore.
    destruct (run_experiment_stops env agents args out_dir n0 n_segments Hcount
                k Hk Hbefore Hfail) as [ev [Hrun [Hc [Hw _]]]].
    unfold run. rewrite Hrun. cbn [fst snd]. repeat split; assumption. }
  split; [exact Hstop|]. split.
  - intros Hwritten.
    destruct (all_or_first_failure ok (Z.to_nat n_segments))
      as [Hall | [k [Hk [Hfail Hbefore]]]]; [exact Hall|].
    destruct (Hstop k Hk Hfail Hbefore) as [_ [Hw _]]. contradiction.
  - intros Hall.
    destruct (run_experiment_completes env agents args out_dir n0 n_segments
                Hcount Hall) as [s [ev [Hrun [Hc [Hw _]]]]].
    unfold run. rewrite Hrun. cbn [fst snd].
    split; [exists s; reflexivity|]. split; assumption.
Qed.

Lemma run_experiment_fails_fast_witness :
  count_segments [agent_A; agent_B] = Ok 2 /\
  fst (fst (run_experiment moody_env [agent_A; agent_B] single_args "out" 0%nat))
    = Exit 1 /\
  written (snd (fst (run_experiment moody_env [agent_A; agent_B] single_args
                       "out" 0%nat))) = [].
Proof.
  split; [reflexivity|].
  assert (H := proj1 (run_experiment_fails_fast moody_env [agent_A; agent_B]
                        single_args "out" 0%nat 2 eq_refl) 0%nat).
  cbv zeta in H.
  destruct H as [Hexit [Hw _]].
  - simpl. lia.
  - reflexivity.
  - intros j Hj. lia.
  - split; [exact Hexit | exact Hw].
Defined.

(** C5.  For every non-empty list of agents the number of segments of the
    experiment is one more than the largest waypoint count among its
    agents: [count_segments] is [m + 1] where [m] is the waypoint count of
    some agent and no agent has more, which is 1 when no agent has a
    waypoint; an experiment that returns its summary has made exactly
    [m + 1] solver runs and recorded [m + 1] segments; whatever the solver
    does, the experiment runs the segments [0], [1], ... in order and never
    more than [m + 1] of them; and when every solver run returns a cost it
    runs exactly the segments [0] to [m], once each, and returns a summary
    with [m + 1] segments. *)
Theorem experiment_has_max_plus_one_segments (agents : list agent) :
  agents <> [] ->
  exists m,
    count_segments agents = Ok (m + 1) /\
    (exists a, In a agents /\ waypoint_count a = m) /\
    (forall a, In a agents -> waypoint_count a <= m) /\
    ((forall a, In a agents -> waypoint_count a = 0) -> m + 1 = 1) /\
    (forall env args out_dir n0 s ev n',
      run_experiment env agents args out_dir n0 = (Return s, ev, n') ->
      num_segments s = m + 1 /\
      Z.of_nat (List.length (solver_cmds ev)) = m + 1 /\
      Z.of_nat n' = Z.of_nat n0 + (m + 1)) /\
    forall env args out_dir n0,
      let cmd_at :=
        segment_cmd env agents args (Z.max 1 (a_timeout args / (m + 1))) in
      let run := run_experiment env agents args out_dir n0 in
      (exists k, (1 <= k <= Z.to_nat (m + 1))%nat /\
                 solver_cmds (snd (fst run)) = List.map cmd_at (seq 0 k)) /\
      ((forall j, (j < Z.to_nat (m + 1))%nat ->
                  returns_cost (solver env (n0 + j) (cmd_at j)) = true) ->
       exists s,
         fst (fst run) = Return s /\ num_segments s = m + 1 /\
         solver_cmds (snd (fst run))
         = List.map cmd_at (seq 0 (Z.to_nat (m + 1))) /\
         snd run = (n0 + Z.to_nat (m + 1))%nat).
Proof.
  intros Hne. destruct agents as [|a0 rest]; [contradiction|].
  set (x := Z.of_nat (List.length (waypoints a0))).
  set (xs := List.map (fun a => Z.of_nat (List.length (waypoints a))) rest).
  exists (fold_left Z.max xs x).
  assert (Hcount : count_segments (a0 :: rest) = Ok (fold_left Z.max xs x + 1))
    by reflexivity.
  assert (Hatt : exists a, In a (a0 :: rest)
                           /\ waypoint_count a = fold_left Z.max xs x).
  { destruct (fold_max_attained xs x) as [E | Hin].
    - exists a0. split; [left; reflexivity | rewrite E; reflexivity].
    - unfold xs in Hin. apply in_map_iff in Hin.
      destruct Hin as [a [Ha Hin]]. exists a. split; [right; exact Hin | exact Ha]. }
  assert (Hub : forall a, In a (a0 :: rest)
                          -> waypoint_count a <= fold_left Z.max xs x).
  { intros a [<- | Hin].
    - apply fold_max_ge.
    - apply fold_max_upper. unfold xs.
      apply in_map_iff. exists a. split; [reflexivity | exact Hin]. }
  split; [exact Hcount|]. split; [exact Hatt|]. split; [exact Hub|]. split.
  { intros Hzero. destruct Hatt as [a [Hin Ha]].
    rewrite <- Ha, (Hzero a Hin). reflexivity. }
  pose proof (count_segments_positive _ _ Hcount) as Hpos.
  set (n := fold_left Z.max xs x + 1) in *.
  split.
  - intros env args out_dir n0 s ev n' Hrun.
    destruct (all_or_first_failure
                (fun j => returns_cost
                   (solver env (n0 + j)
                      (segment_cmd env (a0 :: rest) args
                         (Z.max 1 (a_timeout args / n)) j)))
                (Z.to_nat n)) as [Hall | [k [Hk [Hfail Hbefore]]]].
    + destruct (run_experiment_completes env (a0 :: rest) args out_dir n0 n
                  Hcount Hall) as [s' [ev' [Hrun' [Hc [_ [_ [Hn _]]]]]]].
      rewrite Hrun in Hrun'. injection Hrun' as -> -> ->.
      split; [exact Hn|]. split.
      * rewrite Hc, length_map, length_seq. lia.
      * lia.
    + destruct (run_experiment_stops env (a0 :: rest) args out_dir n0 n Hcount k
                  Hk Hbefore Hfail) as [ev' [Hrun' _]].
      rewrite Hrun in Hrun'. discriminate.
  - intros env args out_dir n0. cbv zeta.
    assert (Hok : (forall j, (j < Z.to_nat n)%nat ->
                     returns_cost
                       (solver env (n0 + j)
                          (segment_cmd env (a0 :: rest) args
                             (Z.max 1 (a_timeout args / n)) j)) = true) ->
                  exists s,
                    fst (fst (run_experiment env (a0 :: rest) args out_dir n0))
                    = Return s /\ num_segments s = n /\
                    solver_cmds
                      (snd (fst (run_experiment env (a0 :: rest) args out_dir n0)))
                    = List.map (segment_cmd env (a0 :: rest) args
                                  (Z.max 1 (a_timeout args / n)))
                        (seq 0 (Z.to_nat n)) /\
                    snd (run_experiment env (a0 :: rest) args out_dir n0)
                    = (n0 + Z.to_nat n)%nat).
    { intros Hall.
      destruct (run_experiment_completes env (a0 :: rest) args out_dir n0 n
                  Hcount Hall) as [s [ev [Hrun [Hc [_ [_ [Hn _]]]]]]].
      exists s. rewrite Hrun. cbn [fst snd]. repeat split; assumption. }
    split; [|exact Hok].
    destruct (all_or_first_failure
                (fun j => returns_cost
                   (solver env (n0 + j)
                      (segment_cmd env (a0 :: rest) args
                         (Z.max 1 (a_timeout args / n)) j)))
                (Z.to_nat n)) as [Hall | [k [Hk [Hfail Hbefore]]]].
    + destruct (Hok Hall) as [s [_ [_ [Hc _]]]].
      exists (Z.to_nat n). split; [lia | exact Hc].
    + destruct (run_experiment_stops env (a0 :: rest) args out_dir n0 n Hcount k
                  Hk Hbefore Hfail) as [ev [Hrun [Hc _]]].
      exists (S k). rewrite Hrun. cbn [fst snd]. split; [lia | exact Hc].
Qed.

Lemma experiment_has_max_plus_one_segments_witness :
  [agent_A; agent_B] <> [] /\
  count_segments [agent_A; agent_B] = Ok 2 /\
  exists s,
    fst (fst (run_experiment steady_env [agent_A; agent_B] single_args "out"
                0%nat)) = Return s /\
    num_segments s = 2 /\
    List.length
      (solver_cmds
         (snd (fst (run_experiment steady_env [agent_A; agent_B] single_args
                      "out" 0%nat)))) = 2%nat.
Proof.
  split; [discriminate|]. split; [reflexivity|].
  destruct (experiment_has_max_plus_one_segments [agent_A; agent_B])
    as [m [Hc [_ [_ [_ [_ Hrun]]]]]].
  - discriminate.
  - assert (Hm : m = 1) by (injection Hc as Hc; lia). subst m.
    destruct (proj2 (Hrun steady_env single_args "out" 0%nat))
      as [s [Hs [Hn [Hcmds _]]]].
    + intros j _. reflexivity.
    + exists s. split; [exact Hs|]. split; [exact Hn|].
      rewrite Hcmds. reflexivity.
Defined.

(** *** The loop over agent counts *)

Lemma run_experiment_log (env : environment) (agents : list agent)
    (args : arguments) (out_dir : string) (n0 : nat) :
  experiments_started (snd (fst (run_experiment env agents args out_dir n0))) = []
  /\ Forall is_summary_file
       (written (snd (fst (run_experiment env agents args out_dir n0)))).
Proof.
  destruct (count_segments agents) as [n|e] eqn:Hcount.
  - destruct (all_or_first_failure
                (fun j => returns_cost
                   (solver env (n0 + j)
                      (segment_cmd env agents args
                         (Z.max 1 (a_timeout args / n)) j)))
                (Z.to_nat n)) as [Hall | [k [Hk [Hfail Hbefore]]]].
    + destruct (run_experiment_completes env agents args out_dir n0 n Hcount Hall)
        as [s [ev [-> [_ [Hw [Hs _]]]]]].
      cbn [fst snd]. split; [exact Hs|]. rewrite Hw.
      constructor; [left; reflexivity|].
      constructor; [right; reflexivity | constructor].
    + destruct (run_experiment_stops env agents args out_dir n0 n Hcount k Hk
                  Hbefore Hfail) as [ev [-> [_ [Hw Hs]]]].
      cbn [fst snd]. split; [exact Hs|]. rewrite Hw. constructor.
  - unfold run_experiment, bindM, lift. rewrite Hcount. cbn [fst snd].
    split; [reflexivity | constructor].
Qed.

(** One scale point: its own start line is the only one printed, and what
    [run_experiment] ends with other than a summary ends the pass too. *)
Lemma run_scale_point_log (env : environment) (agents : list agent)
    (args : arguments) (acc : list (Z * summary)) (c : Z) (n : nat) :
  let r := run_scale_point env agents args acc c n in
  let e := run_experiment env (current_agents agents c) args
             (current_out_dir args c) n in
  experiments_started (snd (fst r)) = [c] /\
  Forall is_summary_file (written (snd (fst r))) /\
  solver_cmds (snd (fst r)) = solver_cmds (snd (fst e)) /\
  snd r = snd e /\
  match fst (fst e) with
  | Return s => fst (fst r) = Return (acc ++ [(c, s)])%list
  | Exit code => fst (fst r) = Exit code
  | Uncaught x => fst (fst r) = Uncaught x
  end.
Proof.
  intros r e.
  destruct (run_experiment_log env (current_agents agents c) args
              (current_out_dir args c) n) as [Hs Hw].
  subst r e. unfold run_scale_point. rewrite bindM_emit. cbn [fst snd].
  revert Hs Hw.
  generalize (run_experiment env (current_agents agents c) args
                (current_out_dir args c)).
  intros m Hs Hw. unfold bindM, emit, ret.
  destruct (m n) as [[[s|code|x] ev] n']; cbn [fst snd] in *;
    unfold experiments_started, written, solver_cmds in *.
  - change (?a :: (?l ++ ?b)%list) with ([a] ++ (l ++ b))%list.
    rewrite !project_app, Hs. cbn [project flat_map app].
    rewrite ?app_nil_r. repeat split; try reflexivity. exact Hw.
  - change (?a :: ?l) with ([a] ++ l)%list.
    rewrite !project_app, Hs. cbn [project flat_map app].
    repeat split; try reflexivity. exact Hw.
  - change (?a :: ?l) with ([a] ++ l)%list.
    rewrite !project_app, Hs. cbn [project flat_map app].
    repeat split; try reflexivity. exact Hw.
Qed.

(** Scale points that all return: each has been started, in order. *)
Lemma scale_points_returned (env : environment) (agents : list agent)
    (args : arguments) (counts : list Z) :
  forall acc n rs ev n',
    for_each counts (run_scale_point env agents args) acc n = (Return rs, ev, n') ->
    experiments_started ev = counts /\ Forall is_summary_file (written ev).
Proof.
  induction counts as [|c counts IH]; intros acc n rs ev n' Hrun.
  - cbn [for_each] in Hrun. unfold ret in Hrun. injection Hrun as _ <- _.
    split; [reflexivity | constructor].
  - cbn [for_each] in Hrun. unfold bindM in Hrun.
    destruct (run_scale_point_log env agents args acc c n)
      as [Hs [Hw [_ [_ Hout]]]].
    destruct (run_scale_point env agents args acc c n) as [[o1 ev1] n1].
    cbn [fst snd] in *.
    destruct o1 as [acc1|code|x]; try discriminate.
    destruct (for_each counts (run_scale_point env agents args) acc1 n1)
      as [[o2 ev2] n2] eqn:Hrest.
    injection Hrun as -> <- _.
    destruct (IH acc1 n1 rs ev2 n2 Hrest) as [Hs2 Hw2].
    unfold experiments_started, written in *.
    rewrite !project_app, Hs, Hs2. split; [reflexivity|].
    apply Forall_app. split; assumption.
Qed.

Lemma for_each_app {A S} (xs ys : list A) (body : S -> A -> M S) :
  forall acc n acc1 ev1 n1,
    for_each xs body acc n = (Return acc1, ev1, n1) ->
    for_each (xs ++ ys)%list body acc n
    = (fst (fst (for_each ys body acc1 n1)),
       (ev1 ++ snd (fst (for_each ys body acc1 n1)))%list,
       snd (for_each ys body acc1 n1)).
Proof.
  induction xs as [|x xs IH]; intros acc n acc1 ev1 n1 Hrun.
  - cbn [for_each] in Hrun. unfold ret in Hrun. injection Hrun as <- <- <-.
    change ([] ++ ys)%list with ys.
    destruct (for_each ys body acc n) as [[o ev] n']. reflexivity.
  - change (for_each ((x :: xs) ++ ys) body acc n)
      with (bindM (body acc x) (for_each (xs ++ ys) body) n).
    change (for_each (x :: xs) body acc n)
      with (bindM (body acc x) (for_each xs body) n) in Hrun.
    unfold bindM in *.
    destruct (body acc x n) as [[o ev] n'].
    destruct o as [a|code|e]; try discriminate.
    destruct (for_each xs body a n') as [[o2 ev2] n2] eqn:Hxs.
    injection Hrun as -> <- <-.
    rewrite (IH a n' acc1 ev2 n2 Hxs). cbn [fst snd].
    now rewrite app_assoc.
Qed.

(** C3 as the code has it.  When the experiments of the agent counts
    [pre] have returned and the experiment of the next count [c] ends in
    [sys.exit], the whole sweep ends there with the same exit code: the
    scale points started are exactly [pre] and [c], none of the later
    counts [post]; no solver run is made beyond those of these experiments,
    and the only report files written are summary files of single
    experiments, never a multi-scale summary. *)
Theorem sweep_ends_at_failed_scale_point (env : environment)
    (agents : list agent) (args : arguments) (n0 : nat)
    (pre post : list Z) (c : Z) (rs : list (Z * summary))
    (ev1 ev2 : list event) (n1 n2 : nat) (code : Z) :
  Lacam.agent_counts args agents = (pre ++ c :: post)%list ->
  for_each pre (run_scale_point env agents args) [] n0 = (Return rs, ev1, n1) ->
  run_experiment env (current_agents agents c) args (current_out_dir args c) n1
    = (Exit code, ev2, n2) ->
  exists ev,
    sweep env agents args n0 = (Exit code, ev, n2) /\
    experiments_started ev = (pre ++ [c])%list /\
    solver_cmds ev = (solver_cmds ev1 ++ solver_cmds ev2)%list /\
    Forall is_summary_file (written ev).
Proof.
  intros Hcounts Hpre Hexp.
  destruct (scale_points_returned env agents args pre [] n0 rs ev1 n1 Hpre)
    as [Hs1 Hw1].
  destruct (run_scale_point_log env agents args rs c n1)
    as [Hs [Hw [Hc [Hn Hout]]]].
  rewrite Hexp in Hc, Hn, Hout. cbn [fst snd] in Hc, Hn, Hout.
  destruct (run_scale_point env agents args rs c n1) as [[o evc] nc] eqn:Hpoint.
  cbn [fst snd] in *. subst o nc.
  exists (ev1 ++ evc)%list. split.
  - unfold sweep. apply bindM_exit. rewrite Hcounts.
    rewrite (for_each_app pre (c :: post) _ [] n0 rs ev1 n1 Hpre).
    cbn [for_each]. rewrite (bindM_exit _ _ n1 n2 code evc Hpoint).
    reflexivity.
  - unfold experiments_started, written, solver_cmds in *.
    rewrite !project_app, Hs1, Hs, Hc.
    repeat split; try reflexivity. apply Forall_app. split; assumption.
Qed.

Lemma sweep_ends_at_failed_scale_point_witness :
  exists ev,
    sweep moody_env [agent_B] multi_args 0%nat = (Exit 1, ev, 1%nat) /\
    experiments_started ev = [100] /\
    Forall is_summary_file (written ev).
Proof.
  destruct (sweep_ends_at_failed_scale_point moody_env [agent_B] multi_args 0%nat
              [] [200; 300; 400; 500] 100 [] []
              (snd (fst (run_experiment moody_env (current_agents [agent_B] 100)
                           multi_args (current_out_dir multi_args 100) 0%nat)))
              0%nat 1%nat 1 eq_refl eq_refl eq_refl)
    as [ev [Hrun [Hs [_ Hw]]]].
  exists ev. split; [exact Hrun|]. split; [exact Hs | exact Hw].
Defined.

(** C3 as stated fails: with five agent counts requested and the solver
    failing in the experiment of the first, the sweep ends with exit code 1
    after a single solver run, and the experiment for 200 agents is never
    started. *)
Lemma later_scale_points_are_not_run :
  Lacam.agent_counts multi_args [agent_B] = [100; 200; 300; 400; 500] /\
  fst (fst (run_experiment moody_env (current_agents [agent_B] 100) multi_args
              (current_out_dir multi_args 100) 0%nat)) = Exit 1 /\
  sweep moody_env [agent_B] multi_args 0%nat
  = (Exit 1, snd (fst (sweep moody_env [agent_B] multi_args 0%nat)), 1%nat) /\
  experiments_started (snd (fst (sweep moody_env [agent_B] multi_args 0%nat))) = [100] /\
  ~ every_count_is_run moody_env [agent_B] multi_args 0%nat.
Proof.
  split; [reflexivity|]. split; [reflexivity|]. split; [reflexivity|].
  assert (Hs : experiments_started
                 (snd (fst (sweep moody_env [agent_B] multi_args 0%nat))) = [100])
    by reflexivity.
  split; [exact Hs|].
  intros Hall. specialize (Hall 200). rewrite Hs in Hall.
  destruct Hall as [H | []].
  - right. left. reflexivity.
  - discriminate H.
Qed.

(** *** The report of the matrix runner *)

(** A cell succeeds exactly when its child exits with 0 and leaves a
    summary, which its record then holds. *)
Lemma run_single_experiment_success (m : map_config) (w : wp_config) (n : Z)
    (t : attempt) :
  r_status (run_single_experiment m w n t) = "success" ->
  exists out err d wall,
    t = Ended 0 out err (Some d) wall /\
    r_data (run_single_experiment m w n t) = Some d.
Proof.
  destruct t as [rc out err [d|] wall| |msg wall]; unfold run_single_experiment;
    try destruct (rc =? 0) eqn:Hrc; cbn [r_status r_data]; intros H;
    try discriminate H.
  apply Z.eqb_eq in Hrc. subst rc. exists out, err, d, wall. split; reflexivity.
Qed.

(** What the record of a cell that did not succeed holds, and what the
    console shows for it. *)
Lemma run_single_experiment_failed (m : map_config) (w : wp_config) (n : Z)
    (t : attempt) :
  let r := run_single_experiment m w n t in
  r_map r = map_file m /\ r_waypoints r = wp_waypoints w /\
  r_agent_count r = n /\
  match t with
  | Ended rc out err sf wall =>
      (rc <> 0 ->
       r_status r = "failed" /\ r_error r = Some err /\ r_stdout r = Some out /\
       r_data r = None /\ r_wall_time r = wall /\
       immediate_result r
       = Ok ([CellFailed "failed"] ++ shown_text ErrorText err
             ++ shown_text StdoutText out)%list) /\
      (rc = 0 -> sf = None ->
       r_status r = "no_summary" /\ r_error r = Some "Summary file not found" /\
       r_stdout r = None /\ r_data r = None /\ r_wall_time r = wall /\
       immediate_result r
       = Ok [CellFailed "no_summary"; ErrorText "Summary file not found"])
  | TimedOut =>
      r_status r = "timeout" /\
      r_error r = Some "Experiment timed out after 5 minutes" /\
      r_stdout r = None /\ r_data r = None /\ r_wall_time r = 300%Q /\
      immediate_result r
      = Ok [CellFailed "timeout";
            ErrorText "Experiment timed out after 5 minutes"]
  | Excepted msg wall =>
      r_status r = "error" /\ r_error r = Some msg /\ r_stdout r = None /\
      r_data r = None /\ r_wall_time r = wall /\
      immediate_result r
      = Ok ([CellFailed "error"] ++ shown_text ErrorText msg)%list
  end.
Proof.
  cbv zeta. split; [|split; [|split]].
  1-3: destruct t as [rc out err [d|] wall| |msg wall];
    unfold run_single_experiment; try destruct (rc =? 0); reflexivity.
  destruct t as [rc out err sf wall| |msg wall]; unfold run_single_experiment.
  - split.
    + intros Hrc. apply Z.eqb_neq in Hrc. rewrite Hrc.
      repeat split. unfold immediate_result, truthy, shown_text.
      cbn [r_status r_error r_stdout String.eqb Ascii.eqb Bool.eqb].
      destruct (String.eqb err EmptyString), (String.eqb out EmptyString);
        reflexivity.
    + intros -> ->. cbn [Z.eqb]. repeat split.
  - repeat split.
  - repeat split. unfold immediate_result, truthy, shown_text.
    cbn [r_status r_error r_stdout String.eqb Ascii.eqb Bool.eqb].
    destruct (String.eqb msg EmptyString); reflexivity.
Qed.

(** The tag of a cell that did not succeed, and what the table keeps of
    it. *)
Lemma run_single_experiment_tag (m : map_config) (w : wp_config) (n : Z)
    (t : attempt) :
  let r := run_single_experiment m w n t in
  r_status r <> "success" ->
  (r_status r = "failed" \/ r_status r = "timeout" \/ r_status r = "error"
   \/ r_status r = "no_summary") /\
  (r_status r <> "no_summary" -> str_slice_to (r_status r) 9 = r_status r) /\
  (r_status r = "no_summary" -> str_slice_to (r_status r) 9 = "no_summar").
Proof.
  cbv zeta.
  destruct t as [rc out err [d|] wall| |msg wall]; unfold run_single_experiment;
    try destruct (rc =? 0); cbn [r_status]; intros Hs;
    try (exfalso; apply Hs; reflexivity);
    (split; [auto|]); split; first [reflexivity | discriminate
                                   | intros H; exfalso; apply H; reflexivity].
Qed.

Lemma immediate_result_readable (r : cell_result) (d : json) :
  r_status r = "success" -> r_data r = Some d -> summary_readable d = true ->
  exists c runtime, immediate_result r = Ok [CellSucceeded c runtime].
Proof.
  intros Hs Hd Hr. unfold immediate_result, result_data.
  rewrite Hs, Hd. cbn [String.eqb Ascii.eqb Bool.eqb bind].
  unfold summary_readable in Hr.
  apply andb_true_iff in Hr. destruct Hr as [Hr _].
  apply andb_true_iff in Hr. destruct Hr as [Hc Ht].
  destruct (entry d "global_results" "total_cost") as [[]|];
    try discriminate Hc;
    destruct (entry d "global_results" "total_runtime_ms") as [[]|];
    try discriminate Ht; cbn [bind number_of]; eexists; eexists; reflexivity.
Qed.

(** The console line of a successful cell is printed exactly when the
    cost and the runtime are found as numbers. *)
Lemma immediate_result_numeric (r : cell_result) (d : json)
    (shown : list console_line) :
  r_status r = "success" -> r_data r = Some d ->
  immediate_result r = Ok shown ->
  numeric (entry d "global_results" "total_cost") = true /\
  numeric (entry d "global_results" "total_runtime_ms") = true.
Proof.
  intros Hs Hd. unfold immediate_result, result_data.
  rewrite Hs, Hd. cbn [String.eqb Ascii.eqb Bool.eqb bind].
  destruct (entry d "global_results" "total_cost") as [[]|];
    cbn [bind]; try discriminate;
    destruct (entry d "global_results" "total_runtime_ms") as [[]|];
    cbn [bind number_of]; try discriminate; intros _; split; reflexivity.
Qed.

Section ReportFacts.

Variable fmt_f0 fmt_f1 : Q -> string.
Variable fmt_thousands : Z -> string.
Variable fmt_thousands_float : Q -> string.

Let row_of : cell_result -> res string :=
  table_row fmt_f0 fmt_f1 fmt_thousands fmt_thousands_float.

Lemma table_row_failed (r : cell_result) :
  r_status r <> "success" -> row_of r = Ok (failed_row r).
Proof.
  intros Hs. unfold row_of, table_row.
  destruct (String.eqb_spec (r_status r) "success") as [E|_]; [contradiction|].
  reflexivity.
Qed.

Lemma table_row_readable (r : cell_result) (d : json) :
  r_status r = "success" -> r_data r = Some d -> summary_readable d = true ->
  exists row, row_of r = Ok row.
Proof.
  intros Hs Hd Hr. unfold row_of, table_row, result_data.
  rewrite Hs, Hd. cbn [String.eqb Ascii.eqb Bool.eqb bind].
  unfold summary_readable in Hr.
  apply andb_true_iff in Hr. destruct Hr as [Hr Ha].
  apply andb_true_iff in Hr. destruct Hr as [Hc Ht].
  destruct (entry d "global_results" "total_runtime_ms") as [[]|];
    try discriminate Ht;
    destruct (entry d "global_results" "total_cost") as [[]|];
    try discriminate Hc;
    destruct (entry d "performance_metrics" "avg_cost_per_agent") as [[]|];
    try discriminate Ha; cbn [bind number_of]; eexists; reflexivity.
Qed.

(** The row of a successful cell is written exactly when the summary is
    readable. *)
Lemma table_row_numeric (r : cell_result) (d : json) (row : string) :
  r_status r = "success" -> r_data r = Some d -> row_of r = Ok row ->
  summary_readable d = true.
Proof.
  intros Hs Hd. unfold row_of, table_row, result_data, summary_readable.
  rewrite Hs, Hd. cbn [String.eqb Ascii.eqb Bool.eqb bind].
  destruct (entry d "global_results" "total_runtime_ms") as [[]|];
    cbn [bind number_of]; try discriminate;
    destruct (entry d "global_results" "total_cost") as [[]|];
    cbn [bind number_of]; try discriminate;
    destruct (entry d "performance_metrics" "avg_cost_per_agent") as [[]|];
    cbn [bind number_of]; try discriminate; intros _; reflexivity.
Qed.

Lemma table_rows_total (results : list cell_result) :
  (forall r, In r results -> exists row, row_of r = Ok row) ->
  exists rows,
    table_rows fmt_f0 fmt_f1 fmt_thousands fmt_thousands_float results
    = (rows, None) /\
    Forall2 (fun r row => row_of r = Ok row) results rows.
Proof.
  induction results as [|r rest IH]; intros Hrow.
  - exists []. split; [reflexivity | constructor].
  - destruct IH as [rows [Hrows Hall]].
    { intros r' Hin. apply Hrow. right. exact Hin. }
    destruct (Hrow r (or_introl eq_refl)) as [row Hr].
    exists (row :: rows). split.
    + cbn [table_rows]. fold row_of. rewrite Hr, Hrows. reflexivity.
    + constructor; assumption.
Qed.

(** The table is complete only if every row could be written; when a row
    raises, the rows before it are in the file and none after. *)
Lemma table_rows_written (results : list cell_result) :
  forall rows oe,
    table_rows fmt_f0 fmt_f1 fmt_thousands fmt_thousands_float results
    = (rows, oe) ->
    match oe with
    | None => Forall2 (fun r row => row_of r = Ok row) results rows
    | Some e =>
        (List.length rows < List.length results)%nat /\
        exists r, nth_error results (List.length rows) = Some r /\
                  row_of r = Raise e
    end.
Proof.
  induction results as [|r rest IH]; intros rows oe H; cbn [table_rows] in H.
  - injection H as <- <-. constructor.
  - fold row_of in H. destruct (row_of r) as [row|e] eqn:Hr.
    + injection H as <- <-.
      specialize (IH _ _ (surjective_pairing _)).
      destruct (snd (table_rows fmt_f0 fmt_f1 fmt_thousands fmt_thousands_float
                       rest)) as [e|].
      * destruct IH as [Hlen [r' [Hn Hr']]]. cbn [List.length]. split; [lia|].
        exists r'. split; [exact Hn | exact Hr'].
      * constructor; assumption.
    + injection H as <- <-. cbn [List.length]. split; [lia|].
      exists r. split; [reflexivity | exact Hr].
Qed.

Lemma failed_rows_nth (results : list cell_result) (rows : list string) :
  Forall2 (fun r row => row_of r = Ok row) results rows ->
  forall k r,
    nth_error results k = Some r -> r_status r <> "success" ->
    nth_error rows k = Some (failed_row r).
Proof.
  induction 1 as [|r' row rs rows' Hrr Hall IH]; intros k r Hk Hstatus.
  - destruct k; discriminate.
  - destruct k as [|k]; cbn [nth_error] in *.
    + injection Hk as ->. rewrite table_row_failed in Hrr by exact Hstatus.
      congruence.
    + apply IH; assumption.
Qed.

End ReportFacts.

(** The record of a readable experiment can be shown and tabulated. *)
Lemma readable_record (fmt_f0 fmt_f1 : Q -> string)
    (fmt_thousands : Z -> string) (fmt_thousands_float : Q -> string)
    (m : map_config) (w : wp_config) (n : Z) (t : attempt) :
  readable t = true ->
  (exists shown, immediate_result (run_single_experiment m w n t) = Ok shown) /\
  (exists row,
      table_row fmt_f0 fmt_f1 fmt_thousands fmt_thousands_float
        (run_single_experiment m w n t) = Ok row).
Proof.
  intros Hr.
  destruct (String.eqb_spec (r_status (run_single_experiment m w n t)) "success")
    as [Hs | Hs].
  - destruct (run_single_experiment_success m w n t Hs)
      as [out [err [d [wall [-> Hd]]]]].
    cbn [readable Z.eqb negb orb] in Hr. split.
    + destruct (immediate_result_readable _ d Hs Hd Hr) as [c [rt H]].
      eexists. exact H.
    + apply (table_row_readable _ _ _ _ _ d Hs Hd Hr).
  - split.
    + unfold immediate_result.
      destruct (String.eqb_spec (r_status (run_single_experiment m w n t))
                  "success") as [E|_]; [contradiction|].
      eexists. reflexivity.
    + eexists. apply table_row_failed, Hs.
Qed.

(** The record of an experiment that is not readable raises at the
    console line or, if not there, at its row. *)
Lemma unreadable_record (fmt_f0 fmt_f1 : Q -> string)
    (fmt_thousands : Z -> string) (fmt_thousands_float : Q -> string)
    (m : map_config) (w : wp_config) (n : Z) (t : attempt) :
  readable t = false ->
  forall row,
    table_row fmt_f0 fmt_f1 fmt_thousands fmt_thousands_float
      (run_single_experiment m w n t) <> Ok row.
Proof.
  intros Hr row Hrow.
  destruct t as [rc out err [d|] wall| |msg wall]; try discriminate Hr.
  cbn [readable] in Hr. apply orb_false_iff in Hr. destruct Hr as [Hrc Hd].
  apply negb_false_iff in Hrc.
  assert (Hs : r_status (run_single_experiment m w n
                           (Ended rc out err (Some d) wall)) = "success")
    by (unfold run_single_experiment; rewrite Hrc; reflexivity).
  assert (Hdata : r_data (run_single_experiment m w n
                            (Ended rc out err (Some d) wall)) = Some d)
    by (unfold run_single_experiment; rewrite Hrc; reflexivity).
  rewrite (table_row_numeric _ _ _ _ _ d row Hs Hdata Hrow) in Hd.
  discriminate Hd.
Qed.

(** The loops of the matrix: the records are those of the cells, in
    order, and what is shown for a record is on the console. *)
Lemma run_cells_nth (cells : list (map_config * wp_config * Z))
    (world : nat -> attempt) :
  forall k0 j r,
    nth_error (fst (fst (run_cells cells world k0))) j = Some r ->
    (exists m w n,
        nth_error cells j = Some (m, w, n) /\
        r = run_single_experiment m w n (world (k0 + j)%nat)) /\
    (forall shown, immediate_result r = Ok shown ->
                   incl shown (snd (fst (run_cells cells world k0)))).
Proof.
  induction cells as [|[[m w] n] cells IH]; intros k0 j r Hnth.
  - cbn [run_cells fst] in Hnth. destruct j; discriminate.
  - cbn [run_cells] in Hnth |- *.
    destruct (immediate_result (run_single_experiment m w n (world k0)))
      as [shown|e] eqn:Hshown; cbn [fst snd] in Hnth |- *.
    + destruct j as [|j]; cbn [nth_error] in Hnth.
      * injection Hnth as <-. split.
        -- exists m, w, n. split; [reflexivity|]. now rewrite Nat.add_0_r.
        -- intros shown' E x Hx. rewrite Hshown in E. injection E as <-.
           right. apply in_or_app. left. exact Hx.
      * destruct (IH (S k0) j r Hnth) as [[m' [w' [n' [Hc Hr]]]] Hincl].
        split.
        -- exists m', w', n'. split; [exact Hc|].
           rewrite Hr. f_equal. f_equal. lia.
        -- intros shown' E x Hx. right. apply in_or_app. right.
           exact (Hincl shown' E x Hx).
    + destruct j as [|[|j]]; cbn [nth_error] in Hnth; try discriminate Hnth.
      injection Hnth as <-. split.
      * exists m, w, n. split; [reflexivity|]. now rewrite Nat.add_0_r.
      * intros shown' E. rewrite Hshown in E. discriminate E.
Qed.

(** The loops run every cell when every immediate result can be
    printed. *)
Lemma run_cells_total (cells : list (map_config * wp_config * Z))
    (world : nat -> attempt) :
  forall k0,
    (forall j m w n,
        nth_error cells j = Some (m, w, n) ->
        exists shown,
          immediate_result (run_single_experiment m w n (world (k0 + j)%nat))
          = Ok shown) ->
    snd (run_cells cells world k0) = None /\
    List.length (fst (fst (run_cells cells world k0))) = List.length cells.
Proof.
  induction cells as [|[[m w] n] cells IH]; intros k0 Hok.
  - split; reflexivity.
  - destruct (Hok 0%nat m w n eq_refl) as [shown Hshown].
    rewrite Nat.add_0_r in Hshown.
    destruct (IH (S k0)) as [Hnone Hlen].
    { intros j m' w' n' Hj.
      replace (S k0 + j)%nat with (k0 + S j)%nat by lia.
      apply (Hok (S j)). exact Hj. }
    cbn [run_cells]. rewrite Hshown. cbn [fst snd List.length].
    split; [exact Hnone | now rewrite Hlen].
Qed.

(** The loops end at the first record whose immediate result raises:
    never more records than cells, and with an exception fewer lines than
    a full run. *)
Lemma run_cells_length (cells : list (map_config * wp_config * Z))
    (world : nat -> attempt) :
  forall k0,
    (List.length (fst (fst (run_cells cells world k0))) <= List.length cells)%nat /\
    (snd (run_cells cells world k0) = None ->
     List.length (fst (fst (run_cells cells world k0))) = List.length cells /\
     forall r, In r (fst (fst (run_cells cells world k0))) ->
               exists shown, immediate_result r = Ok shown).
Proof.
  induction cells as [|[[m w] n] cells IH]; intros k0.
  - cbn [run_cells fst snd List.length]. split; [lia|].
    intros _. split; [reflexivity | intros r []].
  - cbn [run_cells].
    destruct (immediate_result (run_single_experiment m w n (world k0)))
      as [shown|e] eqn:Hshown; cbn [fst snd List.length].
    + destruct (IH (S k0)) as [Hle Hnone]. split; [lia|].
      intros H. destruct (Hnone H) as [Hlen Hall]. split; [lia|].
      intros r [<- | Hin]; [exists shown; exact Hshown | apply Hall, Hin].
    + split; [lia | discriminate].
Qed.

Lemma immediate_result_failed (r : cell_result) :
  r_status r <> "success" ->
  exists shown,
    immediate_result r = Ok shown /\
    In (CellFailed (r_status r)) shown /\
    (forall e, truthy (r_error r) = Some e ->
               In (ErrorText (str_slice_to e 100)) shown) /\
    (forall o, truthy (r_stdout r) = Some o ->
               In (StdoutText (str_slice_to o 100)) shown).
Proof.
  intros Hs. unfold immediate_result.
  destruct (String.eqb_spec (r_status r) "success") as [E|_]; [contradiction|].
  eexists. split; [reflexivity|].
  split; [apply in_or_app; left; left; reflexivity|]. split.
  - intros e ->. apply in_or_app. right. apply in_or_app. left. left. reflexivity.
  - intros o ->. apply in_or_app. right. apply in_or_app. right. left. reflexivity.
Qed.

Lemma nth_error_in_range {A} (l : list A) (k : nat) :
  (k < List.length l)%nat -> exists x, nth_error l k = Some x.
Proof.
  intros Hk. destruct (nth_error l k) as [x|] eqn:E; [exists x; reflexivity|].
  apply nth_error_None in E. lia.
Qed.

Lemma Forall2_nth {A B} (P : A -> B -> Prop) (xs : list A) (ys : list B) :
  Forall2 P xs ys ->
  forall k x, nth_error xs k = Some x ->
              exists y, nth_error ys k = Some y /\ P x y.
Proof.
  induction 1 as [|x0 y0 xs ys H0 _ IH]; intros k x Hk.
  - destruct k; discriminate.
  - destruct k as [|k]; cbn [nth_error] in *.
    + injection Hk as <-. exists y0. split; [reflexivity | exact H0].
    + apply IH, Hk.
Qed.

(** A matrix of readable experiments runs to its end and is reported in
    full. *)
Lemma readable_matrix (fmt_f0 fmt_f1 : Q -> string)
    (fmt_thousands : Z -> string) (fmt_thousands_float : Q -> string)
    (world : nat -> attempt) :
  (forall k, (k < 45)%nat -> readable (world k) = true) ->
  exists results console rows,
    run_all_experiments world = (results, console, None) /\
    generate_comprehensive_report fmt_f0 fmt_f1 fmt_thousands
      fmt_thousands_float results
    = ({| report_json := results; summary_rows := rows |}, None) /\
    List.length results = 45%nat /\
    Forall2 (fun r row =>
               table_row fmt_f0 fmt_f1 fmt_thousands fmt_thousands_float r
               = Ok row) results rows.
Proof.
  intros Hread.
  assert (Hcell : forall j m w n,
             nth_error all_cells j = Some (m, w, n) ->
             readable (world j) = true).
  { intros j m w n Hj. apply Hread.
    assert (j < List.length all_cells)%nat by (apply nth_error_Some; congruence).
    exact H. }
  destruct (run_cells_total all_cells world 0) as [Hnone Hlen].
  { intros j m w n Hj. cbn [Nat.add].
    apply (readable_record fmt_f0 fmt_f1 fmt_thousands fmt_thousands_float
             m w n (world j) (Hcell j m w n Hj)). }
  change (List.length all_cells) with 45%nat in Hlen.
  pose proof (run_cells_nth all_cells world 0) as Hnth.
  unfold run_all_experiments.
  destruct (run_cells all_cells world 0) as [[results console] oe].
  cbn [fst snd] in *. subst oe.
  destruct (table_rows_total fmt_f0 fmt_f1 fmt_thousands fmt_thousands_float
              results) as [rows [Hrows Hall]].
  { intros r Hin. apply In_nth_error in Hin. destruct Hin as [j Hj].
    destruct (Hnth j r Hj) as [[m [w [n [Hc ->]]]] _]. cbn [Nat.add].
    apply (readable_record fmt_f0 fmt_f1 fmt_thousands fmt_thousands_float
             m w n (world j) (Hcell j m w n Hc)). }
  exists results, console, rows.
  split; [reflexivity|]. split; [|split; [exact Hlen | exact Hall]].
  unfold generate_comprehensive_report. rewrite Hlen, Hrows. reflexivity.
Qed.

(** A matrix with an experiment that is not readable is not reported in
    full: an exception ends the loops of the matrix, or all cells are run
    and an exception ends the table before its last row. *)
Lemma unreadable_matrix (fmt_f0 fmt_f1 : Q -> string)
    (fmt_thousands : Z -> string) (fmt_thousands_float : Q -> string)
    (world : nat -> attempt) (k : nat) :
  (k < 45)%nat -> readable (world k) = false ->
  (List.length (fst (fst (run_all_experiments world))) <= 45)%nat /\
  ((exists e, snd (run_all_experiments world) = Some e) \/
   (snd (run_all_experiments world) = None /\
    List.length (fst (fst (run_all_experiments world))) = 45%nat /\
    exists e,
      generate_comprehensive_report fmt_f0 fmt_f1 fmt_thousands
        fmt_thousands_float (fst (fst (run_all_experiments world)))
      = ({| report_json := fst (fst (run_all_experiments world));
            summary_rows :=
              fst (table_rows fmt_f0 fmt_f1 fmt_thousands fmt_thousands_float
                     (fst (fst (run_all_experiments world)))) |}, Some e) /\
      (List.length
         (fst (table_rows fmt_f0 fmt_f1 fmt_thousands fmt_thousands_float
                 (fst (fst (run_all_experiments world))))) < 45)%nat)).
Proof.
  intros Hk Hbad. unfold run_all_experiments.
  pose proof (run_cells_length all_cells world 0) as [Hle Hnone].
  pose proof (run_cells_nth all_cells world 0) as Hnth.
  change (List.length all_cells) with 45%nat in Hle, Hnone.
  destruct (run_cells all_cells world 0) as [[results console] [e|]];
    cbn [fst snd] in *.
  - split; [exact Hle|]. left. exists e. reflexivity.
  - split; [exact Hle|]. right. destruct (Hnone eq_refl) as [Hlen _].
    split; [reflexivity|]. split; [exact Hlen|].
    unfold generate_comprehensive_report. rewrite Hlen. cbn [Nat.eqb].
    pose proof (table_rows_written fmt_f0 fmt_f1 fmt_thousands
                  fmt_thousands_float results _ _ (surjective_pairing _))
      as Hrows.
    destruct (snd (table_rows fmt_f0 fmt_f1 fmt_thousands
                     fmt_thousands_float results)) as [e|].
    + destruct Hrows as [Hshort _]. exists e. split; [reflexivity | lia].
    + exfalso.
      destruct (nth_error_in_range results k) as [r Hr]; [lia|].
      destruct (Hnth k r Hr) as [[m [w [n [_ Hrec]]]] _].
      cbn [Nat.add] in Hrec.
      destruct (Forall2_nth _ _ _ Hrows k r Hr) as [row [_ Hrow]].
      rewrite Hrec in Hrow.
      exact (unreadable_record fmt_f0 fmt_f1 fmt_thousands
               fmt_thousands_float m w n (world k) Hbad row Hrow).
Qed.

(** C8 as the code has it.  The record of a cell that did not succeed
    carries the map, the waypoint count and the agent count of the cell,
    its status tag, no summary data, and an error text: the captured
    standard error, together with the captured standard output, when the
    child process exited with a code other than 0 (tag [failed]); the
    fixed text [Summary file not found] when it exited with 0 and left no
    summary (tag [no_summary]); the fixed text [Experiment timed out after
    5 minutes] when the five minutes ran out (tag [timeout], wall time
    300); the text of the exception otherwise (tag [error]); and in these
    three cases no captured output.  The console shows the tag and the
    first 100 characters of each of these texts that is not empty, and the
    row of the cell shows the first nine characters of the tag ([failed],
    [timeout] and [error] in full, [no_summary] as [no_summar]) and [N/A]
    in the three metric columns.  When every summary left by a child that
    exited with 0 is readable, the matrix runs all its 45 cells and the
    report is produced: comprehensive_report.json holds the record of
    every cell, the table has one row per cell, in order, the lines of
    every cell are on the console, and the row of a cell that did not
    succeed is the one described.  When such a summary is not readable,
    an exception ends the matrix before the report, or ends the table
    before its last row. *)
Theorem failed_cells_are_reported (fmt_f0 fmt_f1 : Q -> string)
    (fmt_thousands : Z -> string) (fmt_thousands_float : Q -> string)
    (world : nat -> attempt) :
  (forall m w n t,
     let r := run_single_experiment m w n t in
     r_map r = map_file m /\ r_waypoints r = wp_waypoints w /\
     r_agent_count r = n /\
     match t with
     | Ended rc out err sf wall =>
         (rc <> 0 ->
          r_status r = "failed" /\ r_error r = Some err /\
          r_stdout r = Some out /\ r_data r = None /\ r_wall_time r = wall /\
          immediate_result r
          = Ok ([CellFailed "failed"] ++ shown_text ErrorText err
                ++ shown_text StdoutText out)%list) /\
         (rc = 0 -> sf = None ->
          r_status r = "no_summary" /\
          r_error r = Some "Summary file not found" /\
          r_stdout r = None /\ r_data r = None /\ r_wall_time r = wall /\
          immediate_result r
          = Ok [CellFailed "no_summary"; ErrorText "Summary file not found"])
     | TimedOut =>
         r_status r = "timeout" /\
         r_error r = Some "Experiment timed out after 5 minutes" /\
         r_stdout r = None /\ r_data r = None /\ r_wall_time r = 300%Q /\
         immediate_result r
         = Ok [CellFailed "timeout";
               ErrorText "Experiment timed out after 5 minutes"]
     | Excepted msg wall =>
         r_status r = "error" /\ r_error r = Some msg /\ r_stdout r = None /\
         r_data r = None /\ r_wall_time r = wall /\
         immediate_result r
         = Ok ([CellFailed "error"] ++ shown_text ErrorText msg)%list
     end /\
     (r_status r = "success" ->
      exists out err d wall, t = Ended 0 out err (Some d) wall) /\
     (r_status r <> "success" ->
      table_row fmt_f0 fmt_f1 fmt_thousands fmt_thousands_float r
      = Ok (failed_row r) /\
      (r_status r = "failed" \/ r_status r = "timeout" \/ r_status r = "error"
       \/ r_status r = "no_summary") /\
      (r_status r <> "no_summary" -> str_slice_to (r_status r) 9 = r_status r) /\
      (r_status r = "no_summary" -> str_slice_to (r_status r) 9 = "no_summar"))) /\
  ((forall k, (k < 45)%nat -> readable (world k) = true) ->
   exists results console rep,
     run_all_experiments world = (results, console, None) /\
     generate_comprehensive_report fmt_f0 fmt_f1 fmt_thousands
       fmt_thousands_float results = (rep, None) /\
     report_json rep = results /\
     List.length results = 45%nat /\
     List.length (summary_rows rep) = 45%nat /\
     forall k r,
       nth_error results k = Some r ->
       record_at world k = Some r /\
       (forall shown, immediate_result r = Ok shown -> incl shown console) /\
       (r_status r <> "success" ->
        In (CellFailed (r_status r)) console /\
        (forall e, truthy (r_error r) = Some e ->
                   In (ErrorText (str_slice_to e 100)) console) /\
        (forall o, truthy (r_stdout r) = Some o ->
                   In (StdoutText (str_slice_to o 100)) console) /\
        nth_error (summary_rows rep) k = Some (failed_row r))) /\
  (forall k, (k < 45)%nat -> readable (world k) = false ->
   (exists e, snd (run_all_experiments world) = Some e) \/
   (exists e,
      snd (generate_comprehensive_report fmt_f0 fmt_f1 fmt_thousands
             fmt_thousands_float (fst (fst (run_all_experiments world))))
      = Some e /\
      (List.length
         (summary_rows
            (fst (generate_comprehensive_report fmt_f0 fmt_f1 fmt_thousands
                    fmt_thousands_float
                    (fst (fst (run_all_experiments world)))))) < 45)%nat)).
Proof.
  split; [|split].
  3:{ intros k Hk Hbad.
      destruct (unreadable_matrix fmt_f0 fmt_f1 fmt_thousands
                  fmt_thousands_float world k Hk Hbad)
        as [_ [Hstop | [_ [_ [e [Hrep Hshort]]]]]]; [left; exact Hstop|].
      right. exists e. rewrite Hrep. cbn [fst snd summary_rows].
      split; [reflexivity | exact Hshort]. }
  - intros m w n t. cbv zeta.
    destruct (run_single_experiment_failed m w n t) as [Hm [Hw [Hn Hcase]]].
    split; [exact Hm|]. split; [exact Hw|]. split; [exact Hn|].
    split; [exact Hcase|]. split.
    + intros Hs.
      destruct (run_single_experiment_success m w n t Hs)
        as [out [err [d [wall [E _]]]]].
      exists out, err, d, wall. exact E.
    + intros Hs. split; [apply table_row_failed, Hs|].
      apply (run_single_experiment_tag m w n t Hs).
  - intros Hread.
    destruct (readable_matrix fmt_f0 fmt_f1 fmt_thousands fmt_thousands_float
                world Hread) as [results [console [rows [Hrun [Hrep [Hlen Hall]]]]]].
    exists results, console, {| report_json := results; summary_rows := rows |}.
    split; [exact Hrun|]. split; [exact Hrep|]. split; [reflexivity|].
    split; [exact Hlen|]. split.
    { cbn [summary_rows]. rewrite <- (Forall2_length Hall). exact Hlen. }
    cbn [summary_rows]. intros k r Hk.
    pose proof (run_cells_nth all_cells world 0 k r) as Hnth.
    unfold run_all_experiments in Hrun. rewrite Hrun in Hnth. cbn [fst snd] in Hnth.
    destruct (Hnth Hk) as [[m [w [n [Hc Hr]]]] Hincl]. cbn [Nat.add] in Hr.
    split; [unfold record_at; rewrite Hc, Hr; reflexivity|].
    split; [exact Hincl|].
    intros Hstatus.
    destruct (immediate_result_failed r Hstatus) as [shown [Hshown [Hf0 [He0 Ho0]]]].
    pose proof (Hincl shown Hshown) as Hsub.
    split; [apply Hsub, Hf0|].
    split; [intros e E; apply Hsub, He0, E|].
    split; [intros o E; apply Hsub, Ho0, E|].
    exact (failed_rows_nth fmt_f0 fmt_f1 fmt_thousands fmt_thousands_float
             _ _ Hall k r Hk Hstatus).
Qed.

Lemma failed_cells_are_reported_witness :
  exists results console rep r,
    run_all_experiments mixed_world = (results, console, None) /\
    generate_comprehensive_report no_format_q no_format_q no_format_z
      no_format_q results = (rep, None) /\
    nth_error results 1 = Some r /\
    r = second_cell TimedOut /\
    In (CellFailed "timeout") console /\
    In (ErrorText "Experiment timed out after 5 minutes") console /\
    nth_error (summary_rows rep) 1 = Some (failed_row r).
Proof.
  assert (Hread : forall k, (k < 45)%nat -> readable (mixed_world k) = true).
  { intros k _. do 5 (destruct k as [|k]; [reflexivity|]). reflexivity. }
  destruct (proj1 (proj2 (failed_cells_are_reported no_format_q no_format_q
                            no_format_z no_format_q mixed_world)) Hread)
    as [results [console [rep [Hrun [Hrep [_ [Hlen [_ Hcells]]]]]]]].
  destruct (nth_error_in_range results 1) as [r Hr]; [rewrite Hlen; lia|].
  destruct (Hcells 1%nat r Hr) as [Hrec [_ Hfailed]].
  injection Hrec as <-.
  exists results, console, rep, (second_cell TimedOut).
  split; [exact Hrun|]. split; [exact Hrep|]. split; [exact Hr|].
  split; [reflexivity|].
  destruct Hfailed as [Hf [He [_ Hrow]]]; [discriminate|].
  split; [exact Hf|]. split; [exact (He _ eq_refl) | exact Hrow].
Defined.

(** C8 as stated fails: a cell whose child process exits with 0 without
    leaving a summary has the status tag [no_summary], and its row in the
    table reads [no_summar]: the tag itself does not occur in the row.
    Besides, a cell that timed out has no captured output in its record,
    and the orchestrator itself writes no file for an experiment that
    fails. *)
Lemma no_summary_row_cuts_the_status_tag :
  r_status (first_cell (Ended 0 EmptyString EmptyString None 1)) = "no_summary" /\
  table_row no_format_q no_format_q no_format_z no_format_q
    (first_cell (Ended 0 EmptyString EmptyString None 1))
  = Ok no_summary_row /\
  occurs "no_summary" no_summary_row = false /\
  occurs "no_summar " no_summary_row = true /\
  r_status (first_cell TimedOut) = "timeout" /\
  r_stdout (first_cell TimedOut) = None /\
  fst (fst (run_experiment moody_env [agent_B] single_args "out" 0%nat)) = Exit 1 /\
  written (snd (fst (run_experiment moody_env [agent_B] single_args "out" 0%nat)))
  = [].
Proof. repeat split; reflexivity. Qed.

(** *** Reading a segment scenario back *)

Lemma all_chars_app (p : ascii -> bool) (a b : string) :
  all_chars p (a ++ b) = all_chars p a && all_chars p b.
Proof.
  induction a as [|c a IH]; cbn [append all_chars]; [reflexivity|].
  now rewrite IH, andb_assoc.
Qed.

Lemma all_chars_impl (p q : ascii -> bool) (s : string) :
  (forall c, p c = true -> q c = true) ->
  all_chars p s = true -> all_chars q s = true.
Proof.
  intros Hpq. induction s as [|c s IH]; cbn [all_chars]; [reflexivity|].
  intros H. apply andb_true_iff in H. destruct H as [Hc Hs].
  apply andb_true_iff. split; [apply Hpq, Hc | apply IH, Hs].
Qed.

Lemma numeral_plain (c : ascii) : numeral c = true -> plain c = true.
Proof.
  destruct c as [[|] [|] [|] [|] [|] [|] [|] [|]]; cbn;
    intros H; try reflexivity; discriminate H.
Qed.

Lemma numeral_not_space (c : ascii) : numeral c = true -> is_space c = false.
Proof.
  destruct c as [[|] [|] [|] [|] [|] [|] [|] [|]]; cbn;
    intros H; try reflexivity; discriminate H.
Qed.

Lemma string_of_uint_numeral (d : uint) :
  all_chars numeral (NilEmpty.string_of_uint d) = true.
Proof. induction d; cbn [NilEmpty.string_of_uint all_chars]; auto. Qed.

Lemma str_numeral (z : Z) : all_chars numeral (str z) = true.
Proof.
  unfold str, NilZero.string_of_int, NilZero.string_of_uint.
  destruct (Z.to_int z) as [d|d]; destruct d;
    try reflexivity; try apply string_of_uint_numeral;
    cbn [all_chars]; apply string_of_uint_numeral.
Qed.

Lemma str_nonempty (z : Z) : str z <> EmptyString.
Proof.
  unfold str, NilZero.string_of_int, NilZero.string_of_uint.
  destruct (Z.to_int z) as [d|d]; destruct d; discriminate.
Qed.

Lemma last_char (s : string) : s <> EmptyString -> exists a c, s = a ++ String c EmptyString.
Proof.
  induction s as [|x s IH]; intros H; [contradiction|].
  destruct s as [|y s].
  - exists EmptyString, x. reflexivity.
  - destruct IH as [a [c E]]; [discriminate|].
    exists (String x a), c. cbn [append]. now rewrite <- E.
Qed.

Lemma split_field (f rest : string) :
  all_chars (not_char TAB) f = true ->
  split TAB (f ++ String TAB rest) = f :: split TAB rest.
Proof.
  induction f as [|c f IH]; cbn [append all_chars]; intros H.
  - reflexivity.
  - apply andb_true_iff in H. destruct H as [Hc Hf].
    cbn [split]. unfold not_char in Hc. apply negb_true_iff in Hc.
    rewrite Hc, (IH Hf). reflexivity.
Qed.

Lemma split_last (f : string) :
  all_chars (not_char TAB) f = true -> split TAB f = [f].
Proof.
  induction f as [|c f IH]; cbn [all_chars]; intros H.
  - reflexivity.
  - apply andb_true_iff in H. destruct H as [Hc Hf].
    cbn [split]. unfold not_char in Hc. apply negb_true_iff in Hc.
    rewrite Hc, (IH Hf). reflexivity.
Qed.

Lemma keep_lines_line (body rest : string) :
  all_chars (not_char LF) body = true ->
  keep_lines (body ++ String LF rest) = (body ++ nl) :: keep_lines rest.
Proof.
  induction body as [|c body IH]; cbn [append all_chars]; intros H.
  - reflexivity.
  - apply andb_true_iff in H. destruct H as [Hc Hb].
    cbn [keep_lines]. unfold not_char in Hc. apply negb_true_iff in Hc.
    rewrite Hc, (IH Hb). reflexivity.
Qed.

Lemma universal_newlines_same (s : string) :
  all_chars (not_char CR) s = true -> universal_newlines s = s.
Proof.
  induction s as [|c s IH]; cbn [all_chars]; intros H; [reflexivity|].
  apply andb_true_iff in H. destruct H as [Hc Hs].
  cbn [universal_newlines]. unfold not_char in Hc. apply negb_true_iff in Hc.
  rewrite Hc, (IH Hs). reflexivity.
Qed.

Lemma rstrip_spaces (t : string) :
  all_chars is_space t = true -> rstrip t = EmptyString.
Proof.
  induction t as [|c t IH]; cbn [all_chars]; intros H; [reflexivity|].
  apply andb_true_iff in H. destruct H as [Hc Ht].
  cbn [rstrip]. rewrite (IH Ht), Hc. reflexivity.
Qed.

Lemma rstrip_app_last (a : string) (c : ascii) (t : string) :
  is_space c = false -> all_chars is_space t = true ->
  rstrip (a ++ String c t) = a ++ String c EmptyString.
Proof.
  intros Hc Ht. induction a as [|x a IH]; cbn [append rstrip].
  - rewrite (rstrip_spaces t Ht), Hc. reflexivity.
  - rewrite IH. destruct a; reflexivity.
Qed.

Lemma str_chars (p : ascii -> bool) (z : Z) :
  (forall c, plain c = true -> p c = true) -> all_chars p (str z) = true.
Proof.
  intros Hp. apply (all_chars_impl numeral); [|apply str_numeral].
  intros c Hc. apply Hp, numeral_plain, Hc.
Qed.

Lemma line_body_chars (p : ascii -> bool) (b : Z) (m : string) (w h : Z)
    (s g : pos) :
  (forall c, plain c = true -> p c = true) -> p TAB = true ->
  single_field m ->
  all_chars p (line_body b m w h s g) = true.
Proof.
  intros Hp Htab Hm. unfold line_body.
  assert (Ht : all_chars p tab = true) by (cbn; now rewrite Htab).
  assert (Hmp : all_chars p m = true) by (apply (all_chars_impl plain); assumption).
  rewrite !all_chars_app, !str_chars, Ht, Hmp by exact Hp. reflexivity.
Qed.

Lemma scenario_line_body (b : Z) (m : string) (w h : Z) (s g : pos) :
  scenario_line b m w h s g = line_body b m w h s g ++ nl.
Proof.
  unfold scenario_line, line_body. cbv zeta.
  rewrite !append_assoc. reflexivity.
Qed.

Lemma line_body_fields (b : Z) (m : string) (w h : Z) (s g : pos) :
  single_field m ->
  split TAB (line_body b m w h s g) = line_fields b m w h s g.
Proof.
  intros Hm.
  assert (Hplain : forall c, plain c = true -> not_char TAB c = true).
  { intros c H. unfold plain in H.
    apply andb_true_iff in H. destruct H as [H _].
    apply andb_true_iff in H. destruct H as [H _]. exact H. }
  assert (Hmt : all_chars (not_char TAB) m = true)
    by (apply (all_chars_impl plain); assumption).
  unfold line_body, line_fields, tab. cbn [append].
  rewrite (split_field (str b)) by (apply str_chars, Hplain).
  rewrite (split_field m) by exact Hmt.
  rewrite !split_field by (apply str_chars, Hplain).
  rewrite split_last by (apply str_chars, Hplain).
  reflexivity.
Qed.

Lemma strip_between_numerals (first mid last : string) :
  first <> EmptyString -> all_chars numeral first = true ->
  last <> EmptyString -> all_chars numeral last = true ->
  strip ((first ++ mid ++ last) ++ nl) = first ++ mid ++ last.
Proof.
  intros Hf Hfn Hl Hln. unfold strip.
  destruct first as [|c0 r0]; [contradiction|].
  cbn [all_chars] in Hfn. apply andb_true_iff in Hfn. destruct Hfn as [Hc0 _].
  cbn [append lstrip]. rewrite (numeral_not_space c0 Hc0).
  destruct (last_char last Hl) as [a [c E]]. subst last.
  rewrite all_chars_app in Hln. apply andb_true_iff in Hln.
  destruct Hln as [_ Hc]. cbn [all_chars] in Hc.
  apply andb_true_iff in Hc. destruct Hc as [Hc _].
  change (String c0 ((r0 ++ mid ++ a ++ String c EmptyString) ++ nl))
    with ((String c0 (r0 ++ mid ++ a ++ String c EmptyString)) ++ nl).
  change (String c0 (r0 ++ mid ++ a ++ String c EmptyString))
    with (String c0 r0 ++ mid ++ a ++ String c EmptyString).
  replace ((String c0 r0 ++ mid ++ a ++ String c EmptyString) ++ nl)
    with ((String c0 r0 ++ mid ++ a) ++ String c nl).
  - rewrite rstrip_app_last; [|apply numeral_not_space, Hc | reflexivity].
    rewrite !append_assoc. reflexivity.
  - rewrite !append_assoc. reflexivity.
Qed.

Lemma strip_scenario_line (b : Z) (m : string) (w h : Z) (s g : pos) :
  strip (scenario_line b m w h s g) = line_body b m w h s g.
Proof.
  rewrite scenario_line_body.
  set (mid := tab ++ m ++ tab ++ str w ++ tab ++ str h ++ tab ++ str (fst s)
              ++ tab ++ str (snd s) ++ tab ++ str (fst g) ++ tab
              ++ str (snd g) ++ tab).
  assert (E : line_body b m w h s g
              = str b ++ mid
                ++ str (Z.abs (fst s - fst g) + Z.abs (snd s - snd g))).
  { unfold line_body, mid. rewrite !append_assoc. reflexivity. }
  rewrite E.
  apply strip_between_numerals;
    auto using str_nonempty, str_numeral.
Qed.

Lemma parse_line_scenario_line (b : Z) (m : string) (w h : Z) (s g : pos) :
  single_field m -> parse_line (scenario_line b m w h s g) = Ok Skipped.
Proof.
  intros Hm. unfold parse_line.
  rewrite strip_scenario_line, (line_body_fields b m w h s g Hm).
  destruct (String.eqb (line_body b m w h s g) EmptyString); reflexivity.
Qed.

Lemma agent_lines_form (agents : list agent) (eps : list (pos * pos))
    (m : string) (w h : Z) (l : string) :
  In l (agent_lines agents eps m w h) ->
  exists b s g, l = scenario_line b m w h s g.
Proof.
  revert eps. induction agents as [|a agents IH]; intros [|sg eps] Hin;
    cbn [agent_lines] in Hin; try contradiction.
  destruct Hin as [<- | Hin].
  - eexists. eexists. eexists. reflexivity.
  - eapply IH, Hin.
Qed.

Lemma agent_lines_length (agents : list agent) (eps : list (pos * pos))
    (P : agent -> pos * pos -> Prop) (m : string) (w h : Z) :
  Forall2 P agents eps ->
  List.length (agent_lines agents eps m w h) = List.length agents.
Proof.
  induction 1; cbn [agent_lines List.length]; congruence.
Qed.

Lemma keep_lines_scenario (m : string) (w h : Z) (lines : list string) :
  single_field m ->
  (forall l, In l lines -> exists b s g, l = scenario_line b m w h s g) ->
  keep_lines (String.concat EmptyString lines) = lines /\
  all_chars (not_char CR) (String.concat EmptyString lines) = true.
Proof.
  intros Hm. induction lines as [|l lines IH]; intros Hform.
  - split; reflexivity.
  - destruct (Hform l (or_introl eq_refl)) as [b [s [g ->]]].
    destruct IH as [Hk Hc]. { intros l' Hin. apply Hform. right. exact Hin. }
    rewrite concat_cons, scenario_line_body, append_assoc.
    split.
    + change (nl ++ String.concat EmptyString lines) with (String LF (String.concat EmptyString lines)).
      rewrite keep_lines_line, Hk; [reflexivity|].
      apply line_body_chars; [|reflexivity|exact Hm].
      intros c H. unfold plain in H.
      apply andb_true_iff in H. destruct H as [H _].
      apply andb_true_iff in H. destruct H as [_ H]. exact H.
    + rewrite !all_chars_app, Hc, line_body_chars; [reflexivity| |reflexivity|exact Hm].
      intros c H. unfold plain in H.
      apply andb_true_iff in H. destruct H as [_ H]. exact H.
Qed.

Lemma readlines_scenario (m : string) (w h : Z) (lines : list string) :
  single_field m ->
  (forall l, In l lines -> exists b s g, l = scenario_line b m w h s g) ->
  readlines (header ++ String.concat EmptyString lines) = header :: lines.
Proof.
  intros Hm Hform.
  destruct (keep_lines_scenario m w h lines Hm Hform) as [Hk Hc].
  unfold readlines. rewrite universal_newlines_same.
  - unfold header. rewrite append_assoc.
    change (nl ++ String.concat EmptyString lines) with (String LF (String.concat EmptyString lines)).
    rewrite keep_lines_line by reflexivity. now rewrite Hk.
  - rewrite all_chars_app, Hc. reflexivity.
Qed.

(** C10 as the code has it.  For every agent list, every segment index
    from 0 on and every map file name without tab or line-break characters,
    the text written by [create_segment_scenario] is read as the header
    line followed by exactly one line per agent; each of these lines has
    exactly nine tab-separated fields (no waypoint count is written), and
    [parse_waypoint_scenario] returns the empty agent list on the text,
    without any warning, as soon as it may run for one pass per line. *)
Theorem segment_scenario_reads_back_empty (agents : list agent)
    (segment_idx : Z) (m : string) (w h : Z) :
  0 <= segment_idx -> single_field m ->
  exists eps,
    let lines := agent_lines agents eps m w h in
    let text := header ++ String.concat EmptyString lines in
    create_segment_scenario agents segment_idx m w h = Ok text /\
    readlines text = header :: lines /\
    List.length lines = List.length agents /\
    (forall l, In l lines -> List.length (split TAB (strip l)) = 9%nat) /\
    forall fuel, (List.length agents + 1 < fuel)%nat ->
                 parse_waypoint_scenario fuel text = Some (Ok [], []).
Proof.
  intros Hi Hm.
  destruct (write_agents_lines agents segment_idx m w h header Hi)
    as [eps [Hrule Htext]].
  exists eps. cbv zeta.
  pose proof (agent_lines_form agents eps m w h) as Hform.
  pose proof (readlines_scenario m w h _ Hm Hform) as Hread.
  pose proof (agent_lines_length agents eps _ m w h Hrule) as Hlen.
  split; [exact Htext|]. split; [exact Hread|]. split; [exact Hlen|]. split.
  - intros l Hin. destruct (Hform l Hin) as [b [s [g ->]]].
    rewrite strip_scenario_line, (line_body_fields b m w h s g Hm). reflexivity.
  - intros fuel Hfuel. unfold parse_waypoint_scenario. rewrite Hread.
    change (start_idx (header :: agent_lines agents eps m w h)) with 1%nat.
    apply parse_loop_skips.
    + intros j raw Hj Hnth. destruct j as [|j]; [lia|].
      cbn [nth_error] in Hnth. apply nth_error_In in Hnth.
      destruct (Hform raw Hnth) as [b [s [g ->]]].
      apply parse_line_scenario_line, Hm.
    + cbn [List.length]. rewrite Hlen. lia.
Qed.

Lemma segment_scenario_reads_back_empty_witness :
  0 <= 1 /\ single_field "m.map" /\
  exists eps,
    create_segment_scenario [agent_A; agent_B] 1 "m.map" 8 8
    = Ok (header ++ String.concat EmptyString (agent_lines [agent_A; agent_B] eps "m.map" 8 8)) /\
    parse_waypoint_scenario 4
      (header ++ String.concat EmptyString (agent_lines [agent_A; agent_B] eps "m.map" 8 8))
    = Some (Ok [], []).
Proof.
  split; [lia|]. split; [reflexivity|].
  destruct (segment_scenario_reads_back_empty [agent_A; agent_B] 1 "m.map" 8 8)
    as [eps [Htext [_ [_ [_ Hparse]]]]].
  - lia.
  - reflexivity.
  - exists eps. split; [exact Htext|]. apply Hparse. simpl. lia.
Defined.

(** C10 as stated fails: with a tab in the name of the map file the line
    written for an agent has ten fields, and the parser reads an agent back
    from it (the map height as start row, the Manhattan distance 0 as
    waypoint count); with a line break in the name the text has two lines
    for one agent; and for a negative segment index and an agent without
    waypoints no text is produced at all. *)
Lemma tabbed_map_name_reads_back_an_agent :
  create_segment_scenario [agent_B] 1 tabbed_map_name 8 8
  = Ok (header ++ "1" ++ tab ++ "a" ++ tab ++ "b" ++ tab ++ "8" ++ tab ++ "8"
        ++ tab ++ "9" ++ tab ++ "9" ++ tab ++ "9" ++ tab ++ "9" ++ tab ++ "0" ++ nl) /\
  parse_waypoint_scenario 3
    (header ++ "1" ++ tab ++ "a" ++ tab ++ "b" ++ tab ++ "8" ++ tab ++ "8"
     ++ tab ++ "9" ++ tab ++ "9" ++ tab ++ "9" ++ tab ++ "9" ++ tab ++ "0" ++ nl)
  = Some (Ok [mkAgent (8, 9) (9, 9) [] 0 1], []) /\
  create_segment_scenario [agent_B] 1 broken_map_name 8 8
  = Ok (header ++ "1" ++ tab ++ "a" ++ nl ++ "b" ++ tab ++ "8" ++ tab ++ "8"
        ++ tab ++ "9" ++ tab ++ "9" ++ tab ++ "9" ++ tab ++ "9" ++ tab ++ "0" ++ nl) /\
  readlines
    (header ++ "1" ++ tab ++ "a" ++ nl ++ "b" ++ tab ++ "8" ++ tab ++ "8"
     ++ tab ++ "9" ++ tab ++ "9" ++ tab ++ "9" ++ tab ++ "9" ++ tab ++ "0" ++ nl)
  = [header; "1" ++ tab ++ "a" ++ nl;
     "b" ++ tab ++ "8" ++ tab ++ "8" ++ tab ++ "9" ++ tab ++ "9" ++ tab ++ "9"
     ++ tab ++ "9" ++ tab ++ "0" ++ nl] /\
  create_segment_scenario [agent_B] (-1) "m.map" 8 8 = Raise IndexError.
Proof. repeat split; reflexivity. Qed.

(* ================================================================== *)
(** ** Further properties *)
(* ================================================================== *)

(** *** Printing and reading integers *)

Lemma int_digits_of_uint (d : uint) :
  forall acc, int_digits acc true (NilEmpty.string_of_uint d) = Some (digits_value acc d).
Proof.
  induction d; intros acc; cbn [NilEmpty.string_of_uint int_digits digits_value];
    try reflexivity; apply IHd.
Qed.

Lemma int_digits_of_uint_start (d : uint) :
  d <> Nil ->
  int_digits 0 false (NilEmpty.string_of_uint d) = Some (digits_value 0 d).
Proof.
  destruct d; intros H; try contradiction;
    cbn [NilEmpty.string_of_uint int_digits digits_value];
    apply int_digits_of_uint.
Qed.

Lemma of_uint_acc_value (d : uint) :
  forall p, Z.pos (Pos.of_uint_acc d p) = digits_value (Z.pos p) d.
Proof.
  induction d; intros p; cbn [Pos.of_uint_acc digits_value];
    try reflexivity; rewrite IHd; f_equal; lia.
Qed.

Lemma of_uint_value (d : uint) : Z.of_uint d = digits_value 0 d.
Proof.
  unfold Z.of_uint.
  induction d; cbn [Pos.of_uint digits_value Z.of_N]; try reflexivity;
    try exact IHd; apply of_uint_acc_value.
Qed.

Lemma lstrip_unspaced (c : ascii) (r : string) :
  is_space c = false -> lstrip (String c r) = String c r.
Proof. intros H. cbn [lstrip]. now rewrite H. Qed.

Lemma strip_numeral (s : string) :
  s <> EmptyString -> all_chars numeral s = true -> strip s = s.
Proof.
  intros Hne Hn. unfold strip.
  destruct s as [|c0 r0]; [contradiction|].
  pose proof Hn as Hn0. cbn [all_chars] in Hn0.
  apply andb_true_iff in Hn0. destruct Hn0 as [Hc0 _].
  rewrite lstrip_unspaced by (apply numeral_not_space, Hc0).
  destruct (last_char (String c0 r0) Hne) as [a [c E]].
  rewrite E in Hn |- *. rewrite all_chars_app in Hn.
  apply andb_true_iff in Hn. destruct Hn as [_ Hc]. cbn [all_chars] in Hc.
  apply andb_true_iff in Hc. destruct Hc as [Hc _].
  apply rstrip_app_last; [apply numeral_not_space, Hc | reflexivity].
Qed.

Lemma string_of_uint_nonempty (d : uint) :
  d <> Nil -> NilEmpty.string_of_uint d <> EmptyString.
Proof. destruct d; intros H; try contradiction; discriminate. Qed.

Lemma int_of_digits (d : uint) :
  d <> Nil -> int (NilEmpty.string_of_uint d) = Ok (digits_value 0 d).
Proof.
  intros Hd. unfold int.
  rewrite strip_numeral
    by (auto using string_of_uint_nonempty, string_of_uint_numeral).
  pose proof (int_digits_of_uint_start d Hd) as H.
  destruct d; try contradiction;
    cbn [NilEmpty.string_of_uint] in *; rewrite H; reflexivity.
Qed.

Lemma int_of_minus_digits (d : uint) :
  d <> Nil ->
  int (String "-" (NilEmpty.string_of_uint d)) = Ok (- digits_value 0 d).
Proof.
  intros Hd. unfold int.
  rewrite strip_numeral;
    [|discriminate| cbn [all_chars]; now rewrite string_of_uint_numeral].
  rewrite (int_digits_of_uint_start d Hd). reflexivity.
Qed.

(** Reading back a printed integer: [int(str(z)) == z]. *)
Lemma int_str (z : Z) : int (str z) = Ok z.
Proof.
  unfold str. destruct z as [|p|p]; cbn [Z.to_int NilZero.string_of_int].
  - reflexivity.
  - pose proof (Unsigned.to_uint_nonnil p) as Hd.
    unfold NilZero.string_of_uint.
    replace (match Pos.to_uint p with
             | Nil => "0"
             | _ => NilEmpty.string_of_uint (Pos.to_uint p)
             end) with (NilEmpty.string_of_uint (Pos.to_uint p))
      by (destruct (Pos.to_uint p); [contradiction | reflexivity ..]).
    rewrite int_of_digits by exact Hd.
    rewrite <- of_uint_value. unfold Z.of_uint.
    now rewrite Unsigned.of_to.
  - pose proof (Unsigned.to_uint_nonnil p) as Hd.
    unfold NilZero.string_of_uint.
    replace (match Pos.to_uint p with
             | Nil => "0"
             | _ => NilEmpty.string_of_uint (Pos.to_uint p)
             end) with (NilEmpty.string_of_uint (Pos.to_uint p))
      by (destruct (Pos.to_uint p); [contradiction | reflexivity ..]).
    rewrite int_of_minus_digits by exact Hd.
    rewrite <- of_uint_value. unfold Z.of_uint.
    now rewrite Unsigned.of_to.
Qed.

(** *** The parser as a whole *)

Lemma skipn_nth_error {A} (l : list A) (i : nat) (x : A) :
  nth_error l i = Some x -> skipn i l = x :: skipn (S i) l.
Proof.
  revert i. induction l as [|y l IH]; intros [|i] H; try discriminate.
  - injection H as ->. reflexivity.
  - cbn [nth_error] in H. cbn [skipn]. rewrite (IH i H). reflexivity.
Qed.

Lemma skipn_nth_error_none {A} (l : list A) (i : nat) :
  nth_error l i = None -> skipn i l = [].
Proof. intros H. apply skipn_all2. apply nth_error_None, H. Qed.

(** What the loop has done when it ends: every line from [i] on was passed
    or read, nothing was printed, and on a normal end the agents read are
    added in order; on an exception the line that raised it is the first
    that is not passed. *)
Lemma parse_loop_result (lines : list string) :
  forall fuel i agents out r out',
    parse_loop fuel lines i agents out = Some (r, out') ->
    out' = out /\
    match r with
    | Ok result =>
        result = (agents ++ agents_of_lines (skipn i lines))%list /\
        Forall line_passes (skipn i lines)
    | Raise e =>
        exists j raw,
          (i <= j)%nat /\ nth_error lines j = Some raw /\
          parse_line raw = Raise e /\
          forall j' raw', (i <= j' < j)%nat -> nth_error lines j' = Some raw' ->
                          line_passes raw'
    end.
Proof.
  induction fuel as [|fuel IH]; intros i agents out r out' Hrun; [discriminate|].
  cbn [parse_loop] in Hrun.
  destruct (nth_error lines i) as [raw|] eqn:Hnth.
  - destruct (parse_line raw) as [[|a|k]|e] eqn:Hp.
    + destruct (IH _ _ _ _ _ Hrun) as [Hout Hr]. split; [exact Hout|].
      destruct r as [result|e].
      * destruct Hr as [Hres Hall]. rewrite (skipn_nth_error _ _ _ Hnth).
        unfold agents_of_lines in *. cbn [flat_map]. rewrite Hp. cbn [app].
        split; [exact Hres|]. constructor; [left; exact Hp | exact Hall].
      * destruct Hr as [j [raw' [Hj [Hn [Hpe Hbefore]]]]].
        exists j, raw'. split; [lia|]. split; [exact Hn|]. split; [exact Hpe|].
        intros j' r' Hj' Hn'. destruct (Nat.eq_dec j' i) as [-> | Hne].
        -- rewrite Hnth in Hn'. injection Hn' as <-. left. exact Hp.
        -- apply (Hbefore j' r'); [lia | exact Hn'].
    + destruct (IH _ _ _ _ _ Hrun) as [Hout Hr]. split; [exact Hout|].
      destruct r as [result|e].
      * destruct Hr as [Hres Hall]. rewrite (skipn_nth_error _ _ _ Hnth).
        unfold agents_of_lines in *. cbn [flat_map]. rewrite Hp.
        rewrite Hres, <- app_assoc. split; [reflexivity|].
        constructor; [right; exists a; exact Hp | exact Hall].
      * destruct Hr as [j [raw' [Hj [Hn [Hpe Hbefore]]]]].
        exists j, raw'. split; [lia|]. split; [exact Hn|]. split; [exact Hpe|].
        intros j' r' Hj' Hn'. destruct (Nat.eq_dec j' i) as [-> | Hne].
        -- rewrite Hnth in Hn'. injection Hn' as <-. right. exists a. exact Hp.
        -- apply (Hbefore j' r'); [lia | exact Hn'].
    + rewrite (parse_loop_stuck lines i raw k Hnth Hp) in Hrun. discriminate.
    + injection Hrun as <- <-. split; [reflexivity|].
      exists i, raw. split; [lia|]. split; [exact Hnth|]. split; [exact Hp|].
      intros j' r' Hj'. lia.
  - injection Hrun as <- <-. split; [reflexivity|].
    rewrite (skipn_nth_error_none _ _ Hnth). unfold agents_of_lines. cbn.
    rewrite app_nil_r. split; [reflexivity | constructor].
Qed.

(** X1.  Whenever [parse_waypoint_scenario] returns a list of agents, it
    has printed nothing, every line after the header was either passed over
    or read as an agent, and the list holds the agents of the lines read,
    in file order. *)
Theorem parse_returns_agents_in_file_order (fuel : nat) (content : string)
    (agents : list agent) (out : list string) :
  parse_waypoint_scenario fuel content = Some (Ok agents, out) ->
  let lines := readlines content in
  out = [] /\
  agents = agents_of_lines (skipn (start_idx lines) lines) /\
  Forall line_passes (skipn (start_idx lines) lines) /\
  (List.length agents <= List.length lines)%nat.
Proof.
  unfold parse_waypoint_scenario. intros H. cbv zeta.
  destruct (parse_loop_result _ _ _ _ _ _ _ H) as [Hout [Hres Hall]].
  cbn [app] in Hres. repeat split; try assumption.
  rewrite Hres. unfold agents_of_lines.
  generalize (length_skipn (start_idx (readlines content)) (readlines content)).
  generalize (skipn (start_idx (readlines content)) (readlines content)).
  intros l Hl.
  assert (Hle : (List.length
                   (flat_map (fun raw => match parse_line raw with
                                         | Ok (Appended a) => [a]
                                         | _ => []
                                         end) l) <= List.length l)%nat).
  { clear. induction l as [|x l IH]; cbn [flat_map List.length]; [lia|].
    rewrite length_app.
    destruct (parse_line x) as [[|a|k]|e]; cbn [List.length]; lia. }
  eapply Nat.le_trans; [exact Hle | lia].
Qed.

Lemma parse_returns_agents_in_file_order_witness :
  parse_waypoint_scenario 3 one_agent_file
  = Some (Ok [mkAgent (5, 5) (6, 6) [] 0 1], []) /\
  [mkAgent (5, 5) (6, 6) [] 0 1]
  = agents_of_lines (skipn (start_idx (readlines one_agent_file))
                       (readlines one_agent_file)).
Proof.
  split; [reflexivity|].
  apply (proj1 (proj2 (parse_returns_agents_in_file_order 3 one_agent_file
                         [mkAgent (5, 5) (6, 6) [] 0 1] [] eq_refl))).
Defined.

Lemma parse_loop_returns (lines : list string) :
  (forall raw k, In raw lines -> parse_line raw <> Ok (Warned k)) ->
  forall fuel i agents out,
    (List.length lines - i < fuel)%nat ->
    exists r, parse_loop fuel lines i agents out = Some (r, out).
Proof.
  intros Hno. induction fuel as [|fuel IH]; intros i agents out Hfuel; [lia|].
  cbn [parse_loop].
  destruct (nth_error lines i) as [raw|] eqn:Hnth; [|eexists; reflexivity].
  assert (Hi : (i < List.length lines)%nat) by (apply nth_error_Some; congruence).
  destruct (parse_line raw) as [[|a|k]|e] eqn:Hp.
  - apply IH. lia.
  - apply IH. lia.
  - exfalso. apply (Hno raw k); [eapply nth_error_In; exact Hnth | exact Hp].
  - eexists. reflexivity.
Qed.

(** X2.  On a file none of whose lines declares more waypoints than it
    supplies, [parse_waypoint_scenario] returns (a list of agents or an
    exception) after at most one pass per line and one more, and prints
    nothing. *)
Theorem parse_returns_without_short_lines (content : string) :
  (forall raw k, In raw (readlines content) -> parse_line raw <> Ok (Warned k)) ->
  forall fuel, (List.length (readlines content) < fuel)%nat ->
  exists r, parse_waypoint_scenario fuel content = Some (r, []).
Proof.
  intros Hno fuel Hfuel. unfold parse_waypoint_scenario.
  apply parse_loop_returns; [exact Hno | lia].
Qed.

Lemma parse_returns_without_short_lines_witness :
  (forall raw k, In raw (readlines one_agent_file) ->
                 parse_line raw <> Ok (Warned k)) /\
  exists r, parse_waypoint_scenario 3 one_agent_file = Some (r, []).
Proof.
  assert (H : forall raw k, In raw (readlines one_agent_file) ->
                            parse_line raw <> Ok (Warned k)).
  { intros raw k Hin. cbn in Hin.
    destruct Hin as [<- | [<- | []]]; discriminate. }
  split; [exact H|].
  apply (parse_returns_without_short_lines one_agent_file H 3%nat).
  cbn. lia.
Defined.



(** *** main *)

(** X4.  What [main] does with the result of the parser: when the parser
    raises, or returns no agent, [main] prints one error line and ends with
    [sys.exit(1)] before any solver run, any clean-up or any file; when the
    parser returns agents, [main] is the sweep over agent counts on exactly
    these agents. *)
Theorem main_after_parsing (fuel : nat) (env : environment) (args : arguments)
    (content : string) (r : res (list agent)) (out : list string) :
  parse_waypoint_scenario fuel content = Some (r, out) ->
  exists m,
    Lacam.main fuel env args content = Some m /\
    forall n0,
      match r with
      | Raise _ =>
          m n0 = (Exit 1, [Console (Text "Error parsing scenario file")], n0)
      | Ok [] =>
          m n0 = (Exit 1,
                  [Console (Text "Error: No agents found in scenario file")], n0)
      | Ok (a :: rest) => m n0 = sweep env (a :: rest) args n0
      end.
Proof.
  intros Hparse.
  destruct (parse_loop_result _ _ _ _ _ _ _ Hparse) as [-> _].
  unfold Lacam.main. rewrite Hparse.
  destruct r as [[|a rest]|e]; eexists; (split; [reflexivity|]); intros n0.
  - reflexivity.
  - cbn [for_each]. unfold bindM at 1. unfold ret at 1.
    destruct (sweep env (a :: rest) args n0) as [[o ev] n']. reflexivity.
  - reflexivity.
Qed.

Lemma main_after_parsing_witness :
  parse_waypoint_scenario 3 bad_number_file = Some (Raise ValueError, []) /\
  exists m,
    Lacam.main 3 moody_env single_args bad_number_file = Some m /\
    m 0%nat = (Exit 1, [Console (Text "Error parsing scenario file")], 0%nat).
Proof.
  split; [reflexivity|].
  destruct (main_after_parsing 3 moody_env single_args bad_number_file
              (Raise ValueError) [] eq_refl) as [m [Hm Hrun]].
  exists m. split; [exact Hm | exact (Hrun 0%nat)].
Defined.

(** *** Reading a waypoint scenario *)

Lemma getitem_at {A} (l : list A) (i : Z) (x : A) :
  0 <= i -> nth_error l (Z.to_nat i) = Some x -> getitem l i = Ok x.
Proof.
  intros Hi Hn.
  destruct (getitem_nth l i) as [y [Hg Hy]].
  - split; [exact Hi|].
    assert (Z.to_nat i < List.length l)%nat by (apply nth_error_Some; congruence).
    lia.
  - rewrite Hg. congruence.
Qed.

Lemma int_field_at (l : list string) (i z : Z) :
  0 <= i -> nth_error l (Z.to_nat i) = Some (str z) -> int_field l i = Ok z.
Proof.
  intros Hi Hn. unfold int_field. rewrite (getitem_at l i (str z) Hi Hn).
  apply int_str.
Qed.

Lemma concat_tab_cons (f g : string) (fs : list string) :
  String.concat tab (f :: g :: fs) = f ++ String TAB (String.concat tab (g :: fs)).
Proof. reflexivity. Qed.

Lemma split_concat_tab (fs : list string) :
  fs <> [] ->
  Forall (fun f => all_chars (not_char TAB) f = true) fs ->
  split TAB (String.concat tab fs) = fs.
Proof.
  intros Hne Hall. induction Hall as [|f fs Hf Hfs IH]; [contradiction|].
  destruct fs as [|g fs].
  - cbn [String.concat]. apply split_last, Hf.
  - rewrite concat_tab_cons, split_field by exact Hf.
    rewrite IH by discriminate. reflexivity.
Qed.

Lemma all_chars_concat_tab (p : ascii -> bool) (fs : list string) :
  p TAB = true ->
  Forall (fun f => all_chars p f = true) fs ->
  all_chars p (String.concat tab fs) = true.
Proof.
  intros Ht Hall. induction Hall as [|f fs Hf Hfs IH]; [reflexivity|].
  destruct fs as [|g fs]; [exact Hf|].
  rewrite concat_tab_cons, all_chars_app. cbn [all_chars].
  now rewrite Hf, Ht, IH.
Qed.

Lemma ends_unspaced_app (x y : string) : ends_unspaced y -> ends_unspaced (x ++ y).
Proof.
  intros [a [c [-> Hc]]]. exists (x ++ a), c. split; [|exact Hc].
  now rewrite append_assoc.
Qed.

Lemma ends_unspaced_numeral (s : string) :
  s <> EmptyString -> all_chars numeral s = true -> ends_unspaced s.
Proof.
  intros Hne Hn. destruct (last_char s Hne) as [a [c E]].
  exists a, c. split; [exact E|]. subst s.
  rewrite all_chars_app in Hn. apply andb_true_iff in Hn. destruct Hn as [_ Hc].
  cbn [all_chars] in Hc. apply andb_true_iff in Hc. destruct Hc as [Hc _].
  apply numeral_not_space, Hc.
Qed.

Lemma ends_unspaced_concat_tab (fs : list string) (l : string) :
  ends_unspaced l -> ends_unspaced (String.concat tab (fs ++ [l])).
Proof.
  intros Hl. induction fs as [|f fs IH]; [exact Hl|].
  change ((f :: fs) ++ [l])%list with (f :: (fs ++ [l]))%list.
  destruct (fs ++ [l])%list as [|g rest] eqn:E.
  - destruct fs; discriminate.
  - rewrite concat_tab_cons.
    change (String TAB (String.concat tab (g :: rest)))
      with (tab ++ String.concat tab (g :: rest)).
    apply ends_unspaced_app, ends_unspaced_app. exact IH.
Qed.

(** Stripping a line that begins and ends with something else than white
    space takes away its line break only. *)
Lemma strip_line (c0 : ascii) (r0 : string) :
  is_space c0 = false -> ends_unspaced (String c0 r0) ->
  strip (String c0 r0 ++ nl) = String c0 r0.
Proof.
  intros Hc0 [a [c [E Hc]]]. unfold strip.
  cbn [append]. rewrite lstrip_unspaced by exact Hc0.
  change (String c0 (r0 ++ nl)) with (String c0 r0 ++ nl).
  rewrite E, append_assoc. cbn [append].
  rewrite rstrip_app_last; [reflexivity | exact Hc | reflexivity].
Qed.

Lemma waypoint_fields_numeral (wps : list pos) :
  Forall (fun f => f <> EmptyString /\ all_chars numeral f = true)
    (waypoint_fields wps).
Proof.
  induction wps as [|p wps IH]; [constructor|].
  unfold waypoint_fields in *. cbn [flat_map].
  change ([str (fst p); str (snd p)] ++ ?l)%list
    with (str (fst p) :: str (snd p) :: l).
  constructor; [split; [apply str_nonempty | apply str_numeral]|].
  constructor; [split; [apply str_nonempty | apply str_numeral]|].
  exact IH.
Qed.

Lemma waypoint_fields_length (wps : list pos) :
  List.length (waypoint_fields wps) = (2 * List.length wps)%nat.
Proof.
  induction wps as [|p wps IH]; [reflexivity|].
  unfold waypoint_fields in *. cbn [flat_map]. rewrite length_app, IH.
  cbn [List.length]. lia.
Qed.

Lemma waypoint_fields_app (xs ys : list pos) :
  waypoint_fields (xs ++ ys) = (waypoint_fields xs ++ waypoint_fields ys)%list.
Proof. unfold waypoint_fields. apply flat_map_app. Qed.

Lemma collect_waypoints_reads (rest : list pos) :
  forall done acc,
    collect_waypoints (waypoint_fields (done ++ rest))
      (List.map Z.of_nat (seq (List.length done) (List.length rest))) acc
    = Ok (acc ++ rest)%list.
Proof.
  induction rest as [|p rest IH]; intros done acc.
  - cbn. now rewrite app_nil_r.
  - cbn [List.length seq List.map collect_waypoints].
    set (j := Z.of_nat (List.length done)).
    assert (Hlen : Z.of_nat (List.length (waypoint_fields (done ++ p :: rest)))
                   = 2 * j + 2 * Z.of_nat (S (List.length rest))).
    { rewrite waypoint_fields_length, length_app. cbn [List.length]. lia. }
    assert (Hj : (j * 2 + 1 <? Z.of_nat (List.length
                                          (waypoint_fields (done ++ p :: rest))))
                 = true) by (apply Z.ltb_lt; lia).
    rewrite Hj.
    assert (Hrow : int_field (waypoint_fields (done ++ p :: rest)) (j * 2)
                   = Ok (fst p)).
    { unfold int_field.
      rewrite (getitem_at _ _ (str (fst p))); [apply int_str | lia |].
      rewrite waypoint_fields_app, nth_error_app2;
        rewrite waypoint_fields_length; [|lia].
      replace (Z.to_nat (j * 2) - 2 * List.length done)%nat with 0%nat by lia.
      reflexivity. }
    assert (Hcol : int_field (waypoint_fields (done ++ p :: rest)) (j * 2 + 1)
                   = Ok (snd p)).
    { unfold int_field.
      rewrite (getitem_at _ _ (str (snd p))); [apply int_str | lia |].
      rewrite waypoint_fields_app, nth_error_app2;
        rewrite waypoint_fields_length; [|lia].
      replace (Z.to_nat (j * 2 + 1) - 2 * List.length done)%nat with 1%nat by lia.
      reflexivity. }
    rewrite Hrow, Hcol. cbn [bind].
    assert (E1 : (done ++ p :: rest = (done ++ [p]) ++ rest)%list)
      by (rewrite <- app_assoc; reflexivity).
    assert (E2 : S (List.length done) = List.length (done ++ [p])%list)
      by (rewrite length_app; cbn; lia).
    rewrite E1, E2, IH, <- app_assoc. destruct p. reflexivity.
Qed.

(** Reading one well-formed agent line gives the agent back. *)
Lemma parse_waypoint_line (name w h opt : string) (a : agent) :
  Forall (fun f => all_chars (not_char TAB) f = true) [name; w; h; opt] ->
  K a = waypoint_count a ->
  parse_line (waypoint_line name w h opt a) = Ok (Appended a).
Proof.
  intros Hplain HK.
  assert (Hn : forall z, all_chars (not_char TAB) (str z) = true).
  { intros z. apply str_chars. intros c H. unfold plain in H.
    apply andb_true_iff in H. destruct H as [H _].
    apply andb_true_iff in H. destruct H as [H _]. exact H. }
  inversion Hplain as [|? ? Hname H1]; subst.
  inversion H1 as [|? ? Hw H2]; subst.
  inversion H2 as [|? ? Hh H3]; subst.
  inversion H3 as [|? ? Hopt _]; subst.
  assert (Hfields : Forall (fun f => all_chars (not_char TAB) f = true)
                      (agent_fields name w h opt a)).
  { unfold agent_fields. apply Forall_app. split.
    - repeat constructor; auto.
    - eapply Forall_impl; [|apply waypoint_fields_numeral].
      intros f [_ Hf]. apply (all_chars_impl numeral); [|exact Hf].
      intros c Hc. apply numeral_plain in Hc. unfold plain in Hc.
      apply andb_true_iff in Hc. destruct Hc as [Hc _].
      apply andb_true_iff in Hc. destruct Hc as [Hc _]. exact Hc. }
  assert (Hstrip : strip (waypoint_line name w h opt a)
                   = String.concat tab (agent_fields name w h opt a)).
  { unfold waypoint_line.
    assert (Hend : ends_unspaced (String.concat tab (agent_fields name w h opt a))).
    { unfold agent_fields.
      pose proof (waypoint_fields_numeral (waypoints a)) as Hall.
      destruct (waypoint_fields (waypoints a)) as [|f fs].
      - rewrite app_nil_r.
        apply (ends_unspaced_concat_tab
                 [str (bucket_id a); name; w; h; str (fst (start a));
                  str (snd (start a)); str (fst (goal a)); str (snd (goal a)); opt]
                 (str (K a))).
        apply ends_unspaced_numeral; [apply str_nonempty | apply str_numeral].
      - destruct (exists_last (l := f :: fs)) as [front [l El]]; [discriminate|].
        rewrite El in Hall |- *. apply Forall_app in Hall. destruct Hall as [_ Hl].
        inversion Hl as [|? ? [Hl1 Hl2] _]; subst.
        rewrite app_assoc.
        apply ends_unspaced_concat_tab, ends_unspaced_numeral; assumption. }
    unfold agent_fields in *. cbn [Datatypes.app] in Hend |- *.
    rewrite concat_tab_cons in Hend |- *.
    destruct (str (bucket_id a)) as [|c0 r0] eqn:Eb;
      [exfalso; exact (str_nonempty _ Eb)|].
    cbn [append] in Hend |- *.
    apply strip_line; [|exact Hend].
    pose proof (str_numeral (bucket_id a)) as Hb. rewrite Eb in Hb.
    cbn [all_chars] in Hb. apply andb_true_iff in Hb. destruct Hb as [Hb _].
    apply numeral_not_space, Hb. }
  unfold parse_line. rewrite Hstrip.
  destruct (String.eqb_spec (String.concat tab (agent_fields name w h opt a))
              EmptyString) as [E|_].
  { exfalso. unfold agent_fields in E. cbn [Datatypes.app] in E.
    rewrite concat_tab_cons in E.
    destruct (str (bucket_id a)) eqn:Eb; [exact (str_nonempty _ Eb)|discriminate]. }
  rewrite split_concat_tab; [|unfold agent_fields; discriminate | exact Hfields].
  unfold agent_fields.
  set (wf := waypoint_fields (waypoints a)).
  assert (Hlen : Z.of_nat (List.length
                   ([str (bucket_id a); name; w; h; str (fst (start a));
                     str (snd (start a)); str (fst (goal a));
                     str (snd (goal a)); opt; str (K a)] ++ wf)%list)
                 = 10 + 2 * waypoint_count a).
  { rewrite length_app. unfold wf. rewrite waypoint_fields_length.
    unfold waypoint_count. cbn [List.length]. lia. }
  rewrite Hlen.
  assert (Hk0 : 0 <= waypoint_count a) by (unfold waypoint_count; lia).
  replace (10 + 2 * waypoint_count a <? 10) with false
    by (symmetry; apply Z.ltb_ge; lia).
  cbn [Datatypes.app].
  rewrite (int_field_at _ 4 (fst (start a))) by (first [lia | reflexivity]).
  rewrite (int_field_at _ 5 (snd (start a))) by (first [lia | reflexivity]).
  rewrite (int_field_at _ 6 (fst (goal a))) by (first [lia | reflexivity]).
  rewrite (int_field_at _ 7 (snd (goal a))) by (first [lia | reflexivity]).
  rewrite (int_field_at _ 9 (K a)) by (first [lia | reflexivity]).
  rewrite (int_field_at _ 0 (bucket_id a)) by (first [lia | reflexivity]).
  cbn [bind].
  replace (10 + K a * 2 <=? 10 + 2 * waypoint_count a) with true
    by (symmetry; apply Z.leb_le; lia).
  unfold slice_from. cbn [skipn]. unfold range.
  rewrite HK. unfold waypoint_count. rewrite Nat2Z.id.
  pose proof (collect_waypoints_reads (waypoints a) [] []) as Hc.
  cbn [Datatypes.app List.length] in Hc. fold wf in Hc. rewrite Hc. cbn [bind].
  destruct a as [[sr sc] [gr gc] wps k b]. cbn in *. rewrite HK. reflexivity.
Qed.

Lemma plain_not_tab (c : ascii) : plain c = true -> not_char TAB c = true.
Proof.
  unfold plain. intros H. apply andb_true_iff in H. destruct H as [H _].
  apply andb_true_iff in H. destruct H as [H _]. exact H.
Qed.

Lemma plain_not_lf (c : ascii) : plain c = true -> not_char LF c = true.
Proof.
  unfold plain. intros H. apply andb_true_iff in H. destruct H as [H _].
  apply andb_true_iff in H. destruct H as [_ H]. exact H.
Qed.

Lemma plain_not_cr (c : ascii) : plain c = true -> not_char CR c = true.
Proof.
  unfold plain. intros H. apply andb_true_iff in H. destruct H as [_ H]. exact H.
Qed.

(** A text made of lines without line breaks inside is read line by line. *)
Lemma readlines_lines (bodies : list string) :
  Forall (fun b => all_chars (not_char LF) b = true
                   /\ all_chars (not_char CR) b = true) bodies ->
  readlines (String.concat EmptyString (List.map (fun b => b ++ nl) bodies))
  = List.map (fun b => b ++ nl) bodies.
Proof.
  intros Hall. unfold readlines.
  assert (H : keep_lines (String.concat EmptyString
                            (List.map (fun b => b ++ nl) bodies))
              = List.map (fun b => b ++ nl) bodies /\
              all_chars (not_char CR)
                (String.concat EmptyString (List.map (fun b => b ++ nl) bodies))
              = true).
  { induction Hall as [|b bodies [Hlf Hcr] _ [IHk IHc]]; [split; reflexivity|].
    cbn [List.map]. rewrite concat_cons, append_assoc.
    change (nl ++ ?t) with (String LF t).
    split.
    - rewrite keep_lines_line by exact Hlf. now rewrite IHk.
    - rewrite all_chars_app. cbn [all_chars]. rewrite Hcr, IHc. reflexivity. }
  destruct H as [Hk Hc]. rewrite universal_newlines_same by exact Hc. exact Hk.
Qed.

Lemma agent_fields_plain (name w h opt : string) (a : agent) :
  Forall single_field [name; w; h; opt] ->
  Forall (fun f => all_chars plain f = true) (agent_fields name w h opt a).
Proof.
  intros Hplain.
  inversion Hplain as [|? ? Hname H1]; subst.
  inversion H1 as [|? ? Hw H2]; subst.
  inversion H2 as [|? ? Hh H3]; subst.
  inversion H3 as [|? ? Hopt _]; subst.
  assert (Hn : forall z, all_chars plain (str z) = true)
    by (intros z; apply str_chars; auto).
  unfold agent_fields. apply Forall_app. split.
  - repeat constructor; auto.
  - eapply Forall_impl; [|apply waypoint_fields_numeral].
    intros f [_ Hf]. apply (all_chars_impl numeral); [|exact Hf].
    apply numeral_plain.
Qed.

Lemma waypoint_file_lines (name w h opt : string) (agents : list agent) :
  Forall single_field [name; w; h; opt] ->
  readlines (waypoint_file name w h opt agents)
  = header :: List.map (waypoint_line name w h opt) agents.
Proof.
  intros Hplain.
  pose proof (readlines_lines
                ("version 1"
                 :: List.map (fun a => String.concat tab (agent_fields name w h opt a))
                      agents)) as H.
  cbn [List.map] in H. rewrite concat_cons, List.map_map in H.
  apply H. constructor; [split; reflexivity|].
  apply Forall_map, Forall_forall. intros a _.
  pose proof (agent_fields_plain name w h opt a Hplain) as Hf.
  split; apply all_chars_concat_tab; try reflexivity;
    (eapply Forall_impl; [|exact Hf]); intros f Hp;
    (eapply all_chars_impl; [|exact Hp]);
    [apply plain_not_lf | apply plain_not_cr].
Qed.

Lemma agents_of_waypoint_lines (name w h opt : string) (agents : list agent) :
  Forall single_field [name; w; h; opt] ->
  Forall (fun a => K a = waypoint_count a) agents ->
  agents_of_lines (List.map (waypoint_line name w h opt) agents) = agents.
Proof.
  intros Hplain HK.
  assert (Ht : Forall (fun f => all_chars (not_char TAB) f = true) [name; w; h; opt]).
  { eapply Forall_impl; [|exact Hplain]. intros f Hf.
    eapply all_chars_impl; [apply plain_not_tab | exact Hf]. }
  induction HK as [|a agents Ha _ IH]; [reflexivity|].
  unfold agents_of_lines in *. cbn [List.map flat_map].
  rewrite (parse_waypoint_line name w h opt a Ht Ha), IH. reflexivity.
Qed.

(** X5.  A scenario file written in the format the parser expects is read
    back as the agents it was written from: for agents whose [K] is their
    number of waypoints, and for any texts without tab or line break in the
    four fields the parser does not look at, [parse_waypoint_scenario]
    returns exactly these agents, in order, and prints nothing, as soon as
    it may run for one pass per line. *)
Theorem waypoint_file_reads_back (name w h opt : string) (agents : list agent)
    (fuel : nat) :
  Forall single_field [name; w; h; opt] ->
  Forall (fun a => K a = waypoint_count a) agents ->
  (List.length agents + 1 < fuel)%nat ->
  parse_waypoint_scenario fuel (waypoint_file name w h opt agents)
  = Some (Ok agents, []).
Proof.
  intros Hplain HK Hfuel.
  assert (Ht : Forall (fun f => all_chars (not_char TAB) f = true) [name; w; h; opt]).
  { eapply Forall_impl; [|exact Hplain]. intros f Hf.
    eapply all_chars_impl; [apply plain_not_tab | exact Hf]. }
  assert (Hline : forall raw,
             In raw (List.map (waypoint_line name w h opt) agents) ->
             exists a, parse_line raw = Ok (Appended a)).
  { intros raw Hin. apply in_map_iff in Hin. destruct Hin as [a [<- Hin]].
    exists a. apply parse_waypoint_line; [exact Ht|].
    rewrite Forall_forall in HK. apply HK, Hin. }
  unfold parse_waypoint_scenario.
  rewrite (waypoint_file_lines name w h opt agents Hplain).
  set (lines := header :: List.map (waypoint_line name w h opt) agents).
  change (start_idx lines) with 1%nat.
  destruct (parse_loop_returns lines) with (fuel := fuel) (i := 1%nat)
    (agents := @nil agent) (out := @nil string) as [r Hr].
  - intros raw k [<- | Hin]; [discriminate|].
    destruct (Hline raw Hin) as [a Ha]. rewrite Ha. discriminate.
  - unfold lines. cbn [List.length]. rewrite length_map. lia.
  - rewrite Hr. destruct (parse_loop_result _ _ _ _ _ _ _ Hr) as [_ Hres].
    destruct r as [result|e].
    + destruct Hres as [-> _]. unfold lines. cbn [skipn Datatypes.app].
      rewrite (agents_of_waypoint_lines name w h opt agents Hplain HK).
      reflexivity.
    + exfalso. destruct Hres as [j [raw [Hj [Hn [Hp _]]]]].
      destruct j as [|j]; [lia|]. unfold lines in Hn. cbn [nth_error] in Hn.
      apply nth_error_In in Hn. destruct (Hline raw Hn) as [a Ha].
      rewrite Ha in Hp. discriminate.
Qed.

Lemma waypoint_file_reads_back_witness :
  parse_waypoint_scenario 4 (waypoint_file "m.map" "8" "8" "4" [agent_A; agent_B])
  = Some (Ok [agent_A; agent_B], []).
Proof.
  apply (waypoint_file_reads_back "m.map" "8" "8" "4" [agent_A; agent_B] 4).
  - repeat constructor.
  - repeat constructor.
  - cbn. lia.
Defined.

(** *** Segments, budgets and declared waypoints *)

Lemma route_tail (a : agent) (n : nat) :
  nth_error (route a) (S n) = nth_error (waypoints a ++ [goal a])%list n.
Proof. reflexivity. Qed.

(** X6.  The segments of an agent are the legs of its way: for an agent
    with [k] waypoints and every segment index [i] up to [k], the segment
    goes from the [i]-th to the [i+1]-th point of start, waypoints, goal;
    and the next segment starts where this one ends. *)
Theorem segments_follow_the_route (a : agent) (i : nat) :
  (i <= List.length (waypoints a))%nat ->
  exists s g g',
    segment_endpoints a (Z.of_nat i) = Ok (s, g) /\
    nth_error (route a) i = Some s /\
    nth_error (route a) (S i) = Some g /\
    segment_endpoints a (Z.of_nat (S i)) = Ok (g, g').
Proof.
  intros Hi.
  assert (Hleg : forall j, (j <= List.length (waypoints a))%nat ->
            exists s g,
              segment_endpoints a (Z.of_nat j) = Ok (s, g) /\
              nth_error (route a) j = Some s /\
              nth_error (route a) (S j) = Some g).
  { intros j Hj.
    destruct (segment_endpoints_rule a (Z.of_nat j)) as [[s g] [He Hr]]; [lia|].
    exists s, g. split; [exact He|].
    unfold three_case_rule, waypoint_count in Hr. cbn [fst snd] in Hr.
    destruct Hr as [H0 [Hmid _]].
    destruct j as [|j].
    - destruct (H0 eq_refl) as [-> ->]. split; [reflexivity|].
      unfold route. destruct (waypoints a); reflexivity.
    - destruct Hmid as [Hs [Hlt Heq]]; [lia|].
      replace (Z.to_nat (Z.of_nat (S j) - 1)) with j in Hs by lia.
      rewrite Nat2Z.id in Hlt.
      rewrite !route_tail. split.
      + rewrite <- Hs. apply nth_error_app1. lia.
      + destruct (Nat.eq_dec (S j) (List.length (waypoints a))) as [E | Hne].
        * rewrite Heq by lia.
          etransitivity; [apply nth_error_app2; lia|].
          replace (S j - List.length (waypoints a))%nat with 0%nat by lia.
          reflexivity.
        * rewrite <- Hlt by lia. apply nth_error_app1. lia. }
  destruct (Hleg i Hi) as [s [g [He [Hs Hg]]]].
  destruct (Nat.eq_dec i (List.length (waypoints a))) as [E | Hne].
  - exists s, g, g. repeat split; try assumption.
    destruct (segment_endpoints_rule a (Z.of_nat (S i))) as [[s' g'] [He' Hr]]; [lia|].
    unfold three_case_rule, waypoint_count in Hr. cbn [fst snd] in Hr.
    destruct Hr as [_ [_ Hbig]]. destruct Hbig as [-> ->]; [lia|].
    rewrite He'.
    rewrite route_tail in Hg.
    assert (Hgoal : nth_error (waypoints a ++ [goal a])%list i = Some (goal a)).
    { etransitivity; [apply nth_error_app2; lia|].
      replace (i - List.length (waypoints a))%nat with 0%nat by lia.
      reflexivity. }
    congruence.
  - destruct (Hleg (S i)) as [s' [g' [He' [Hs' _]]]]; [lia|].
    exists s, g, g'. repeat split; try assumption.
    rewrite He'. congruence.
Qed.

Lemma segments_follow_the_route_witness :
  exists s g g',
    segment_endpoints agent_A 1 = Ok (s, g) /\
    nth_error (route agent_A) 1 = Some s /\
    nth_error (route agent_A) 2 = Some g /\
    segment_endpoints agent_A 2 = Ok (g, g').
Proof.
  apply (segments_follow_the_route agent_A 1). cbn. lia.
Defined.

(** X7.  The time budgets of the segments against the total timeout [T]:
    every segment gets at least one second; when [T] is at least the number
    of segments [n], the [n] budgets add up to at most [T] and fall short
    of it by less than [n]; when [T] is smaller than [n] each segment
    still gets one second, so the budgets add up to more than [T]; and the
    limits handed to [subprocess.run], ten seconds above each budget,
    always add up to more than [T]. *)
Theorem segment_budgets_and_total (agents : list agent) (T n : Z) :
  count_segments agents = Ok n ->
  exists s,
    segment_timeout T n = Ok s /\ 1 <= s /\
    (n <= T -> n * s <= T < n * s + n) /\
    (T < n -> s = 1 /\ T < n * s) /\
    T < n * (s + 10).
Proof.
  intros Hcount. pose proof (count_segments_positive agents n Hcount) as Hn.
  exists (Z.max 1 (T / n)). split; [apply segment_timeout_value; lia|].
  pose proof (Z.mul_div_le T n ltac:(lia)) as Hle.
  pose proof (Z.mul_succ_div_gt T n ltac:(lia)) as Hgt.
  split; [lia|]. split; [|split].
  - intros HT. assert (1 <= T / n) by (apply Z.div_le_lower_bound; lia).
    rewrite Z.max_r by lia. lia.
  - intros HT. assert (T / n <= 0).
    { destruct (Z.lt_ge_cases T 0) as [Hneg | Hpos].
      - assert (T / n < 0) by (apply Z.div_lt_upper_bound; lia). lia.
      - rewrite Z.div_small by lia. lia. }
    rewrite Z.max_l by lia. lia.
  - nia.
Qed.

Lemma segment_budgets_and_total_witness :
  exists s,
    segment_timeout 100 2 = Ok s /\ 1 <= s /\
    (2 <= 100 -> 2 * s <= 100 < 2 * s + 2) /\
    (100 < 2 -> s = 1 /\ 100 < 2 * s) /\
    100 < 2 * (s + 10).
Proof.
  apply (segment_budgets_and_total [agent_A; agent_B] 100 2). reflexivity.
Defined.

Lemma parse_line_negative_K (raw : string) (a : agent) :
  parse_line raw = Ok (Appended a) -> K a < 0 -> waypoints a = [].
Proof.
  unfold parse_line.
  destruct (String.eqb (strip raw) EmptyString); [discriminate|].
  set (parts := split TAB (strip raw)).
  destruct (Z.of_nat (List.length parts) <? 10); [discriminate|].
  destruct (int_field parts 4) as [sr|]; [|discriminate].
  destruct (int_field parts 5) as [sc|]; [|discriminate].
  destruct (int_field parts 6) as [gr|]; [|discriminate].
  destruct (int_field parts 7) as [gc|]; [|discriminate].
  destruct (int_field parts 9) as [k|]; [|discriminate].
  cbn [bind].
  destruct (10 + k * 2 <=? Z.of_nat (List.length parts)); [|discriminate].
  destruct (Z.lt_ge_cases k 0) as [Hneg | Hpos].
  - unfold range. replace (Z.to_nat k) with 0%nat by lia.
    cbn [seq List.map collect_waypoints bind].
    destruct (int_field parts 0) as [b|]; [|discriminate].
    cbn [bind]. intros H. injection H as <-. reflexivity.
  - destruct (collect_waypoints (slice_from parts 10) (range k) []) as [wps|];
      [|discriminate].
    destruct (int_field parts 0) as [b|]; [|discriminate].
    cbn [bind]. intros H. injection H as <-. cbn [K]. lia.
Qed.

(** A line in the format of a waypoint scenario is read as its agent
    whenever the agent has as many waypoints as its [K] declares, none for
    a negative [K]. *)
Lemma parse_declared_line (name w h opt : string) (a : agent) :
  Forall (fun f => all_chars (not_char TAB) f = true) [name; w; h; opt] ->
  waypoint_count a = Z.max 0 (K a) ->
  parse_line (waypoint_line name w h opt a) = Ok (Appended a).
Proof.
  intros Hplain HK.
  assert (Hn : forall z, all_chars (not_char TAB) (str z) = true).
  { intros z. apply str_chars. intros c H. unfold plain in H.
    apply andb_true_iff in H. destruct H as [H _].
    apply andb_true_iff in H. destruct H as [H _]. exact H. }
  inversion Hplain as [|? ? Hname H1]; subst.
  inversion H1 as [|? ? Hw H2]; subst.
  inversion H2 as [|? ? Hh H3]; subst.
  inversion H3 as [|? ? Hopt _]; subst.
  assert (Hfields : Forall (fun f => all_chars (not_char TAB) f = true)
                      (agent_fields name w h opt a)).
  { unfold agent_fields. apply Forall_app. split.
    - repeat constructor; auto.
    - eapply Forall_impl; [|apply waypoint_fields_numeral].
      intros f [_ Hf]. apply (all_chars_impl numeral); [|exact Hf].
      intros c Hc. apply numeral_plain in Hc. unfold plain in Hc.
      apply andb_true_iff in Hc. destruct Hc as [Hc _].
      apply andb_true_iff in Hc. destruct Hc as [Hc _]. exact Hc. }
  assert (Hstrip : strip (waypoint_line name w h opt a)
                   = String.concat tab (agent_fields name w h opt a)).
  { unfold waypoint_line.
    assert (Hend : ends_unspaced (String.concat tab (agent_fields name w h opt a))).
    { unfold agent_fields.
      pose proof (waypoint_fields_numeral (waypoints a)) as Hall.
      destruct (waypoint_fields (waypoints a)) as [|f fs].
      - rewrite app_nil_r.
        apply (ends_unspaced_concat_tab
                 [str (bucket_id a); name; w; h; str (fst (start a));
                  str (snd (start a)); str (fst (goal a)); str (snd (goal a)); opt]
                 (str (K a))).
        apply ends_unspaced_numeral; [apply str_nonempty | apply str_numeral].
      - destruct (exists_last (l := f :: fs)) as [front [l El]]; [discriminate|].
        rewrite El in Hall |- *. apply Forall_app in Hall. destruct Hall as [_ Hl].
        inversion Hl as [|? ? [Hl1 Hl2] _]; subst.
        rewrite app_assoc.
        apply ends_unspaced_concat_tab, ends_unspaced_numeral; assumption. }
    unfold agent_fields in *. cbn [Datatypes.app] in Hend |- *.
    rewrite concat_tab_cons in Hend |- *.
    destruct (str (bucket_id a)) as [|c0 r0] eqn:Eb;
      [exfalso; exact (str_nonempty _ Eb)|].
    cbn [append] in Hend |- *.
    apply strip_line; [|exact Hend].
    pose proof (str_numeral (bucket_id a)) as Hb. rewrite Eb in Hb.
    cbn [all_chars] in Hb. apply andb_true_iff in Hb. destruct Hb as [Hb _].
    apply numeral_not_space, Hb. }
  unfold parse_line. rewrite Hstrip.
  destruct (String.eqb_spec (String.concat tab (agent_fields name w h opt a))
              EmptyString) as [E|_].
  { exfalso. unfold agent_fields in E. cbn [Datatypes.app] in E.
    rewrite concat_tab_cons in E.
    destruct (str (bucket_id a)) eqn:Eb; [exact (str_nonempty _ Eb)|discriminate]. }
  rewrite split_concat_tab; [|unfold agent_fields; discriminate | exact Hfields].
  unfold agent_fields.
  set (wf := waypoint_fields (waypoints a)).
  assert (Hlen : Z.of_nat (List.length
                   ([str (bucket_id a); name; w; h; str (fst (start a));
                     str (snd (start a)); str (fst (goal a));
                     str (snd (goal a)); opt; str (K a)] ++ wf)%list)
                 = 10 + 2 * waypoint_count a).
  { rewrite length_app. unfold wf. rewrite waypoint_fields_length.
    unfold waypoint_count. cbn [List.length]. lia. }
  rewrite Hlen.
  assert (Hk0 : 0 <= waypoint_count a) by (unfold waypoint_count; lia).
  replace (10 + 2 * waypoint_count a <? 10) with false
    by (symmetry; apply Z.ltb_ge; lia).
  cbn [Datatypes.app].
  rewrite (int_field_at _ 4 (fst (start a))) by (first [lia | reflexivity]).
  rewrite (int_field_at _ 5 (snd (start a))) by (first [lia | reflexivity]).
  rewrite (int_field_at _ 6 (fst (goal a))) by (first [lia | reflexivity]).
  rewrite (int_field_at _ 7 (snd (goal a))) by (first [lia | reflexivity]).
  rewrite (int_field_at _ 9 (K a)) by (first [lia | reflexivity]).
  rewrite (int_field_at _ 0 (bucket_id a)) by (first [lia | reflexivity]).
  cbn [bind].
  replace (10 + K a * 2 <=? 10 + 2 * waypoint_count a) with true
    by (symmetry; apply Z.leb_le; lia).
  unfold slice_from. cbn [skipn]. unfold range.
  replace (Z.to_nat (K a)) with (List.length (waypoints a))
    by (unfold waypoint_count in HK; lia).
  pose proof (collect_waypoints_reads (waypoints a) [] []) as Hc.
  cbn [Datatypes.app List.length] in Hc. fold wf in Hc. rewrite Hc. cbn [bind].
  destruct a as [[sr sc] [gr gc] wps k b]. reflexivity.
Qed.

(** X8.  Every agent the parser returns has as many waypoints as its line
    declares, and none when the line declares a negative number: the
    length of its waypoint list is [max(0, K)].  Every such agent is
    returned: a file in the format of a waypoint scenario whose agents
    have [max(0, K)] waypoints each, a negative [K] with no waypoint among
    them, is parsed into exactly these agents, the negative [K] stored as
    it stands, without any warning. *)
Theorem parsed_agents_have_declared_waypoints :
  (forall fuel content agents out,
      parse_waypoint_scenario fuel content = Some (Ok agents, out) ->
      Forall (fun a => waypoint_count a = Z.max 0 (K a)) agents) /\
  (forall name w h opt agents fuel,
      Forall single_field [name; w; h; opt] ->
      Forall (fun a => waypoint_count a = Z.max 0 (K a)) agents ->
      (List.length agents + 1 < fuel)%nat ->
      parse_waypoint_scenario fuel (waypoint_file name w h opt agents)
      = Some (Ok agents, [])).
Proof.
  split.
  - intros fuel content agents out. unfold parse_waypoint_scenario. intros H.
    eapply parse_loop_keeps; [|constructor|exact H].
    intros raw a _ Hp. cbv beta.
    destruct (Z.lt_ge_cases (K a) 0) as [Hneg | Hpos].
    + unfold waypoint_count. rewrite (parse_line_negative_K raw a Hp Hneg).
      cbn [List.length]. lia.
    + rewrite <- (parse_line_waypoint_count raw a Hp) by lia. lia.
  - intros name w h opt agents fuel Hplain HK Hfuel.
    assert (Ht : Forall (fun f => all_chars (not_char TAB) f = true)
                   [name; w; h; opt]).
    { eapply Forall_impl; [|exact Hplain]. intros f Hf.
      eapply all_chars_impl; [apply plain_not_tab | exact Hf]. }
    assert (Hline : forall a, In a agents ->
               parse_line (waypoint_line name w h opt a) = Ok (Appended a)).
    { intros a Hin. apply parse_declared_line; [exact Ht|].
      rewrite Forall_forall in HK. apply HK, Hin. }
    unfold parse_waypoint_scenario.
    rewrite (waypoint_file_lines name w h opt agents Hplain).
    set (lines := header :: List.map (waypoint_line name w h opt) agents).
    change (start_idx lines) with 1%nat.
    destruct (parse_loop_returns lines) with (fuel := fuel) (i := 1%nat)
      (agents := @nil agent) (out := @nil string) as [r Hr].
    + intros raw k [<- | Hin]; [discriminate|].
      apply in_map_iff in Hin. destruct Hin as [a [<- Hin]].
      rewrite (Hline a Hin). discriminate.
    + unfold lines. cbn [List.length]. rewrite length_map. lia.
    + rewrite Hr. destruct (parse_loop_result _ _ _ _ _ _ _ Hr) as [_ Hres].
      destruct r as [result|e].
      * destruct Hres as [-> _]. unfold lines. cbn [skipn Datatypes.app].
        assert (E : agents_of_lines (List.map (waypoint_line name w h opt) agents)
                    = agents).
        { clear - Hline.
          induction agents as [|a agents IH]; [reflexivity|].
          unfold agents_of_lines in *. cbn [List.map flat_map].
          rewrite (Hline a (or_introl eq_refl)), IH; [reflexivity|].
          intros a' Hin. apply Hline. right. exact Hin. }
        rewrite E. reflexivity.
      * exfalso. destruct Hres as [j [raw [Hj [Hn [Hp _]]]]].
        destruct j as [|j]; [lia|]. unfold lines in Hn. cbn [nth_error] in Hn.
        apply nth_error_In, in_map_iff in Hn. destruct Hn as [a [<- Hin]].
        rewrite (Hline a Hin) in Hp. discriminate.
Qed.

Lemma parsed_agents_have_declared_waypoints_witness :
  parse_waypoint_scenario 4 (waypoint_file "m.map" "8" "8" "4" [agent_A; agent_N])
  = Some (Ok [agent_A; agent_N], []) /\
  K agent_N = -2 /\ waypoints agent_N = [] /\
  Forall (fun a => waypoint_count a = Z.max 0 (K a)) [agent_A; agent_N].
Proof.
  destruct parsed_agents_have_declared_waypoints as [Hcount Hparse].
  assert (H : parse_waypoint_scenario 4
                (waypoint_file "m.map" "8" "8" "4" [agent_A; agent_N])
              = Some (Ok [agent_A; agent_N], [])).
  { apply Hparse; [repeat constructor | repeat constructor | cbn; lia]. }
  split; [exact H|]. split; [reflexivity|]. split; [reflexivity|].
  exact (Hcount _ _ _ _ H).
Defined.

(** *** The summary of an experiment *)

Lemma sum_costs_app (xs ys : list segment_result) :
  sum_costs (xs ++ ys) = sum_costs xs + sum_costs ys.
Proof.
  unfold sum_costs. induction xs as [|x xs IH]; cbn [List.map fold_right Datatypes.app].
  - reflexivity.
  - change ((x :: xs) ++ ys)%list with (x :: (xs ++ ys))%list.
    cbn [List.map fold_right]. rewrite IH. lia.
Qed.

(** A pass of the segment loop whose solver run returns a cost adds the
    record of the segment to the totals. *)
Lemma run_segment_record (env : environment) (agents : list agent)
    (args : arguments) (out_dir : string) (seg_timeout : Z) (acc : totals)
    (i n : nat) :
  let r := solver env n (segment_cmd env agents args seg_timeout i) in
  returns_cost r = true ->
  exists ev,
    run_segment env agents args out_dir seg_timeout acc (Z.of_nat i) n
    = (Return {| t_runtime := (t_runtime acc + elapsed r)%Q;
                 t_cost := t_cost acc + read_cost (artifact r);
                 t_results := (t_results acc ++ [segment_record i r])%list |},
       ev, S n).
Proof.
  cbv zeta.
  unfold run_segment, run_lacam_segment, segment_cmd, segment_record.
  rewrite (scenario_text_ok env agents (Z.of_nat i)) by lia.
  unfold returns_cost, subprocess_run, bindM, emit, lift, ret.
  cbv beta zeta.
  match goal with
  | |- context [solver env n ?c] => generalize (solver env n c); intros r
  end.
  destruct (proc r) as [rc so se|]; [|discriminate].
  intros Hrc. rewrite Hrc. cbn [negb].
  destruct (artifact r) as [content|]; eexists; reflexivity.
Qed.

Section SegmentRecords.

Variable env : environment.
Variable agents : list agent.
Variable args : arguments.
Variable out_dir : string.
Variable seg_timeout : Z.
Variable n0 : nat.

Let run_at (j : nat) : solver_run :=
  solver env (n0 + j) (segment_cmd env agents args seg_timeout j).

(** The totals after a loop all of whose solver runs return a cost. *)
Lemma segment_loop_records (len : nat) :
  forall a acc,
    (forall j, (a <= j < a + len)%nat -> returns_cost (run_at j) = true) ->
    exists acc' ev,
      for_each (List.map Z.of_nat (seq a len))
        (run_segment env agents args out_dir seg_timeout) acc (n0 + a)%nat
      = (Return acc', ev, (n0 + a + len)%nat) /\
      t_results acc'
      = (t_results acc
         ++ List.map (fun j => segment_record j (run_at j)) (seq a len))%list /\
      t_cost acc'
      = t_cost acc
        + sum_costs (List.map (fun j => segment_record j (run_at j)) (seq a len)).
Proof.
  induction len as [|len IH]; intros a acc Hok.
  - exists acc, []. cbn [seq List.map for_each]. unfold ret.
    split; [f_equal; lia|]. split; [now rewrite app_nil_r|].
    unfold sum_costs. cbn. lia.
  - cbn [seq List.map for_each]. unfold bindM.
    destruct (run_segment_record env agents args out_dir seg_timeout acc a
                (n0 + a)) as [ev1 Hrun].
    { apply (Hok a). lia. }
    fold (run_at a) in Hrun. rewrite Hrun.
    match type of Hrun with
    | _ = (Return ?t, _, _) => set (acc1 := t) in *
    end.
    destruct (IH (S a) acc1) as [acc' [ev2 [Hloop [Hres Hcost]]]].
    { intros j Hj. apply Hok. lia. }
    replace (n0 + S a)%nat with (S (n0 + a)) in Hloop by lia.
    rewrite Hloop. exists acc', (ev1 ++ ev2)%list.
    split; [f_equal; lia|]. split.
    + rewrite Hres. unfold acc1. cbn [t_results]. now rewrite <- app_assoc.
    + rewrite Hcost. unfold acc1. cbn [t_cost].
      change (segment_record a (run_at a)
              :: List.map (fun j => segment_record j (run_at j)) (seq (S a) len))
        with ([segment_record a (run_at a)]
              ++ List.map (fun j => segment_record j (run_at j)) (seq (S a) len))%list.
      rewrite sum_costs_app. unfold sum_costs at 2. cbn [List.map fold_right cost segment_record].
      lia.
Qed.

End SegmentRecords.

(** X9.  The summary an experiment returns adds up: it holds one record
    per segment, numbered from 0 in order, each with the cost and the
    metrics read from the output of the solver run of that segment, and its
    total cost is the sum of the costs of these records. *)
Theorem summary_adds_up (env : environment) (agents : list agent)
    (args : arguments) (out_dir : string) (n0 n' : nat) (s : summary)
    (ev : list event) :
  run_experiment env agents args out_dir n0 = (Return s, ev, n') ->
  exists n,
    count_segments agents = Ok n /\
    per_segment_timeout s = Z.max 1 (a_timeout args / n) /\
    segment_results s
    = List.map (fun j => segment_record j
                           (solver env (n0 + j)
                              (segment_cmd env agents args
                                 (per_segment_timeout s) j)))
        (seq 0 (Z.to_nat n)) /\
    List.map segment_id (segment_results s) = range n /\
    total_cost s = sum_costs (segment_results s).
Proof.
  intros Hrun.
  destruct (count_segments agents) as [n|e] eqn:Hcount.
  2:{ unfold run_experiment, bindM, lift in Hrun. rewrite Hcount in Hrun.
      discriminate. }
  exists n. split; [reflexivity|].
  pose proof (count_segments_positive agents n Hcount) as Hpos.
  set (seg_timeout := Z.max 1 (a_timeout args / n)).
  destruct (all_or_first_failure
              (fun j => returns_cost
                 (solver env (n0 + j)
                    (segment_cmd env agents args seg_timeout j)))
              (Z.to_nat n)) as [Hall | [k [Hk [Hfail Hbefore]]]].
  2:{ destruct (run_experiment_stops env agents args out_dir n0 n Hcount k
                  Hk Hbefore Hfail) as [ev' [Hrun' _]].
      rewrite Hrun in Hrun'. discriminate. }
  destruct (segment_loop_records env agents args out_dir seg_timeout n0
              (Z.to_nat n) 0
              {| t_runtime := 0%Q; t_cost := 0; t_results := [] |})
    as [acc [evl [Hloop [Hres Hcost]]]].
  { intros j Hj. apply Hall. lia. }
  replace (n0 + 0)%nat with n0 in Hloop by lia.
  cbn [t_results t_cost Datatypes.app] in Hres, Hcost.
  unfold run_experiment in Hrun. rewrite Hcount, bindM_lift_ok in Hrun.
  rewrite segment_timeout_value in Hrun by lia.
  rewrite bindM_lift_ok, bindM_emit in Hrun. fold seg_timeout in Hrun.
  erewrite bindM_return in Hrun.
  2:{ unfold guarded, range. rewrite Hloop. reflexivity. }
  rewrite !bindM_emit in Hrun. unfold ret in Hrun. cbn [fst snd] in Hrun.
  injection Hrun as <- _ _.
  cbn [summarize per_segment_timeout segment_results total_cost].
  split; [reflexivity|]. split; [exact Hres|]. split.
  - rewrite Hres, List.map_map. unfold range. apply List.map_ext.
    intros j. reflexivity.
  - rewrite Hcost, Hres. lia.
Qed.

Lemma summary_adds_up_witness :
  exists s ev n',
    run_experiment steady_env [agent_A; agent_B] single_args "out" 0%nat
    = (Return s, ev, n') /\
    List.map segment_id (segment_results s) = [0; 1] /\
    List.map cost (segment_results s) = [4; 4] /\
    List.map makespan (segment_results s) = [3; 3] /\
    total_cost s = 8 /\
    per_segment_timeout s = 50.
Proof.
  eexists. eexists. eexists. split; [reflexivity|].
  destruct (summary_adds_up steady_env [agent_A; agent_B] single_args "out"
              0%nat _ _ _ eq_refl) as [n [Hn [Ht [Hres [Hids Hsum]]]]].
  injection Hn as <-.
  split; [exact Hids|].
  split; [rewrite Hres; reflexivity|].
  split; [rewrite Hres; reflexivity|].
  split; [rewrite Hsum, Hres; reflexivity | exact Ht].
Defined.

(** *** Agent counts and the sweep *)

(** The solver commands of an experiment are commands of its segments,
    with a time limit of at least one second. *)
Lemma run_experiment_cmds (env : environment) (agents : list agent)
    (args : arguments) (out_dir : string) (n0 : nat) (cmd : solver_cmd) :
  In cmd (solver_cmds (snd (fst (run_experiment env agents args out_dir n0)))) ->
  exists seg_timeout j,
    cmd = segment_cmd env agents args seg_timeout j /\ 1 <= seg_timeout.
Proof.
  destruct (count_segments agents) as [n|e] eqn:Hcount.
  - destruct (all_or_first_failure
                (fun j => returns_cost
                   (solver env (n0 + j)
                      (segment_cmd env agents args
                         (Z.max 1 (a_timeout args / n)) j)))
                (Z.to_nat n)) as [Hall | [k [Hk [Hfail Hbefore]]]].
    + destruct (run_experiment_completes env agents args out_dir n0 n Hcount Hall)
        as [s [ev [-> [Hc _]]]].
      cbn [fst snd]. rewrite Hc. intros Hin. apply in_map_iff in Hin.
      destruct Hin as [j [<- _]]. eexists. exists j. split; [reflexivity | lia].
    + destruct (run_experiment_stops env agents args out_dir n0 n Hcount k Hk
                  Hbefore Hfail) as [ev [-> [Hc _]]].
      cbn [fst snd]. rewrite Hc. intros Hin. apply in_map_iff in Hin.
      destruct Hin as [j [<- _]]. eexists. exists j. split; [reflexivity | lia].
  - unfold run_experiment, bindM, lift. rewrite Hcount. cbn [fst snd].
    intros [].
Qed.

(** X10.  The solver never sees the agent count of a scale point as such:
    every solver run of the scale point [c] is made on the agents
    [agents[:c]], with their number as [--num], the seed and the paths of
    the command line, and a time limit of at least one second.  For [c]
    from 0 on that number is the smaller of [c] and the number of parsed
    agents, so with fewer parsed agents than [c] the experiment labelled
    [c] runs on all of them. *)
Theorem scale_point_solver_runs (env : environment) (agents : list agent)
    (args : arguments) (acc : list (Z * summary)) (c : Z) (n : nat)
    (cmd : solver_cmd) :
  In cmd (solver_cmds (snd (fst (run_scale_point env agents args acc c n)))) ->
  c_num cmd = Z.of_nat (List.length (current_agents agents c)) /\
  c_exe cmd = a_exe args /\ c_map cmd = a_map args /\
  c_seed cmd = a_seed args /\ 1 <= c_time_limit cmd /\
  (0 <= c ->
   c_num cmd = Z.min c (Z.of_nat (List.length agents)) /\
   (Z.of_nat (List.length agents) <= c -> current_agents agents c = agents)).
Proof.
  intros Hin.
  destruct (run_scale_point_log env agents args acc c n) as [_ [_ [Hc _]]].
  rewrite Hc in Hin.
  destruct (run_experiment_cmds _ _ _ _ _ _ Hin) as [t [j [-> Ht]]].
  cbn [segment_cmd c_num c_exe c_map c_seed c_time_limit].
  repeat split; try assumption; try reflexivity.
  - unfold current_agents, slice_to.
    destruct (c <? 0) eqn:E; [apply Z.ltb_lt in E; lia|].
    rewrite length_firstn. lia.
  - intros Hle. unfold current_agents, slice_to.
    destruct (c <? 0) eqn:E; [apply Z.ltb_lt in E; lia|].
    apply firstn_all2. lia.
Qed.

Lemma scale_point_solver_runs_witness :
  exists cmd,
    In cmd (solver_cmds
              (snd (fst (run_scale_point moody_env [agent_B] multi_args [] 100
                           2%nat)))) /\
    c_num cmd = 1 /\ current_agents [agent_B] 100 = [agent_B].
Proof.
  eexists. split; [left; reflexivity|].
  destruct (scale_point_solver_runs moody_env [agent_B] multi_args [] 100 2%nat
              _ (or_introl eq_refl)) as [_ [_ [_ [_ [_ H]]]]].
  destruct H as [Hnum Hall]; [lia|].
  split; [exact Hnum | apply Hall; cbn; lia].
Defined.

(** X11.  An agent count that selects no agent ends the program with an
    uncaught [ValueError]: with [--num 0], or [--num N] for [N] at or below
    minus the number of parsed agents, [agents[:N]] is empty, the maximum
    over no agent raises in [run_experiment] outside its [try], and the
    sweep ends there after the banner of the scale point, without a solver
    run, a clean-up or a report file. *)
Theorem empty_selection_raises (env : environment) (agents : list agent)
    (args : arguments) (n0 : nat) (N : Z) :
  a_multi_scale args = false -> a_num args = Some N ->
  N = 0 \/ N <= - Z.of_nat (List.length agents) ->
  current_agents agents N = [] /\
  sweep env agents args n0
  = (Uncaught ValueError, [Console (StartingExperiment N)], n0).
Proof.
  intros Hsingle Hnum HN.
  assert (Hempty : current_agents agents N = []).
  { unfold current_agents, slice_to.
    destruct (N <? 0) eqn:E.
    - apply Z.ltb_lt in E.
      replace (Z.to_nat (Z.max 0 (N + Z.of_nat (List.length agents)))) with 0%nat
        by lia.
      reflexivity.
    - apply Z.ltb_ge in E.
      replace (Z.to_nat (Z.min N (Z.of_nat (List.length agents)))) with 0%nat
        by lia.
      reflexivity. }
  split; [exact Hempty|].
  unfold sweep, Lacam.agent_counts. rewrite Hsingle, Hnum.
  cbn [for_each]. unfold run_scale_point. rewrite Hempty.
  reflexivity.
Qed.

Lemma empty_selection_raises_witness :
  sweep moody_env [agent_A; agent_B]
    {| a_exe := "lacam"; a_map := "m.map"; a_scen := "s.scen"; a_num := Some 0;
       a_multi_scale := false; a_seed := 42; a_timeout := 100; a_out := "out" |}
    0%nat
  = (Uncaught ValueError, [Console (StartingExperiment 0)], 0%nat).
Proof.
  apply (empty_selection_raises moody_env [agent_A; agent_B] _ 0%nat 0).
  - reflexivity.
  - reflexivity.
  - left. reflexivity.
Defined.

(** The rows collected by scale points that all return are labelled with
    the agent counts, in order. *)
Lemma scale_points_rows (env : environment) (agents : list agent)
    (args : arguments) (counts : list Z) :
  forall acc n rs ev n',
    for_each counts (run_scale_point env agents args) acc n = (Return rs, ev, n') ->
    List.map fst rs = (List.map fst acc ++ counts)%list.
Proof.
  induction counts as [|c counts IH]; intros acc n rs ev n' Hrun.
  - cbn [for_each] in Hrun. unfold ret in Hrun. injection Hrun as <- _ _.
    now rewrite app_nil_r.
  - cbn [for_each] in Hrun. unfold bindM in Hrun.
    destruct (run_scale_point_log env agents args acc c n)
      as [_ [_ [_ [_ Hout]]]].
    destruct (run_scale_point env agents args acc c n) as [[o1 ev1] n1].
    cbn [fst snd] in *.
    destruct o1 as [acc1|code|x]; try discriminate.
    destruct (for_each counts (run_scale_point env agents args) acc1 n1)
      as [[o2 ev2] n2] eqn:Hrest.
    injection Hrun as -> _ _.
    rewrite (IH acc1 n1 rs ev2 n2 Hrest).
    destruct (fst (fst (run_experiment env (current_agents agents c) args
                          (current_out_dir args c) n))) as [s|code|x];
      try discriminate.
    injection Hout as ->. rewrite List.map_app, <- app_assoc. reflexivity.
Qed.

(** X12.  A sweep all of whose experiments return ends normally: it has
    one result row per agent count, in order; in multi-scale mode the two
    multi-scale summary files are written once, with these rows, after the
    last experiment and before the table is printed, and in single mode no
    further file is written; the clean-up of the temporary files is the
    last thing done. *)
Theorem sweep_of_returning_experiments (env : environment)
    (agents : list agent) (args : arguments) (n0 n' : nat)
    (rs : list (Z * summary)) (ev : list event) :
  for_each (Lacam.agent_counts args agents) (run_scale_point env agents args)
    [] n0 = (Return rs, ev, n') ->
  List.map fst rs = Lacam.agent_counts args agents /\
  sweep env agents args n0
  = (Return tt,
     (ev ++ (if a_multi_scale args
             then [WriteFile (a_out args) "multi_scale_summary.json" (SweepSummary rs);
                   Console (SummarySaved "multi_scale_summary.json");
                   WriteFile (a_out args) "multi_scale_summary.txt" (SweepSummary rs);
                   Console (SummarySaved "multi_scale_summary.txt");
                   Console (SweepTable rs)]
             else [])
         ++ [Cleanup])%list, n').
Proof.
  intros Hrun. split.
  - apply (scale_points_rows env agents args _ [] n0 rs ev n' Hrun).
  - unfold sweep. rewrite (bindM_return _ _ n0 n' rs ev Hrun).
    destruct (a_multi_scale args); reflexivity.
Qed.

Lemma sweep_of_returning_experiments_witness :
  exists (rs : list (Z * summary)) (ev : list event) (n' : nat),
    sweep moody_env [agent_B] single_args 2%nat
    = (Return tt, (ev ++ [] ++ [Cleanup])%list, n') /\
    List.map fst rs = [1].
Proof.
  eexists. eexists. eexists.
  destruct (sweep_of_returning_experiments moody_env [agent_B] single_args 2%nat
              _ _ _ eq_refl) as [Hrows Hsweep].
  split; [exact Hsweep | exact Hrows].
Defined.

(** *** The cost of a segment *)

Lemma split_single (sep : ascii) (f : string) :
  all_chars (not_char sep) f = true -> split sep f = [f].
Proof.
  induction f as [|c f IH]; cbn [all_chars]; intros H.
  - reflexivity.
  - apply andb_true_iff in H. destruct H as [Hc Hf].
    cbn [split]. unfold not_char in Hc. apply negb_true_iff in Hc.
    rewrite Hc, (IH Hf). reflexivity.
Qed.

Lemma numeral_not_equals (c : ascii) : numeral c = true -> not_char "=" c = true.
Proof.
  destruct c as [[|] [|] [|] [|] [|] [|] [|] [|]]; cbn;
    intros H; try reflexivity; discriminate H.
Qed.

Lemma strip_str_line (z : Z) : strip (str z ++ nl) = str z.
Proof.
  pose proof (str_numeral z) as Hn. pose proof (str_nonempty z) as Hne.
  pose proof (ends_unspaced_numeral (str z) Hne Hn) as Hend.
  destruct (str z) as [|c0 r0]; [contradiction|].
  apply strip_line; [|exact Hend].
  cbn [all_chars] in Hn. apply andb_true_iff in Hn. destruct Hn as [Hc _].
  apply numeral_not_space, Hc.
Qed.

(** The line [soc=<c>] is read as the integer [c]. *)
Lemma value_after_equals_soc (c : Z) :
  value_after_equals ("soc=" ++ str c ++ nl) = Ok c.
Proof.
  unfold value_after_equals.
  assert (Hs : split "=" ("soc=" ++ str c ++ nl) = ["soc"; str c ++ nl]).
  { cbn [append split Ascii.eqb Bool.eqb].
    rewrite split_single; [reflexivity|].
    rewrite all_chars_app. apply andb_true_iff. split; [|reflexivity].
    apply (all_chars_impl numeral); [apply numeral_not_equals | apply str_numeral]. }
  rewrite Hs. cbn [getitem].
  change (getitem ["soc"; str c ++ nl] 1) with (Ok (str c ++ nl)).
  cbn [bind]. rewrite strip_str_line. apply int_str.
Qed.

Lemma scan_cost_first (pre : list string) (line : string) (post : list string) :
  Forall (fun l => startswith l "soc=" = false) pre ->
  startswith line "soc=" = true ->
  scan_cost (pre ++ line :: post) = value_after_equals line.
Proof.
  intros Hpre Hline. induction Hpre as [|l pre Hl _ IH].
  - cbn [Datatypes.app scan_cost]. now rewrite Hline.
  - change ((l :: pre) ++ line :: post)%list with (l :: (pre ++ line :: post))%list.
    cbn [scan_cost]. now rewrite Hl.
Qed.

(** X13.  The cost of a segment is read from the first line of the
    solver's output file that starts with [soc=], and from that line only:
    it is the integer after the sign when there is one, and 0 when what
    follows the sign is no integer, whatever the later lines hold.  A first
    such line of the form [soc=<c>] gives the cost [c]. *)
Theorem cost_is_read_from_first_soc_line (content : string)
    (pre post : list string) (line : string) :
  readlines content = (pre ++ line :: post)%list ->
  Forall (fun l => startswith l "soc=" = false) pre ->
  startswith line "soc=" = true ->
  read_cost (Some content)
  = match value_after_equals line with
    | Ok c => c
    | Raise _ => 0
    end /\
  forall c, line = "soc=" ++ str c ++ nl -> read_cost (Some content) = c.
Proof.
  intros Hlines Hpre Hline.
  assert (H : read_cost (Some content)
              = match value_after_equals line with
                | Ok c => c
                | Raise _ => 0
                end).
  { unfold read_cost. rewrite Hlines, (scan_cost_first pre line post Hpre Hline).
    reflexivity. }
  split; [exact H|].
  intros c ->. rewrite H, value_after_equals_soc. reflexivity.
Qed.

Lemma cost_is_read_from_first_soc_line_witness :
  read_cost (Some ("makespan=3" ++ nl ++ "soc=" ++ str 17 ++ nl ++ "soc=5" ++ nl))
  = 17.
Proof.
  refine (proj2 (cost_is_read_from_first_soc_line _
                   ["makespan=3" ++ nl] ["soc=5" ++ nl]
                   ("soc=" ++ str 17 ++ nl) _ _ _) 17 _).
  - reflexivity.
  - repeat constructor.
  - reflexivity.
  - reflexivity.
Defined.

(** *** The dimensions of the map *)

Lemma rstrip_app_spaces (u t : string) :
  all_chars is_space t = true -> rstrip (u ++ t) = rstrip u.
Proof.
  intros Ht. induction u as [|c u IH]; cbn [append rstrip].
  - apply rstrip_spaces, Ht.
  - now rewrite IH.
Qed.

(** The line break at the end of a line does not count for [strip]. *)
Lemma strip_app_nl (s : string) : strip (s ++ nl) = strip s.
Proof.
  unfold strip. induction s as [|c s IH]; cbn [append lstrip].
  - reflexivity.
  - destruct (is_space c); [exact IH|].
    change (String c (s ++ nl)) with (String c s ++ nl).
    apply rstrip_app_spaces. reflexivity.
Qed.

Lemma split_ws_word (w : string) :
  w <> EmptyString -> all_chars (fun c => negb (is_space c)) w = true ->
  split_ws w = [w].
Proof.
  induction w as [|c w IH]; intros Hne Hw; [contradiction|].
  cbn [all_chars] in Hw. apply andb_true_iff in Hw. destruct Hw as [Hc Hw].
  apply negb_true_iff in Hc. cbn [split_ws]. rewrite Hc.
  destruct w as [|c' w]; [reflexivity|].
  pose proof Hw as Hw'. cbn [all_chars] in Hw'.
  apply andb_true_iff in Hw'. destruct Hw' as [Hc' _].
  apply negb_true_iff in Hc'. rewrite Hc'.
  rewrite IH by (discriminate || exact Hw). reflexivity.
Qed.

Lemma split_ws_first_word (w rest : string) :
  w <> EmptyString -> all_chars (fun c => negb (is_space c)) w = true ->
  split_ws (w ++ String " " rest) = w :: split_ws rest.
Proof.
  induction w as [|c w IH]; intros Hne Hw; [contradiction|].
  cbn [all_chars] in Hw. apply andb_true_iff in Hw. destruct Hw as [Hc Hw].
  apply negb_true_iff in Hc.
  change (String c w ++ String " " rest) with (String c (w ++ String " " rest)).
  cbn [split_ws]. rewrite Hc.
  destruct w as [|c' w].
  - cbn [append]. change (is_space " ") with true. cbv iota.
    cbn [split_ws]. change (is_space " ") with true. reflexivity.
  - pose proof Hw as Hw'. cbn [all_chars] in Hw'.
    apply andb_true_iff in Hw'. destruct Hw' as [Hc' _].
    apply negb_true_iff in Hc'.
    cbn [append]. rewrite Hc'.
    change (String c' (w ++ String " " rest))
      with (String c' w ++ String " " rest).
    rewrite IH by (discriminate || exact Hw). reflexivity.
Qed.

Lemma str_unspaced (z : Z) :
  all_chars (fun c => negb (is_space c)) (str z) = true.
Proof.
  apply (all_chars_impl numeral); [|apply str_numeral].
  intros c Hc. apply negb_true_iff, numeral_not_space, Hc.
Qed.

(** The number of a line [<key> <z>] is read as [z]. *)
Lemma second_word_of_pair (key : string) (z : Z) :
  key <> EmptyString -> all_chars (fun c => negb (is_space c)) key = true ->
  second_word (key ++ " " ++ str z) = Ok z.
Proof.
  intros Hne Hkey. unfold second_word.
  change (key ++ " " ++ str z) with (key ++ String " " (str z)).
  rewrite split_ws_first_word by assumption.
  rewrite split_ws_word by (apply str_nonempty || apply str_unspaced).
  change (getitem [key; str z] 1) with (Ok (str z)).
  cbn [bind]. apply int_str.
Qed.

Lemma strip_pair (c0 : ascii) (key : string) (z : Z) :
  is_space c0 = false ->
  strip (String c0 key ++ " " ++ str z ++ nl) = String c0 key ++ " " ++ str z.
Proof.
  intros Hc0.
  replace (String c0 key ++ " " ++ str z ++ nl)
    with ((String c0 key ++ " " ++ str z) ++ nl)
    by (rewrite !append_assoc; reflexivity).
  change (String c0 key ++ " " ++ str z) with (String c0 (key ++ " " ++ str z)).
  apply strip_line; [exact Hc0|].
  change (String c0 (key ++ " " ++ str z)) with (String c0 key ++ " " ++ str z).
  apply ends_unspaced_app, ends_unspaced_app.
  apply ends_unspaced_numeral; [apply str_nonempty | apply str_numeral].
Qed.

Lemma scan_other_rows (rows : list string) (rest : list string)
    (height width : option Z) :
  Forall (fun r => other_row r = true) rows ->
  scan_dimensions (List.map (fun r => r ++ nl) rows ++ rest) height width
  = scan_dimensions rest height width.
Proof.
  intros Hrows. induction Hrows as [|r rows Hr _ IH]; [reflexivity|].
  cbn [List.map]. rewrite <- app_comm_cons.
  cbn [scan_dimensions]. rewrite strip_app_nl.
  unfold other_row in Hr.
  apply andb_true_iff in Hr. destruct Hr as [Hr Hw].
  apply andb_true_iff in Hr. destruct Hr as [_ Hh].
  apply negb_true_iff in Hh, Hw. rewrite Hh, Hw. exact IH.
Qed.

Lemma other_row_line (r : string) :
  other_row r = true ->
  all_chars (not_char LF) r = true /\ all_chars (not_char CR) r = true.
Proof.
  unfold other_row. intros H.
  apply andb_true_iff in H. destruct H as [H _].
  apply andb_true_iff in H. destruct H as [H _].
  apply andb_true_iff in H. exact H.
Qed.

Lemma pair_line (key : string) (z : Z) :
  all_chars plain key = true ->
  all_chars (not_char LF) (key ++ " " ++ str z) = true /\
  all_chars (not_char CR) (key ++ " " ++ str z) = true.
Proof.
  intros Hkey. split; rewrite !all_chars_app; cbn [all_chars];
    rewrite str_chars by (first [apply plain_not_lf | apply plain_not_cr]);
    rewrite (all_chars_impl plain _ key) by
      (first [exact Hkey | apply plain_not_lf | apply plain_not_cr]);
    reflexivity.
Qed.

(** X14.  A map file in the usual layout gives its dimensions: when the
    file has a line [height <h>], later a line [width <w>], and otherwise
    only lines that start with neither word, [get_map_dimensions] returns
    the pair [(w, h)], width first, and prints nothing. *)
Theorem map_dimensions_are_read (pre mid post : list string) (h w : Z) :
  Forall (fun r => other_row r = true) pre ->
  Forall (fun r => other_row r = true) mid ->
  Forall (fun r => other_row r = true) post ->
  get_map_dimensions
    (Some (text_of_rows (pre ++ ["height " ++ str h] ++ mid
                         ++ ["width " ++ str w] ++ post)))
  = ((w, h), []).
Proof.
  intros Hpre Hmid Hpost. unfold get_map_dimensions, text_of_rows.
  rewrite readlines_lines.
  - rewrite !List.map_app. cbn [List.map].
    rewrite (scan_other_rows pre _ None None Hpre).
    cbn [Datatypes.app scan_dimensions].
    replace (("height " ++ str h) ++ nl) with ("height" ++ " " ++ str h ++ nl)
      by (cbn [append]; reflexivity).
    rewrite (strip_pair "h" "eight" h eq_refl).
    change (startswith ("height" ++ " " ++ str h) "height") with true.
    cbv iota. rewrite second_word_of_pair by (discriminate || reflexivity).
    cbn [bind].
    rewrite (scan_other_rows mid _ (Some h) None Hmid).
    cbn [Datatypes.app scan_dimensions].
    replace (("width " ++ str w) ++ nl) with ("width" ++ " " ++ str w ++ nl)
      by (cbn [append]; reflexivity).
    rewrite (strip_pair "w" "idth" w eq_refl).
    change (startswith ("width" ++ " " ++ str w) "height") with false.
    change (startswith ("width" ++ " " ++ str w) "width") with true.
    cbv iota. rewrite second_word_of_pair by (discriminate || reflexivity).
    cbn [bind].
    pose proof (scan_other_rows post [] (Some h) (Some w) Hpost) as Hlast.
    rewrite app_nil_r in Hlast. rewrite Hlast. reflexivity.
  - repeat (apply Forall_app; split).
    + eapply Forall_impl; [|exact Hpre]. intros r. apply other_row_line.
    + constructor; [|constructor].
      apply (pair_line "height" h). reflexivity.
    + eapply Forall_impl; [|exact Hmid]. intros r. apply other_row_line.
    + constructor; [|constructor].
      apply (pair_line "width" w). reflexivity.
    + eapply Forall_impl; [|exact Hpost]. intros r. apply other_row_line.
Qed.

Lemma map_dimensions_are_read_witness :
  get_map_dimensions (Some small_map) = ((3, 2), []).
Proof.
  apply (map_dimensions_are_read ["type octile"] [] ["map"; "..@"; "@.."] 2 3).
  - repeat constructor.
  - constructor.
  - repeat constructor.
Defined.

Lemma scan_dimensions_raises (lines : list string) (raw : string) (e : exn) :
  In raw lines -> dimension_line raw = true ->
  second_word (strip raw) = Raise e ->
  forall height width, exists e', scan_dimensions lines height width = Raise e'.
Proof.
  intros Hin Hdim Hraise.
  induction lines as [|l lines IH]; [contradiction|].
  intros height width. cbn [scan_dimensions].
  destruct Hin as [-> | Hin].
  - unfold dimension_line in Hdim.
    destruct (startswith (strip raw) "height").
    + rewrite Hraise. exists e. reflexivity.
    + cbn [orb] in Hdim. rewrite Hdim, Hraise. exists e. reflexivity.
  - destruct (startswith (strip l) "height").
    + destruct (second_word (strip l)) as [v|e1]; cbn [bind];
        [apply (IH Hin) | exists e1; reflexivity].
    + destruct (startswith (strip l) "width").
      * destruct (second_word (strip l)) as [v|e1]; cbn [bind];
          [apply (IH Hin) | exists e1; reflexivity].
      * apply (IH Hin).
Qed.

Lemma scan_dimensions_no_height (lines : list string) :
  Forall (fun raw => startswith (strip raw) "height" = false) lines ->
  forall width r, scan_dimensions lines None width = Ok r -> fst r = None.
Proof.
  intros Hall. induction Hall as [|l lines Hl _ IH]; intros width r Hr.
  - injection Hr as <-. reflexivity.
  - cbn [scan_dimensions] in Hr. rewrite Hl in Hr.
    destruct (startswith (strip l) "width").
    + destruct (second_word (strip l)) as [v|e1]; [|discriminate].
      cbn [bind] in Hr. apply (IH _ _ Hr).
    + apply (IH _ _ Hr).
Qed.

Lemma scan_dimensions_no_width (lines : list string) :
  Forall (fun raw => startswith (strip raw) "height" = true
                     \/ startswith (strip raw) "width" = false) lines ->
  forall height r, scan_dimensions lines height None = Ok r -> snd r = None.
Proof.
  intros Hall. induction Hall as [|l lines Hl _ IH]; intros height r Hr.
  - injection Hr as <-. reflexivity.
  - cbn [scan_dimensions] in Hr.
    destruct (startswith (strip l) "height").
    + destruct (second_word (strip l)) as [v|e1]; [|discriminate].
      cbn [bind] in Hr. apply (IH _ _ Hr).
    + destruct Hl as [Hl | Hl]; [discriminate|]. rewrite Hl in Hr.
      apply (IH _ _ Hr).
Qed.

(** X15.  When [get_map_dimensions] falls back to 128 by 128: always
    with one printed line, never with an exception.  It does so when the
    file cannot be opened; when any line that starts with [height] or
    [width] has no second word or one that is no integer, whatever the
    other lines hold; and when no line starts with [height], or none is
    taken for a width. *)
Theorem map_dimensions_fall_back (content : string) :
  get_map_dimensions None = ((128, 128), [ErrorReading CannotOpen]) /\
  (forall raw e,
      In raw (readlines content) -> dimension_line raw = true ->
      second_word (strip raw) = Raise e ->
      exists e', get_map_dimensions (Some content)
                 = ((128, 128), [ErrorReading (Raised e')])) /\
  (Forall (fun raw => startswith (strip raw) "height" = false)
     (readlines content) ->
   exists m, get_map_dimensions (Some content) = ((128, 128), [m])) /\
  (Forall (fun raw => startswith (strip raw) "height" = true
                      \/ startswith (strip raw) "width" = false)
     (readlines content) ->
   exists m, get_map_dimensions (Some content) = ((128, 128), [m])).
Proof.
  split; [reflexivity|]. split; [|split].
  - intros raw e Hin Hdim Hraise.
    destruct (scan_dimensions_raises _ raw e Hin Hdim Hraise None None)
      as [e' He'].
    exists e'. unfold get_map_dimensions. rewrite He'. reflexivity.
  - intros Hall. unfold get_map_dimensions.
    destruct (scan_dimensions (readlines content) None None)
      as [[height width]|e'] eqn:Hscan; [|eexists; reflexivity].
    pose proof (scan_dimensions_no_height _ Hall _ _ Hscan) as Hh.
    cbn [fst] in Hh. subst height. eexists. reflexivity.
  - intros Hall. unfold get_map_dimensions.
    destruct (scan_dimensions (readlines content) None None)
      as [[height width]|e'] eqn:Hscan; [|eexists; reflexivity].
    pose proof (scan_dimensions_no_width _ Hall _ _ Hscan) as Hw.
    cbn [snd] in Hw. subst width. destruct height; eexists; reflexivity.
Qed.

Lemma map_dimensions_fall_back_witness :
  exists e', get_map_dimensions (Some headless_map)
             = ((128, 128), [ErrorReading (Raised e')]).
Proof.
  apply (proj1 (proj2 (map_dimensions_fall_back headless_map))
           ("height" ++ nl) IndexError).
  - right. left. reflexivity.
  - reflexivity.
  - reflexivity.
Defined.

(** *** The temporary files *)

Lemma cleanup_temp_files_closed_form (temp_files : list string)
    (protected : string -> bool) :
  forall present p,
    cleanup_temp_files temp_files present protected p
    = present p
      && negb (existsb (String.eqb p) temp_files && negb (protected p)).
Proof.
  induction temp_files as [|f rest IH]; intros present p.
  - cbn [cleanup_temp_files existsb andb negb]. now rewrite andb_true_r.
  - cbn [cleanup_temp_files existsb]. rewrite IH.
    destruct (String.eqb p f) eqn:E.
    + apply String.eqb_eq in E. subst p.
      destruct (present f && negb (protected f)) eqn:C; cbv beta;
        rewrite ?String.eqb_refl;
        destruct (present f), (protected f), (existsb (String.eqb f) rest);
        cbn in *; try discriminate C; reflexivity.
    + destruct (present f && negb (protected f)); cbv beta; rewrite ?E;
        reflexivity.
Qed.

Lemma existsb_eqb_In (p : string) (l : list string) :
  existsb (String.eqb p) l = true <-> In p l.
Proof.
  rewrite existsb_exists. split.
  - intros [x [Hin Hx]]. apply String.eqb_eq in Hx. now subst.
  - intros Hin. exists p. split; [exact Hin | apply String.eqb_refl].
Qed.

(** X16.  [cleanup_temp_files] removes registered files and nothing else:
    it creates no file; a file that is not in [temp_files] is left as it
    was; a registered file is gone afterwards unless [os.unlink] fails on
    it, in which case it stays and no exception gets out; and a second
    clean-up changes nothing. *)
Theorem cleanup_removes_only_registered_files (temp_files : list string)
    (present protected : string -> bool) (p : string) :
  let after := cleanup_temp_files temp_files present protected in
  (after p = true -> present p = true) /\
  (~ In p temp_files -> after p = present p) /\
  (In p temp_files -> protected p = false -> after p = false) /\
  (In p temp_files -> protected p = true -> after p = present p) /\
  cleanup_temp_files temp_files after protected p = after p.
Proof.
  cbv zeta. rewrite !cleanup_temp_files_closed_form.
  repeat split.
  - intros H. apply andb_true_iff in H. apply H.
  - intros Hnot.
    assert (E : existsb (String.eqb p) temp_files = false).
    { apply not_true_is_false. intros H. apply Hnot, existsb_eqb_In, H. }
    rewrite E. cbn. apply andb_true_r.
  - intros Hin Hp. apply existsb_eqb_In in Hin. rewrite Hin, Hp. cbn.
    apply andb_false_r.
  - intros Hin Hp. rewrite Hp. cbn. rewrite andb_false_r. cbn.
    apply andb_true_r.
  - destruct (present p), (existsb (String.eqb p) temp_files), (protected p);
      reflexivity.
Qed.

Lemma cleanup_removes_only_registered_files_witness :
  cleanup_temp_files sample_temp_files sample_present sample_protected "c.yaml"
  = false /\
  cleanup_temp_files sample_temp_files sample_present sample_protected "b.yaml"
  = true /\
  cleanup_temp_files sample_temp_files sample_present sample_protected "keep.txt"
  = true.
Proof.
  pose proof (cleanup_removes_only_registered_files sample_temp_files
                sample_present sample_protected "c.yaml") as Hc.
  pose proof (cleanup_removes_only_registered_files sample_temp_files
                sample_present sample_protected "b.yaml") as Hb.
  pose proof (cleanup_removes_only_registered_files sample_temp_files
                sample_present sample_protected "keep.txt") as Hk.
  cbv zeta in Hc, Hb, Hk.
  destruct Hc as [_ [_ [Hc _]]]. destruct Hb as [_ [_ [_ [Hb _]]]].
  destruct Hk as [_ [Hk _]].
  split; [|split].
  - apply Hc; [right; right; left; reflexivity | reflexivity].
  - rewrite Hb; [reflexivity | right; left; reflexivity | reflexivity].
  - rewrite Hk; [reflexivity|].
    intros [H | [H | [H | []]]]; discriminate H.
Defined.

(** *** The run of the matrix as a whole *)

Lemma unless_exists_nil (exists_ : path -> bool) (p : path) :
  unless_exists exists_ p = [] <-> exists_ p = true.
Proof.
  unfold unless_exists. destruct (exists_ p); split; intros H;
    try reflexivity; discriminate H.
Qed.

Lemma missing_paths_nil {A} (exists_ : path -> bool) (f : A -> path)
    (xs : list A) :
  flat_map (fun x => unless_exists exists_ (f x)) xs = []
  <-> Forall (fun p => exists_ p = true) (List.map f xs).
Proof.
  induction xs as [|x xs IH]; cbn [flat_map List.map].
  - split; [constructor | reflexivity].
  - split.
    + intros H. apply app_eq_nil in H. destruct H as [Hx Hxs].
      constructor; [apply unless_exists_nil, Hx | apply IH, Hxs].
    + intros H. inversion H as [|? ? Hx Hxs]; subst.
      apply unless_exists_nil in Hx. rewrite Hx. apply IH, Hxs.
Qed.

Lemma missing_scenarios_nil (exists_ : path -> bool) (ws : list wp_config)
    (ms : list map_config) :
  flat_map (fun m =>
     if negb (exists_ (scenario_dir_path m)) then [scenario_dir_path m]
     else flat_map (fun w => unless_exists exists_ (scenario_path m w)) ws) ms
  = []
  <-> Forall (fun p => exists_ p = true) (List.map scenario_dir_path ms) /\
      Forall (fun p => exists_ p = true)
        (flat_map (fun m => List.map (scenario_path m) ws) ms).
Proof.
  induction ms as [|m ms IH]; cbn [flat_map List.map].
  - split; [split; constructor | reflexivity].
  - split.
    + intros H. apply app_eq_nil in H. destruct H as [Hm Hms].
      apply IH in Hms. destruct Hms as [Hd Hs].
      destruct (exists_ (scenario_dir_path m)) eqn:E; [|discriminate Hm].
      cbn [negb] in Hm. split.
      * constructor; assumption.
      * apply Forall_app. split; [|exact Hs].
        apply (missing_paths_nil exists_ (scenario_path m) ws), Hm.
    + intros [Hd Hs]. inversion Hd as [|? ? Hm Hd']; subst.
      apply Forall_app in Hs. destruct Hs as [Hw Hs].
      rewrite Hm. cbn [negb].
      rewrite (proj2 (missing_paths_nil exists_ (scenario_path m) ws) Hw).
      apply IH. split; assumption.
Qed.

(** Nothing is missing exactly when every required path exists. *)
Lemma missing_files_nil (exists_ : path -> bool) :
  missing_files exists_ = []
  <-> Forall (fun p => exists_ p = true) required_paths.
Proof.
  unfold missing_files, required_paths. split.
  - intros H.
    apply app_eq_nil in H. destruct H as [H1 H].
    apply app_eq_nil in H. destruct H as [H2 H].
    apply app_eq_nil in H. destruct H as [H3 H4].
    apply unless_exists_nil in H1, H2.
    apply (missing_paths_nil exists_ map_path maps) in H3.
    apply missing_scenarios_nil in H4. destruct H4 as [H4 H5].
    apply Forall_app. split; [repeat constructor; assumption|].
    apply Forall_app. split; [exact H3|].
    apply Forall_app. split; assumption.
  - intros H. apply Forall_app in H. destruct H as [H12 H''].
    inversion H12 as [|? ? H1 H']; subst. inversion H' as [|? ? H2 _]; subst.
    apply Forall_app in H''. destruct H'' as [H3 H''].
    apply Forall_app in H''. destruct H'' as [H4 H5].
    rewrite (proj2 (unless_exists_nil exists_ lacam_script) H1).
    rewrite (proj2 (unless_exists_nil exists_ exe_path) H2).
    rewrite (proj2 (missing_paths_nil exists_ map_path maps) H3).
    rewrite (proj2 (missing_scenarios_nil exists_ waypoint_configs maps)
               (conj H4 H5)).
    reflexivity.
Qed.

(** X17.  The exit status of the matrix runner tells whether the
    prerequisites were there and every summary could be read, not how the
    experiments went.  When every required path exists and every summary
    left by a child that exited with 0 is readable, all 45 experiments are
    run, the report is written and the status is 0, whatever else the
    experiments ended with (failure, timeout, exception, no summary).
    When a required path does not exist, the missing paths are listed, no
    experiment is run, no report is written and the status is 1.  When the
    paths exist and a child that exited with 0 left a summary that is not
    readable, an exception gets out of [run] and the status is 1: either
    the matrix stopped before its end and no report was begun, or all 45
    experiments ran, the raw results were dumped and the table is short of
    rows. *)
Theorem matrix_run_exit_status (fmt_f0 fmt_f1 : Q -> string)
    (fmt_thousands : Z -> string) (fmt_thousands_float : Q -> string)
    (exists_ : path -> bool) (world : nat -> attempt) :
  let outcome := run fmt_f0 fmt_f1 fmt_thousands fmt_thousands_float
                   exists_ world in
  let status := ComprehensiveRun.main fmt_f0 fmt_f1 fmt_thousands
                  fmt_thousands_float exists_ world in
  (Forall (fun p => exists_ p = true) required_paths ->
   (forall k, (k < 45)%nat -> readable (world k) = true) ->
   status = 0 /\
   exists results console rep,
     outcome = Finished results console rep /\
     List.length results = 45%nat /\ report_json rep = results /\
     List.length (summary_rows rep) = 45%nat) /\
  (forall p,
     In p required_paths -> exists_ p = false ->
     status = 1 /\ outcome = Refused (missing_files exists_) /\
     missing_files exists_ <> []) /\
  (Forall (fun p => exists_ p = true) required_paths ->
   forall k, (k < 45)%nat -> readable (world k) = false ->
   status = 1 /\
   exists e results console rep,
     outcome = Aborted e results console rep /\
     match rep with
     | None => (List.length results <= 45)%nat
     | Some written =>
         List.length results = 45%nat /\ report_json written = results /\
         (List.length (summary_rows written) < 45)%nat
     end).
Proof.
  cbv zeta. split; [|split].
  - intros Hall Hread. apply missing_files_nil in Hall.
    destruct (readable_matrix fmt_f0 fmt_f1 fmt_thousands fmt_thousands_float
                world Hread) as [results [console [rows [Hrun [Hrep [Hlen Hrows]]]]]].
    assert (Hr : run fmt_f0 fmt_f1 fmt_thousands fmt_thousands_float exists_ world
                 = Finished results console
                     {| report_json := results; summary_rows := rows |}).
    { unfold run, check_prerequisites. rewrite Hall, Hrun, Hrep. reflexivity. }
    split.
    + unfold ComprehensiveRun.main. rewrite Hr. reflexivity.
    + eexists. eexists. eexists. split; [exact Hr|].
      split; [exact Hlen|]. split; [reflexivity|].
      cbn [summary_rows]. rewrite <- (Forall2_length Hrows). exact Hlen.
  - intros p Hin Hp.
    assert (Hmiss : missing_files exists_ <> []).
    { intros H. apply missing_files_nil in H. rewrite Forall_forall in H.
      rewrite (H p Hin) in Hp. discriminate. }
    assert (Hr : run fmt_f0 fmt_f1 fmt_thousands fmt_thousands_float exists_ world
                 = Refused (missing_files exists_)).
    { unfold run, check_prerequisites.
      destruct (missing_files exists_); [contradiction | reflexivity]. }
    split; [|split; [exact Hr | exact Hmiss]].
    unfold ComprehensiveRun.main. rewrite Hr. reflexivity.
  - intros Hall k Hk Hbad. apply missing_files_nil in Hall.
    assert (Hab : exists e results console rep,
               run fmt_f0 fmt_f1 fmt_thousands fmt_thousands_float exists_ world
               = Aborted e results console rep /\
               match rep with
               | None => (List.length results <= 45)%nat
               | Some written =>
                   List.length results = 45%nat /\
                   report_json written = results /\
                   (List.length (summary_rows written) < 45)%nat
               end).
    { unfold run, check_prerequisites. rewrite Hall.
      destruct (unreadable_matrix fmt_f0 fmt_f1 fmt_thousands
                  fmt_thousands_float world k Hk Hbad)
        as [Hle [[e He] | [Hnone [Hlen [e [Hrep Hshort]]]]]].
      - destruct (run_all_experiments world) as [[results console] oe].
        cbn [fst snd] in *. subst oe.
        exists e, results, console, None. split; [reflexivity | exact Hle].
      - destruct (run_all_experiments world) as [[results console] oe].
        cbn [fst snd] in *. subst oe. rewrite Hrep.
        eexists. eexists. eexists. eexists. split; [reflexivity|].
        cbn [report_json summary_rows]. split; [exact Hlen|].
        split; [reflexivity | exact Hshort]. }
    destruct Hab as [e [results [console [rep [Hr Hrep]]]]].
    split.
    + unfold ComprehensiveRun.main. rewrite Hr. reflexivity.
    + exists e, results, console, rep. split; [exact Hr | exact Hrep].
Qed.

Lemma matrix_run_exit_status_witness :
  ComprehensiveRun.main no_format_q no_format_q no_format_z no_format_q
    full_disk mixed_world = 0 /\
  ComprehensiveRun.main no_format_q no_format_q no_format_z no_format_q
    disk_without_solver mixed_world = 1 /\
  ComprehensiveRun.main no_format_q no_format_q no_format_z no_format_q
    full_disk keyless_world = 1.
Proof.
  pose proof (matrix_run_exit_status no_format_q no_format_q no_format_z
                no_format_q full_disk mixed_world) as Hfull.
  pose proof (matrix_run_exit_status no_format_q no_format_q no_format_z
                no_format_q disk_without_solver mixed_world) as Hmissing.
  pose proof (matrix_run_exit_status no_format_q no_format_q no_format_z
                no_format_q full_disk keyless_world) as Hkeyless.
  cbv zeta in Hfull, Hmissing, Hkeyless.
  destruct Hfull as [Hfull _]. destruct Hmissing as [_ [Hmissing _]].
  destruct Hkeyless as [_ [_ Hkeyless]].
  split; [|split].
  - apply Hfull.
    + apply Forall_forall. intros p _. reflexivity.
    + intros k _. do 5 (destruct k as [|k]; [reflexivity|]). reflexivity.
  - apply (Hmissing exe_path); [right; left; reflexivity | reflexivity].
  - assert (Hdisk : Forall (fun p => full_disk p = true) required_paths)
      by (apply Forall_forall; intros p _; reflexivity).
    apply (Hkeyless Hdisk 1%nat); [lia | reflexivity].
Defined.

(** *** Temporary files of an experiment *)

(** X18.  No temporary file outlives an experiment unnoticed: whatever
    way [run_experiment] ends, either it has done nothing at all (the
    agent list was empty), or [cleanup_temp_files] is called at a point
    after which no temporary file is created and no solver is run. *)
Theorem temp_files_are_cleaned_up (env : environment) (agents : list agent)
    (args : arguments) (out_dir : string) (n0 : nat) :
  let ev := snd (fst (run_experiment env agents args out_dir n0)) in
  ev = [] \/
  exists before after,
    ev = (before ++ Cleanup :: after)%list /\
    ~ In TempFile after /\ solver_cmds after = [].
Proof.
  cbv zeta. unfold run_experiment.
  destruct (count_segments agents) as [n|e].
  2:{ left. reflexivity. }
  rewrite bindM_lift_ok.
  destruct (segment_timeout (a_timeout args) n) as [t|e].
  2:{ left. reflexivity. }
  rewrite bindM_lift_ok, bindM_emit. cbn [fst snd]. right.
  unfold bindM at 1. unfold guarded.
  generalize (for_each (range n) (run_segment env agents args out_dir t)
                {| t_runtime := 0%Q; t_cost := 0; t_results := [] |} n0).
  intros [[[acc|code|x] evl] n1].
  - rewrite !bindM_emit. unfold ret. cbn [fst snd].
    eexists (_ :: evl), _. split.
    + rewrite <- app_assoc. reflexivity.
    + split; [|reflexivity].
      cbn [In]. intros H. repeat destruct H as [H | H]; try discriminate H.
      exact H.
  - cbn [fst snd]. eexists (_ :: evl), []. split; [reflexivity|].
    split; [intros [] | reflexivity].
  - cbn [fst snd].
    eexists (_ :: evl ++ [Console (ExecutionError x); Cleanup])%list, [].
    split.
    + cbn [Datatypes.app]. rewrite <- app_assoc. reflexivity.
    + split; [intros [] | reflexivity].
Qed.

Lemma temp_files_are_cleaned_up_witness :
  exists before after,
    snd (fst (run_experiment moody_env [agent_A; agent_B] single_args "out" 0%nat))
    = (before ++ Cleanup :: after)%list /\
    ~ In TempFile after /\ solver_cmds after = [].
Proof.
  destruct (temp_files_are_cleaned_up moody_env [agent_A; agent_B] single_args
              "out" 0%nat) as [H | H].
  - discriminate H.
  - exact H.
Defined.

(** *** What the solver is given, and what counts as solved *)

(** X19.  A line written by [create_segment_scenario] reads back as what
    was written: for a map file name without tab or line break, the line
    without its line break splits at the tabs into nine fields, which are
    the bucket id, the map name, the width and height, the start row and
    column, the goal row and column, and the Manhattan distance between
    start and goal, each number read back by [int] as the number
    written. *)
Theorem scenario_line_reads_back (b : Z) (m : string) (w h : Z) (s g : pos) :
  single_field m ->
  let parts := split TAB (strip (scenario_line b m w h s g)) in
  List.length parts = 9%nat /\
  int_field parts 0 = Ok b /\ getitem parts 1 = Ok m /\
  int_field parts 2 = Ok w /\ int_field parts 3 = Ok h /\
  int_field parts 4 = Ok (fst s) /\ int_field parts 5 = Ok (snd s) /\
  int_field parts 6 = Ok (fst g) /\ int_field parts 7 = Ok (snd g) /\
  int_field parts 8 = Ok (Z.abs (fst s - fst g) + Z.abs (snd s - snd g)).
Proof.
  intros Hm. cbv zeta.
  rewrite strip_scenario_line, (line_body_fields b m w h s g Hm).
  unfold line_fields.
  split; [reflexivity|].
  repeat split;
    first [ apply int_field_at; [lia | reflexivity]
          | apply getitem_at; [lia | reflexivity] ].
Qed.

Lemma scenario_line_reads_back_witness :
  let parts := split TAB (strip (scenario_line 7 "m.map" 8 8 (1, 2) (3, 5))) in
  int_field parts 4 = Ok 1 /\ int_field parts 7 = Ok 5 /\ int_field parts 8 = Ok 5.
Proof.
  destruct (scenario_line_reads_back 7 "m.map" 8 8 (1, 2) (3, 5))
    as [_ [_ [_ [_ [_ [H4 [_ [_ [H7 H8]]]]]]]]]; [reflexivity|].
  cbv zeta. split; [exact H4|]. split; [exact H7 | exact H8].
Defined.

(** The scan for metrics reports [solved] only on the word of a line
    [solved=1]. *)
Lemma scan_metrics_solved (lines : list string) :
  forall mk sv,
    snd (scan_metrics lines mk sv) = true ->
    sv = true \/
    exists line, In line lines /\ startswith line "solved=" = true /\
                 value_after_equals line = Ok 1.
Proof.
  induction lines as [|l lines IH]; intros mk sv H; cbn [scan_metrics] in H.
  - left. exact H.
  - destruct (startswith l "makespan=").
    + destruct (value_after_equals l) as [v|e].
      * destruct (IH _ _ H) as [Hsv | [line [Hin Hline]]]; [left; exact Hsv|].
        right. exists line. split; [right; exact Hin | exact Hline].
      * left. exact H.
    + destruct (startswith l "solved=") eqn:Hs.
      * destruct (value_after_equals l) as [v|e] eqn:Hv.
        -- destruct (IH _ _ H) as [Hsv | [line [Hin Hline]]].
           ++ right. exists l. split; [left; reflexivity|].
              split; [exact Hs|]. apply Z.eqb_eq in Hsv. now subst v.
           ++ right. exists line. split; [right; exact Hin | exact Hline].
        -- left. exact H.
      * destruct (IH _ _ H) as [Hsv | [line [Hin Hline]]]; [left; exact Hsv|].
        right. exists line. split; [right; exact Hin | exact Hline].
Qed.

(** The records of an experiment that returns its summary. *)
Lemma run_experiment_records (env : environment) (agents : list agent)
    (args : arguments) (out_dir : string) (n0 n' : nat) (s : summary)
    (ev : list event) :
  run_experiment env agents args out_dir n0 = (Return s, ev, n') ->
  exists n,
    segment_results s
    = List.map (fun j => segment_record j
                           (solver env (n0 + j)
                              (segment_cmd env agents args
                                 (per_segment_timeout s) j)))
        (seq 0 n) /\
    all_segments_solved s = forallb solved (segment_results s).
Proof.
  intros Hrun.
  destruct (count_segments agents) as [n|e] eqn:Hcount.
  2:{ unfold run_experiment, bindM, lift in Hrun. rewrite Hcount in Hrun.
      discriminate. }
  exists (Z.to_nat n).
  pose proof (count_segments_positive agents n Hcount) as Hpos.
  set (seg_timeout := Z.max 1 (a_timeout args / n)).
  destruct (all_or_first_failure
              (fun j => returns_cost
                 (solver env (n0 + j)
                    (segment_cmd env agents args seg_timeout j)))
              (Z.to_nat n)) as [Hall | [k [Hk [Hfail Hbefore]]]].
  2:{ destruct (run_experiment_stops env agents args out_dir n0 n Hcount k
                  Hk Hbefore Hfail) as [ev' [Hrun' _]].
      rewrite Hrun in Hrun'. discriminate. }
  destruct (segment_loop_records env agents args out_dir seg_timeout n0
              (Z.to_nat n) 0
              {| t_runtime := 0%Q; t_cost := 0; t_results := [] |})
    as [acc [evl [Hloop [Hres _]]]].
  { intros j Hj. apply Hall. lia. }
  replace (n0 + 0)%nat with n0 in Hloop by lia.
  cbn [t_results Datatypes.app] in Hres.
  unfold run_experiment in Hrun. rewrite Hcount, bindM_lift_ok in Hrun.
  rewrite segment_timeout_value in Hrun by lia.
  rewrite bindM_lift_ok, bindM_emit in Hrun. fold seg_timeout in Hrun.
  erewrite bindM_return in Hrun.
  2:{ unfold guarded, range. rewrite Hloop. reflexivity. }
  rewrite !bindM_emit in Hrun. unfold ret in Hrun. cbn [fst snd] in Hrun.
  injection Hrun as <- _ _.
  cbn [summarize per_segment_timeout segment_results all_segments_solved].
  split; [exact Hres | reflexivity].
Qed.

(** X20.  An experiment is reported as solved only on the word of the
    solver: when the summary returned by [run_experiment] says that all
    segments were solved, the output file of every segment's solver run
    could be read and holds a line that starts with [solved=] and gives the
    value 1. *)
Theorem solved_summary_has_solved_lines (env : environment)
    (agents : list agent) (args : arguments) (out_dir : string)
    (n0 n' : nat) (s : summary) (ev : list event) :
  run_experiment env agents args out_dir n0 = (Return s, ev, n') ->
  all_segments_solved s = true ->
  forall j, (j < List.length (segment_results s))%nat ->
    exists content line,
      artifact (solver env (n0 + j)
                  (segment_cmd env agents args (per_segment_timeout s) j))
      = Some content /\
      In line (readlines content) /\
      startswith line "solved=" = true /\ value_after_equals line = Ok 1.
Proof.
  intros Hrun Hsolved j Hj.
  destruct (run_experiment_records _ _ _ _ _ _ _ _ Hrun) as [n [Hres Hall]].
  rewrite Hall in Hsolved. rewrite forallb_forall in Hsolved.
  set (r := solver env (n0 + j)
              (segment_cmd env agents args (per_segment_timeout s) j)).
  assert (Hin : In (segment_record j r) (segment_results s)).
  { rewrite Hres. apply in_map_iff. exists j. split; [reflexivity|].
    apply in_seq. rewrite Hres, length_map, length_seq in Hj. lia. }
  apply Hsolved in Hin. unfold segment_record in Hin. cbn [solved] in Hin.
  destruct (artifact r) as [content|]; [|discriminate Hin].
  destruct (scan_metrics_solved _ _ _ Hin) as [Hf | [line Hline]];
    [discriminate Hf|].
  exists content, line. split; [reflexivity | exact Hline].
Qed.

Lemma solved_summary_has_solved_lines_witness :
  exists content line,
    artifact (steady_solver 0%nat
                (segment_cmd steady_env [agent_B] single_args 100 0))
    = Some content /\
    In line (readlines content) /\
    startswith line "solved=" = true /\ value_after_equals line = Ok 1.
Proof.
  pose proof (solved_summary_has_solved_lines steady_env [agent_B] single_args
                "out" 0%nat _ _ _ eq_refl eq_refl 0%nat) as H.
  apply H. cbn. lia.
Defined.

(** *** What a summary is made for, and where it goes *)

(** X21.  A summary is made only for at least one agent and at least one
    segment: when [run_experiment] returns its summary, the number of
    agents and the number of segment records in it are both at least 1, so
    the averages per segment and per agent that the summary files print
    never divide by zero. *)
Theorem summary_counts_are_positive (env : environment) (agents : list agent)
    (args : arguments) (out_dir : string) (n0 n' : nat) (s : summary)
    (ev : list event) :
  run_experiment env agents args out_dir n0 = (Return s, ev, n') ->
  1 <= num_agents s /\ 1 <= num_segments s /\
  num_segments s = Z.of_nat (List.length (segment_results s)) /\
  num_agents s = Z.of_nat (List.length agents).
Proof.
  intros Hrun.
  destruct (count_segments agents) as [n|e] eqn:Hcount.
  2:{ unfold run_experiment, bindM, lift in Hrun. rewrite Hcount in Hrun.
      discriminate. }
  pose proof (count_segments_positive agents n Hcount) as Hpos.
  assert (Hne : agents <> []).
  { intros ->. discriminate Hcount. }
  set (seg_timeout := Z.max 1 (a_timeout args / n)).
  destruct (all_or_first_failure
              (fun j => returns_cost
                 (solver env (n0 + j)
                    (segment_cmd env agents args seg_timeout j)))
              (Z.to_nat n)) as [Hall | [k [Hk [Hfail Hbefore]]]].
  2:{ destruct (run_experiment_stops env agents args out_dir n0 n Hcount k
                  Hk Hbefore Hfail) as [ev' [Hrun' _]].
      rewrite Hrun in Hrun'. discriminate. }
  destruct (segment_loop_completes env agents args out_dir seg_timeout n0
              (Z.to_nat n) 0
              {| t_runtime := 0%Q; t_cost := 0; t_results := [] |})
    as [acc [evl [Hloop [_ [_ [_ Hlen]]]]]].
  { intros j Hj. apply Hall. lia. }
  replace (n0 + 0)%nat with n0 in Hloop by lia.
  cbn [t_results List.length] in Hlen.
  unfold run_experiment in Hrun. rewrite Hcount, bindM_lift_ok in Hrun.
  rewrite segment_timeout_value in Hrun by lia.
  rewrite bindM_lift_ok, bindM_emit in Hrun. fold seg_timeout in Hrun.
  erewrite bindM_return in Hrun.
  2:{ unfold guarded, range. rewrite Hloop. reflexivity. }
  rewrite !bindM_emit in Hrun. unfold ret in Hrun. cbn [fst snd] in Hrun.
  injection Hrun as <- _ _.
  cbn [summarize num_agents num_segments segment_results].
  destruct agents as [|a rest]; [contradiction|].
  cbn [List.length]. repeat split; lia.
Qed.

Lemma summary_counts_are_positive_witness :
  exists s ev n',
    run_experiment steady_env [agent_A; agent_B] single_args "out" 0%nat
    = (Return s, ev, n') /\
    1 <= num_agents s /\ 1 <= num_segments s.
Proof.
  eexists. eexists. eexists. split; [reflexivity|].
  destruct (summary_counts_are_positive steady_env [agent_A; agent_B]
              single_args "out" 0%nat _ _ _ eq_refl) as [Ha [Hs _]].
  split; [exact Ha | exact Hs].
Defined.

Lemma append_cancel_l (a s t : string) : a ++ s = a ++ t -> s = t.
Proof.
  induction a as [|c a IH]; cbn [append]; intros H; [exact H|].
  injection H as H. exact (IH H).
Qed.

Lemma length_append (s t : string) :
  String.length (s ++ t) = (String.length s + String.length t)%nat.
Proof. induction s as [|c s IH]; cbn [append String.length]; [reflexivity | now rewrite IH]. Qed.

Lemma append_cancel_r (s t u : string) : s ++ u = t ++ u -> s = t.
Proof.
  revert t. induction s as [|c s IH]; intros [|d t] H.
  - reflexivity.
  - exfalso. apply (f_equal String.length) in H.
    cbn [append String.length] in H. rewrite length_append in H. lia.
  - exfalso. apply (f_equal String.length) in H.
    cbn [append String.length] in H. rewrite length_append in H. lia.
  - cbn [append] in H. injection H as -> H. f_equal. exact (IH t H).
Qed.

Lemma str_injective (x y : Z) : str x = str y -> x = y.
Proof.
  intros H. pose proof (int_str x) as Hx. rewrite H, int_str in Hx.
  now injection Hx.
Qed.

(** The summary files of an experiment go to its output directory. *)
Lemma run_experiment_written (env : environment) (agents : list agent)
    (args : arguments) (out_dir : string) (n0 : nat) :
  Forall (fun f => fst f = out_dir)
    (written (snd (fst (run_experiment env agents args out_dir n0)))).
Proof.
  destruct (count_segments agents) as [n|e] eqn:Hcount.
  - destruct (all_or_first_failure
                (fun j => returns_cost
                   (solver env (n0 + j)
                      (segment_cmd env agents args
                         (Z.max 1 (a_timeout args / n)) j)))
                (Z.to_nat n)) as [Hall | [k [Hk [Hfail Hbefore]]]].
    + destruct (run_experiment_completes env agents args out_dir n0 n Hcount Hall)
        as [s [ev [-> [_ [Hw _]]]]].
      cbn [fst snd]. rewrite Hw. repeat constructor.
    + destruct (run_experiment_stops env agents args out_dir n0 n Hcount k Hk
                  Hbefore Hfail) as [ev [-> [_ [Hw _]]]].
      cbn [fst snd]. rewrite Hw. constructor.
  - unfold run_experiment, bindM, lift. rewrite Hcount. cbn [fst snd].
    constructor.
Qed.

Lemma run_scale_point_written (env : environment) (agents : list agent)
    (args : arguments) (acc : list (Z * summary)) (c : Z) (n : nat) :
  written (snd (fst (run_scale_point env agents args acc c n)))
  = written (snd (fst (run_experiment env (current_agents agents c) args
                         (current_out_dir args c) n))).
Proof.
  unfold run_scale_point. rewrite bindM_emit. cbn [fst snd].
  generalize (run_experiment env (current_agents agents c) args
                (current_out_dir args c)).
  intros m. unfold bindM, emit, ret.
  destruct (m n) as [[[s|code|x] ev] n']; cbn [fst snd]; unfold written.
  - change (?a :: (?l ++ ?b)%list) with ([a] ++ (l ++ b))%list.
    rewrite !project_app. cbn [project flat_map Datatypes.app].
    now rewrite app_nil_r.
  - change (?a :: ?l) with ([a] ++ l)%list.
    rewrite !project_app. reflexivity.
  - change (?a :: ?l) with ([a] ++ l)%list.
    rewrite !project_app. reflexivity.
Qed.

(** X22.  The experiments of a multi-scale sweep do not write over one
    another's summaries: two different agent counts get two different
    output directories, the summary files of a scale point are written
    into the directory of that scale point, and in single mode this
    directory is the one given with [--out]. *)
Theorem scale_points_have_their_own_directories (args : arguments) :
  (a_multi_scale args = true ->
   forall c1 c2, current_out_dir args c1 = current_out_dir args c2 -> c1 = c2) /\
  (a_multi_scale args = false -> forall c, current_out_dir args c = a_out args) /\
  forall env agents acc c n f,
    In f (written (snd (fst (run_scale_point env agents args acc c n)))) ->
    fst f = current_out_dir args c.
Proof.
  split; [|split].
  - intros Hmulti c1 c2. unfold current_out_dir. rewrite Hmulti.
    intros H. apply append_cancel_l, append_cancel_l, append_cancel_r in H.
    apply str_injective, H.
  - intros Hsingle c. unfold current_out_dir. now rewrite Hsingle.
  - intros env agents acc c n f Hin. rewrite run_scale_point_written in Hin.
    pose proof (run_experiment_written env (current_agents agents c) args
                  (current_out_dir args c) n) as Hall.
    rewrite Forall_forall in Hall. apply Hall, Hin.
Qed.

Lemma scale_points_have_their_own_directories_witness :
  current_out_dir multi_args 100 <> current_out_dir multi_args 200 /\
  current_out_dir single_args 100 = "out".
Proof.
  destruct (scale_points_have_their_own_directories multi_args) as [Hm _].
  destruct (scale_points_have_their_own_directories single_args) as [_ [Hs _]].
  split.
  - intros H. apply (Hm eq_refl) in H. discriminate H.
  - apply (Hs eq_refl).
Defined.
